(** * Email-to-order extraction pipeline (app/services/email_processor.py)

    A shallow embedding of the order-intake core: the Python string
    primitives the heuristics rest on, difflib's close-match selection, the
    pydantic models of app/models/base.py, and the methods of
    [EmailProcessor], followed by the properties of the design document
    that are checked against them.

    Conventions of the embedding.
    - A Python [str] is a [string]; a character is the code point below
      U+0100 it denotes, so [str.lower], [str.isspace], [str.splitlines] and
      the regex classes [\s] and [\d] are the Latin-1 restrictions of the
      Python ones.
    - A Python [float] that the pipeline computes (a similarity ratio, a
      confidence, a price) is the rational it denotes, in [Q]; the
      thresholds 0.6, 0.7 and 0.8 are [3#5], [7#10] and [4#5].
    - Raising is a result in [PyResult]; [print] calls are dropped, and
      [int] converts a digit run of any length (CPython's cap on the length
      of a decimal literal, 4300 digits by default, is not modelled).
    - A catalog row that went through [to_dict()] is the record [Row] of the
      five columns the pipeline reads; the frame [DataFrame], with cells of
      whatever type [read_csv] inferred, is kept for the constructor, which
      is where a missing column or a name that is no [str] can be seen. *)

From Stdlib Require Import String Ascii List Bool Arith NArith ZArith QArith Lia.
From Stdlib Require Import DecimalString OrderedTypeEx.
Import ListNotations.

Local Open Scope string_scope.
Local Open Scope list_scope.

(** ** Exceptions *)

Inductive PyExn : Type :=
| KeyError (key : string)
| AttributeError (attr : string)
| ValidationError (field : string)
| FileNotFoundError (path : string)
| TypeError (found : string).

Inductive PyResult (A : Type) : Type :=
| Ok (a : A)
| Raise (e : PyExn).

Arguments Ok {A} a.
Arguments Raise {A} e.

Definition bind {A B : Type} (m : PyResult A) (k : A -> PyResult B) : PyResult B :=
  match m with
  | Ok a => k a
  | Raise e => Raise e
  end.

Notation "x <- m ;; k" := (bind m (fun x => k))
  (at level 61, m at next level, right associativity).

(** ** Python string primitives *)

Module PyStr.

Definition ord (c : ascii) : N := N_of_ascii c.

(** [str.isdigit] / regex [\d] on one character. *)
Definition isdigit (c : ascii) : bool :=
  ((48 <=? ord c) && (ord c <=? 57))%N.

(** [str.isspace] / regex [\s] on one character: TAB..CR, FS..US, space,
    NEL and NBSP. *)
Definition isspace (c : ascii) : bool :=
  let n := ord c in
  (((9 <=? n) && (n <=? 13)) || ((28 <=? n) && (n <=? 31))
   || (n =? 32) || (n =? 133) || (n =? 160))%N.

(** Line boundaries of [str.splitlines]. *)
Definition islinebreak (c : ascii) : bool :=
  let n := ord c in
  (((10 <=? n) && (n <=? 13)) || ((28 <=? n) && (n <=? 30)) || (n =? 133))%N.

Definition lower_char (c : ascii) : ascii :=
  let n := ord c in
  if (((65 <=? n) && (n <=? 90))
      || ((192 <=? n) && (n <=? 222) && negb (n =? 215)))%N
  then ascii_of_N (n + 32) else c.

(** [s.lower()] *)
Fixpoint lower (s : string) : string :=
  match s with
  | EmptyString => EmptyString
  | String c s' => String (lower_char c) (lower s')
  end.

Fixpoint lstrip_by (p : ascii -> bool) (s : string) : string :=
  match s with
  | EmptyString => EmptyString
  | String c s' => if p c then lstrip_by p s' else s
  end.

Fixpoint rstrip_by (p : ascii -> bool) (s : string) : string :=
  match s with
  | EmptyString => EmptyString
  | String c s' =>
      match rstrip_by p s' with
      | EmptyString => if p c then EmptyString else String c EmptyString
      | r => String c r
      end
  end.

Definition strip_by (p : ascii -> bool) (s : string) : string :=
  rstrip_by p (lstrip_by p s).

(** [s.strip()] *)
Definition strip (s : string) : string := strip_by isspace s.

Fixpoint mem_char (c : ascii) (chars : string) : bool :=
  match chars with
  | EmptyString => false
  | String d chars' => Ascii.eqb c d || mem_char c chars'
  end.

(** [s.strip(chars)] *)
Definition strip_chars (chars : string) (s : string) : string :=
  strip_by (fun c => mem_char c chars) s.

(** [bool(s)] *)
Definition truthy (s : string) : bool :=
  match s with
  | EmptyString => false
  | String _ _ => true
  end.

(** [s.splitlines()]: CR LF is one boundary, and a boundary at the very end
    opens no further line. *)
Fixpoint splitlines (s : string) : list string :=
  match s with
  | EmptyString => []
  | String c s' =>
      if islinebreak c then
        EmptyString ::
          (if Ascii.eqb c "013"%char then
             match s' with
             | String d s'' => if Ascii.eqb d "010"%char then splitlines s'' else splitlines s'
             | EmptyString => splitlines s'
             end
           else splitlines s')
      else
        match splitlines s' with
        | [] => [String c EmptyString]
        | l :: ls => String c l :: ls
        end
  end.

(** [needle in hay] *)
Fixpoint contains (needle hay : string) : bool :=
  prefix needle hay ||
  match hay with
  | EmptyString => false
  | String _ hay' => contains needle hay'
  end.

(** The text after the first occurrence of [sep], when there is one. *)
Fixpoint after_first (sep : ascii) (s : string) : option string :=
  match s with
  | EmptyString => None
  | String c s' => if Ascii.eqb c sep then Some s' else after_first sep s'
  end.

(** [s.split(':', 1)[-1]]: the last piece is the whole string when [s] has
    no colon. *)
Definition split_colon_last (s : string) : string :=
  match after_first ":"%char s with
  | Some rest => rest
  | None => s
  end.

(** [int(s)] on a run of decimal digits: the value CPython returns for a
    run within its cap on the length of a decimal literal (4300 digits
    unless configured otherwise; a longer run raises [ValueError] there and
    converts here). *)
Definition digit_value (c : ascii) : Z := Z.of_N (ord c) - 48.

Fixpoint int_of_digits_from (acc : Z) (s : string) : Z :=
  match s with
  | EmptyString => acc
  | String c s' => int_of_digits_from (10 * acc + digit_value c) s'
  end.

Definition int_of_digits (s : string) : Z := int_of_digits_from 0 s.

(** [str(n)] for an [int], as an f-string renders it. *)
Definition str_of_int (n : Z) : string := NilZero.string_of_int (Z.to_int n).

(** [sep.join(l)] *)
Definition join (sep : string) (l : list string) : string := String.concat sep l.

End PyStr.

(** ** The regular expressions of the module, as matchers

    Each pattern of email_processor.py is a fixed one; [re.search] on it is
    written out as the leftmost scan it performs.  With [re.IGNORECASE] a
    literal of lower-case ASCII letters matches a text whose lower-casing
    has that literal. *)

Module Re.
Import PyStr.

Fixpoint drop (n : nat) (s : string) : string :=
  match n, s with
  | O, _ => s
  | S n', String _ s' => drop n' s'
  | S _, EmptyString => EmptyString
  end.

(** The maximal run of digits at the head of [s]: what [\d+] consumes. *)
Fixpoint digit_run (s : string) : string :=
  match s with
  | EmptyString => EmptyString
  | String c s' => if isdigit c then String c (digit_run s') else EmptyString
  end.

(** [re.search(r'(\d+)', line)], giving [group(1)]. *)
Fixpoint search_digits (line : string) : option string :=
  match line with
  | EmptyString => None
  | String c line' =>
      if isdigit c then Some (digit_run line) else search_digits line'
  end.

(** [re.sub(r'(\d+)', '', line)] *)
Fixpoint sub_digits (line : string) : string :=
  match line with
  | EmptyString => EmptyString
  | String c line' =>
      if isdigit c then sub_digits line' else String c (sub_digits line')
  end.

(** The alternatives of the address pattern
    [(street|st|avenue|...|po box|city|,)]. *)
Definition address_tokens : list string :=
  ["street"; "st"; "avenue"; "ave"; "road"; "rd"; "lane"; "ln"; "blvd";
   "drive"; "dr"; "way"; "court"; "ct"; "plaza"; "circle"; "parkway";
   "square"; "block"; "bldg"; "suite"; "apt"; "unit"; "room"; "po box";
   "city"; ","].

(** [re.search(address pattern, s, re.IGNORECASE)] as a truth value. *)
Definition search_address (s : string) : bool :=
  existsb (fun tok => contains tok (lower s)) address_tokens.

(** [x\s*\d+] matched at the head of [s]. *)
Definition at_x_number (s : string) : bool :=
  match s with
  | String c r =>
      Ascii.eqb (lower_char c) "x"%char &&
      match lstrip_by isspace r with
      | String d _ => isdigit d
      | EmptyString => false
      end
  | EmptyString => false
  end.

(** [need \d+] matched at the head of [s]. *)
Definition at_need_number (s : string) : bool :=
  prefix "need " (lower s) &&
  match drop 5 s with
  | String d _ => isdigit d
  | EmptyString => false
  end.

(** [re.search(r'(pcs|qty|x\s*\d+|need \d+)', s, re.IGNORECASE)] as a truth
    value. *)
Fixpoint search_product_line (s : string) : bool :=
  prefix "pcs" (lower s) || prefix "qty" (lower s)
  || at_x_number s || at_need_number s
  || match s with
     | EmptyString => false
     | String _ s' => search_product_line s'
     end.

(** Leftmost case-insensitive occurrence of the literal [lit]; the result is
    the text that follows it. *)
Fixpoint search_literal (lit : string) (s : string) : option string :=
  if prefix lit (lower s) then Some (drop (String.length lit) s)
  else match s with
       | EmptyString => None
       | String _ s' => search_literal lit s'
       end.

(** The capture group (dot-star) that ends every note pattern: up to the
    next LF. *)
Fixpoint rest_of_line (s : string) : string :=
  match s with
  | EmptyString => EmptyString
  | String c s' =>
      if Ascii.eqb c "010"%char then EmptyString else String c (rest_of_line s')
  end.

(** [s?] *)
Definition optional_s (s : string) : string :=
  match s with
  | String c s' => if Ascii.eqb (lower_char c) "s"%char then s' else s
  | EmptyString => s
  end.

(** The class [[:\-\s]]. *)
Definition note_separator (c : ascii) : bool :=
  Ascii.eqb c ":"%char || Ascii.eqb c "-"%char || isspace c.

(** [group(1)] of each note pattern, in the order of [note_patterns]. *)
Definition note_patterns : list (string -> option string) :=
  [ (* notes?[:\-\s]* and the capture *)
    (fun text =>
       option_map
         (fun r => rest_of_line (lstrip_by note_separator (optional_s r)))
         (search_literal "note" text));
    (* let me know[:\-\s]* and the capture *)
    (fun text =>
       option_map (fun r => rest_of_line (lstrip_by note_separator r))
         (search_literal "let me know" text));
    (* if there are better alternatives for any item, and the capture *)
    (fun text =>
       option_map rest_of_line
         (search_literal "if there are better alternatives for any item, " text));
    (* sincerely,\s* and the capture *)
    (fun text =>
       option_map (fun r => rest_of_line (lstrip_by isspace r))
         (search_literal "sincerely," text)) ].

End Re.

(** ** difflib *)

Module Difflib.

(** *** [SequenceMatcher(None, a, b).ratio()]

    The matcher has no junk predicate; with [autojunk] an element of [b]
    that occurs more than [len(b) // 100 + 1] times is "popular" once
    [len(b) >= 200], and popular elements are left out of [b2j]. *)

Section Matcher.
Variables a b : list ascii.

Definition popular (c : ascii) : bool :=
  (200 <=? length b)%nat
  && (length b / 100 + 1 <? count_occ ascii_dec b c)%nat.

(** One pass of the inner loop of [find_longest_match]: the row
    [newj2len] for the element [ai], from the previous row [old] (a
    missing entry is 0).  [diag] is [j2len.get(j-1, 0)]. *)
Fixpoint next_row (ai : ascii) (blo bhi j : nat) (bs : list ascii)
         (diag : nat) (old : list nat) : list nat :=
  match bs with
  | [] => []
  | bj :: bs' =>
      (if (blo <=? j)%nat && (j <? bhi)%nat
          && Ascii.eqb ai bj && negb (popular bj)
       then S diag else O)
        :: next_row ai blo bhi (S j) bs' (hd O old) (tl old)
  end.

(** The update [if k > bestsize] along one row, [j] ascending. *)
Fixpoint scan_row (i j : nat) (row : list nat) (best : nat * nat * nat)
  : nat * nat * nat :=
  match row with
  | [] => best
  | k :: row' =>
      scan_row i (S j) row'
        (if (snd best <? k)%nat then (i + 1 - k, j + 1 - k, k)%nat else best)
  end.

(** The outer loop [for i in range(alo, ahi)]; [rest] is [a[i:]] and [n]
    counts the rows still to do. *)
Fixpoint rows (blo bhi : nat) (n i : nat) (rest : list ascii)
         (old : list nat) (best : nat * nat * nat) : nat * nat * nat :=
  match n, rest with
  | S n', ai :: rest' =>
      let new := next_row ai blo bhi 0 b 0 old in
      rows blo bhi n' (S i) rest' new (scan_row i 0 new best)
  | _, _ => best
  end.

Definition at_a (i : nat) : ascii := nth i a zero.
Definition at_b (j : nat) : ascii := nth j b zero.

(** The first [while]: grow the block to the left over equal elements. *)
Fixpoint extend_left (fuel alo blo : nat) (best : nat * nat * nat)
  : nat * nat * nat :=
  let '(besti, bestj, bestsize) := best in
  match fuel with
  | O => best
  | S fuel' =>
      if (alo <? besti)%nat && (blo <? bestj)%nat
         && Ascii.eqb (at_a (besti - 1)) (at_b (bestj - 1))
      then extend_left fuel' alo blo
             (besti - 1, bestj - 1, bestsize + 1)%nat
      else best
  end.

(** The second [while]: grow it to the right. *)
Fixpoint extend_right (fuel ahi bhi : nat) (best : nat * nat * nat)
  : nat * nat * nat :=
  let '(besti, bestj, bestsize) := best in
  match fuel with
  | O => best
  | S fuel' =>
      if (besti + bestsize <? ahi)%nat && (bestj + bestsize <? bhi)%nat
         && Ascii.eqb (at_a (besti + bestsize)) (at_b (bestj + bestsize))
      then extend_right fuel' ahi bhi (besti, bestj, bestsize + 1)%nat
      else best
  end.

(** [find_longest_match(alo, ahi, blo, bhi)].  The two loops that absorb
    junk do nothing: the junk set is empty. *)
Definition find_longest_match (alo ahi blo bhi : nat) : nat * nat * nat :=
  let best := rows blo bhi (ahi - alo) alo (skipn alo a) [] (alo, blo, O) in
  let best := extend_left (length a) alo blo best in
  extend_right (length a) ahi bhi best.

(** The sum of the sizes of [get_matching_blocks()]: the block found in a
    window, then the windows on its left and on its right. *)
Fixpoint matches (fuel alo ahi blo bhi : nat) : nat :=
  match fuel with
  | O => O
  | S fuel' =>
      let '(i, j, k) := find_longest_match alo ahi blo bhi in
      if (k =? 0)%nat then O
      else
        (k
         + (if (alo <? i)%nat && (blo <? j)%nat
            then matches fuel' alo i blo j else O)
         + (if (i + k <? ahi)%nat && (j + k <? bhi)%nat
            then matches fuel' (i + k) ahi (j + k) bhi else O))%nat
  end.

(** [_calculate_ratio(matches, len(a) + len(b))] *)
Definition seq_ratio : Q :=
  let total := (length a + length b)%nat in
  match total with
  | O => 1
  | S _ =>
      (2 * Z.of_nat (matches (S (length a)) 0 (length a) 0 (length b)))
        # Pos.of_nat total
  end.
End Matcher.

(** [set_seq1(x); set_seq2(word); ratio()] *)
Definition ratio (x word : string) : Q :=
  seq_ratio (list_ascii_of_string x) (list_ascii_of_string word).

(** *** [get_close_matches]

    The selection is written over any similarity [sim x word]; the two
    quick ratios of difflib are upper bounds of [ratio()], so the three
    tests of the loop keep [x] exactly when [ratio() >= cutoff]. *)

Section CloseMatches.
Variable sim : string -> string -> Q.

(** [(score1, x1) < (score2, x2)] on tuples. *)
Definition scored_ltb (p q : Q * string) : bool :=
  match Qcompare (fst p) (fst q) with
  | Lt => true
  | Gt => false
  | Eq => String.ltb (snd p) (snd q)
  end.

Fixpoint insert_desc (p : Q * string) (l : list (Q * string)) : list (Q * string) :=
  match l with
  | [] => [p]
  | q :: l' => if scored_ltb p q then q :: insert_desc p l' else p :: l
  end.

(** [heapq.nlargest(n, result)]: the [n] greatest, greatest first. *)
Definition nlargest (n : nat) (result : list (Q * string)) : list (Q * string) :=
  firstn n (fold_right insert_desc [] result).

Definition get_close_matches (word : string) (possibilities : list string)
           (n : nat) (cutoff : Q) : list string :=
  let result :=
    flat_map (fun x => if Qle_bool cutoff (sim x word) then [(sim x word, x)] else [])
             possibilities in
  map snd (nlargest n result).
End CloseMatches.

End Difflib.

(** ** app/models/base.py *)

Record datetime : Type := {
  year : Z; month : Z; day : Z; hour : Z; minute : Z; second : Z
}.

(** A decimal field padded with zeros to [width], as [strftime] writes the
    month, the day and the time of a date. *)
Definition zero_padded (width : nat) (n : Z) : string :=
  let digits := PyStr.str_of_int n in
  String.concat "" (repeat "0" (width - String.length digits)) ++ digits.

(** The [%Y] field of [strftime]: CPython hands it to the C library, which
    on Linux writes the year as a plain decimal, without padding (the year
    999 takes three characters; every year from 1000 on takes four on any
    platform). *)
Definition strftime_year (d : datetime) : string :=
  PyStr.str_of_int (year d).

(** [d.strftime('%Y%m%d%H%M%S')] *)
Definition strftime_compact (d : datetime) : string :=
  strftime_year d ++ zero_padded 2 (month d) ++ zero_padded 2 (day d)
  ++ zero_padded 2 (hour d) ++ zero_padded 2 (minute d) ++ zero_padded 2 (second d).

(** [d.strftime('%Y-%m-%d')] *)
Definition strftime_iso (d : datetime) : string :=
  strftime_year d ++ "-" ++ zero_padded 2 (month d) ++ "-"
  ++ zero_padded 2 (day d).

Record OrderItem : Type := {
  sku : string;
  quantity : Z;
  confidence_score : Q;
  item_notes : option string;
  suggested_replacements : option (list string);
  validation_issues : option (list string);
  price : Q
}.

(** The values that reach a model constructor as keyword arguments. *)
Inductive PyVal : Type :=
| VNone
| VStr (s : string)
| VFloat (q : Q)
| VStrList (l : list string)
| VItems (l : list OrderItem)
| VDict (d : list (string * option string))
| VDatetime (d : datetime).

(** [class Order(BaseModel)]: these eight fields and no other. *)
Record Order : Type := {
  order_id : string;
  customer_email : string;
  items : list OrderItem;
  delivery_preferences : option string;
  created_at : datetime;
  status : string;
  total_confidence_score : Q;
  order_validation_issues : option (list string)
}.

Record EmailContent : Type := {
  raw_content : string;
  subject : option string;
  sender : option string;
  received_at : option datetime;
  thread_id : option string
}.

Module Pydantic.

(** [Field(ge=0.0, le=1.0)] *)
Definition in_unit_interval (q : Q) : bool := Qle_bool 0 q && Qle_bool q 1.

(** [OrderItem(sku=..., quantity=..., confidence_score=...,
    validation_issues=..., suggested_replacements=..., price=...)]:
    every keyword is a declared field; [notes] takes its default. *)
Definition OrderItem_init (sku : string) (quantity : Z) (confidence_score : Q)
           (validation_issues suggested_replacements : option (list string))
           (price : Q) : PyResult OrderItem :=
  if in_unit_interval confidence_score then
    Ok {| sku := sku; quantity := quantity;
          confidence_score := confidence_score;
          item_notes := None;
          suggested_replacements := suggested_replacements;
          validation_issues := validation_issues;
          price := price |}
  else Raise (ValidationError "confidence_score").

Fixpoint kwarg (name : string) (kwargs : list (string * PyVal)) : option PyVal :=
  match kwargs with
  | [] => None
  | (k, v) :: kwargs' => if String.eqb k name then Some v else kwarg name kwargs'
  end.

Definition required_str (name : string) (kwargs : list (string * PyVal)) : PyResult string :=
  match kwarg name kwargs with
  | Some (VStr s) => Ok s
  | _ => Raise (ValidationError name)
  end.

Definition required_items (name : string) (kwargs : list (string * PyVal))
  : PyResult (list OrderItem) :=
  match kwarg name kwargs with
  | Some (VItems l) => Ok l
  | _ => Raise (ValidationError name)
  end.

Definition required_unit_float (name : string) (kwargs : list (string * PyVal)) : PyResult Q :=
  match kwarg name kwargs with
  | Some (VFloat q) =>
      if in_unit_interval q then Ok q else Raise (ValidationError name)
  | _ => Raise (ValidationError name)
  end.

Definition optional_str (name : string) (kwargs : list (string * PyVal))
  : PyResult (option string) :=
  match kwarg name kwargs with
  | None | Some VNone => Ok None
  | Some (VStr s) => Ok (Some s)
  | Some _ => Raise (ValidationError name)
  end.

Definition optional_str_list (name : string) (kwargs : list (string * PyVal))
  : PyResult (option (list string)) :=
  match kwarg name kwargs with
  | None | Some VNone => Ok None
  | Some (VStrList l) => Ok (Some l)
  | Some _ => Raise (ValidationError name)
  end.

Definition defaulted_datetime (name : string) (default : datetime)
           (kwargs : list (string * PyVal)) : PyResult datetime :=
  match kwarg name kwargs with
  | None => Ok default
  | Some (VDatetime d) => Ok d
  | Some _ => Raise (ValidationError name)
  end.

Definition defaulted_str (name : string) (default : string)
           (kwargs : list (string * PyVal)) : PyResult string :=
  match kwarg name kwargs with
  | None => Ok default
  | Some (VStr s) => Ok s
  | Some _ => Raise (ValidationError name)
  end.

(** [Order(...)] on keyword arguments whose values have the declared types,
    which is how [process_email] calls it; pydantic's conversion of a value
    of another type (a numeric string for a float, say) is not modelled, and
    such a value is refused here.  The model sets no [extra] policy, so
    pydantic's default applies: a keyword that names no declared field is
    ignored.  [now] is what [datetime.now] gives the [created_at] factory. *)
Definition Order_init (now : datetime) (kwargs : list (string * PyVal)) : PyResult Order :=
  order_id <- required_str "order_id" kwargs ;;
  customer_email <- required_str "customer_email" kwargs ;;
  items <- required_items "items" kwargs ;;
  delivery_preferences <- optional_str "delivery_preferences" kwargs ;;
  created_at <- defaulted_datetime "created_at" now kwargs ;;
  status <- defaulted_str "status" "pending" kwargs ;;
  total_confidence_score <- required_unit_float "total_confidence_score" kwargs ;;
  validation_issues <- optional_str_list "validation_issues" kwargs ;;
  Ok {| order_id := order_id;
        customer_email := customer_email;
        items := items;
        delivery_preferences := delivery_preferences;
        created_at := created_at;
        status := status;
        total_confidence_score := total_confidence_score;
        order_validation_issues := validation_issues |}.

Definition of_option_str (o : option string) : PyVal :=
  match o with
  | Some s => VStr s
  | None => VNone
  end.

Definition of_option_str_list (o : option (list string)) : PyVal :=
  match o with
  | Some l => VStrList l
  | None => VNone
  end.

(** [getattr(order, name)] for the data of an order: a declared field, or
    [AttributeError] for a name that is neither a field nor one of the
    attributes every pydantic model inherits from [BaseModel] (its methods
    and dunder names), which are left out. *)
Definition Order_getattr (o : Order) (name : string) : PyResult PyVal :=
  if String.eqb name "order_id" then Ok (VStr (order_id o))
  else if String.eqb name "customer_email" then Ok (VStr (customer_email o))
  else if String.eqb name "items" then Ok (VItems (items o))
  else if String.eqb name "delivery_preferences" then Ok (of_option_str (delivery_preferences o))
  else if String.eqb name "created_at" then Ok (VDatetime (created_at o))
  else if String.eqb name "status" then Ok (VStr (status o))
  else if String.eqb name "total_confidence_score" then Ok (VFloat (total_confidence_score o))
  else if String.eqb name "validation_issues" then Ok (of_option_str_list (order_validation_issues o))
  else Raise (AttributeError name).

End Pydantic.

(** ** app/services/email_processor.py *)

(** One row of the catalog frame after [to_dict()]. *)
Record Row : Type := {
  Product_Code : string;
  Product_Name : string;
  Min_Order_Quantity : Z;
  Available_in_Stock : Z;
  Price : Q
}.

(** A cell of the frame, as [tolist()] hands it over: [read_csv] keeps text
    as a [str], turns a column of numerals into numbers (or booleans) and
    leaves the float NaN where a cell is blank. *)
Inductive Cell : Type :=
| CText (s : string)
| CInt (z : Z)
| CFloat (q : Q)
| CBool (b : bool)
| CNaN.

Definition is_str (c : Cell) : bool :=
  match c with
  | CText _ => true
  | _ => false
  end.

(** What [pd.read_csv] returns, as far as [__init__] looks at it: the
    columns by header, each with its cells. *)
Definition DataFrame : Type := list (string * list Cell).

Record EmailProcessor : Type := {
  catalog : DataFrame;
  product_name_pattern : string;
  sku_pattern : string;
  quantity_pattern : string
}.

(** A line the product extractor keeps:
    [(product, quantity, confidence, extracted_name)]. *)
Definition Extracted : Type := (option Row * Z * Q * string)%type.

Record DeliveryDetails : Type := {
  address : option string;
  date : option string
}.

Module EP.
Import PyStr.

Definition NON_PRODUCT_PHRASES : list string :=
  ["deliver to"; "let me know"; "pricing"; "availability"; "before";
   "address"; "do deliver"; "meguro"; "japan"].

(** The characters [re.escape] puts a backslash before. *)
Definition re_special_chars : string :=
  "()[]{}?*+-|^$\.&~# "
  ++ String "009" (String "010" (String "013" (String "011" (String "012" EmptyString)))).

Fixpoint re_escape (s : string) : string :=
  match s with
  | EmptyString => EmptyString
  | String c s' =>
      if mem_char c re_special_chars then String "\" (String c (re_escape s'))
      else String c (re_escape s')
  end.

(** [l.sort(key=len, reverse=True)]: stable, longest first. *)
Fixpoint insert_by_len (x : string) (l : list string) : list string :=
  match l with
  | [] => [x]
  | y :: l' =>
      if (String.length y <=? String.length x)%nat then x :: l
      else y :: insert_by_len x l'
  end.

Definition sort_by_len_desc (l : list string) : list string :=
  fold_right insert_by_len [] l.

Definition build_product_name_regex (product_names : list string) : string :=
  let escaped_names := map re_escape product_names in
  let escaped_names := sort_by_len_desc escaped_names in
  "(" ++ join "|" escaped_names ++ ")".

(** [frame[column]] *)
Fixpoint getitem (frame : DataFrame) (column : string) : PyResult (list Cell) :=
  match frame with
  | [] => Raise (KeyError column)
  | (header, cells) :: frame' =>
      if String.eqb header column then Ok cells else getitem frame' column
  end.

(** The name of the Python type of a cell that is no [str]. *)
Definition type_name (c : Cell) : string :=
  match c with
  | CText _ => "str"
  | CInt _ => "int"
  | CFloat _ | CNaN => "float"
  | CBool _ => "bool"
  end.

(** The cells as the [str] list that [build_product_name_regex] works on.
    Its first step escapes the names from left to right, and [re.escape]
    decodes whatever is no [str] as bytes: on the first cell that is a
    number, a boolean or NaN that raises [TypeError], before anything is
    sorted or joined. *)
Fixpoint str_names (cells : list Cell) : PyResult (list string) :=
  match cells with
  | [] => Ok []
  | CText s :: cells' => names <- str_names cells' ;; Ok (s :: names)
  | c :: _ => Raise (TypeError (type_name c))
  end.

(** [EmailProcessor.__init__]; [read_csv] stands for [pd.read_csv] on the
    files that exist.  The two compiled patterns are constants. *)
Definition init (read_csv : string -> PyResult DataFrame) (catalog_path : string)
  : PyResult EmailProcessor :=
  frame <- read_csv catalog_path ;;
  cells <- getitem frame "Product_Name" ;;
  product_names <- str_names cells ;;
  Ok {| catalog := frame;
        product_name_pattern := build_product_name_regex product_names;
        sku_pattern := "[A-Z]{2,3}-\d{3,4}";
        quantity_pattern := "(\d+)\s*(?:pcs|pieces|units|qty|quantity)?" |}.

Section Pipeline.
(** The similarity behind [difflib.get_close_matches]. *)
Variable sim : string -> string -> Q.
(** [dateparser.parse(s, settings={'PREFER_DATES_FROM': 'future'})] and
    [search_dates(text, settings=...)], at the time of the call. *)
Variable dateparser_parse : string -> option datetime.
Variable search_dates : string -> option (list (string * datetime)).
(** [datetime.now()] when the [Order] is built. *)
Variable now : datetime.
(** The loaded catalog, [self.catalog]. *)
Variable cat : list Row.

Definition find_product (extracted_name : string) : option Row :=
  match filter (fun r => String.eqb (lower (Product_Name r)) (lower extracted_name)) cat with
  | r :: _ => Some r
  | [] =>
      match filter (fun r => String.eqb (lower (Product_Code r)) (lower extracted_name)) cat with
      | r :: _ => Some r
      | [] =>
          let all_names := map Product_Name cat ++ map Product_Code cat in
          match Difflib.get_close_matches sim extracted_name all_names 1 (4#5) with
          | match_name :: _ =>
              match filter (fun r => String.eqb (Product_Name r) match_name
                                     || String.eqb (Product_Code r) match_name) cat with
              | r :: _ => Some r
              | [] => None
              end
          | [] => None
          end
      end
  end.

(** *** [extract_delivery_details] *)

Definition address_keywords : list string :=
  ["ship to"; "send to"; "delivery address"; "please deliver to";
   "deliver to"; "recipient"; "address is"; "ship them to"].

Definition date_keywords : list string :=
  ["before"; "by"; "deadline"; "requested delivery date"; "deliver on";
   "deliver before"; "delivery date"; "needed on"; "arrive by";
   "no later than"; "expected on"; "required delivery date"].

(** [[line.strip() for line in text.splitlines() if line.strip()]] *)
Definition stripped_lines (text : string) : list string :=
  map strip (filter (fun line => truthy (strip line)) (splitlines text)).

(** [if address:] on [None] or a string. *)
Definition is_set (v : option string) : bool :=
  match v with
  | Some s => truthy s
  | None => false
  end.

(** The inner [for keyword in address_keywords] at line [i]: [rest] is
    [lines[i+1:]].  It stops at the first keyword the line contains. *)
Definition address_at (address : option string) (line : string)
           (rest : list string) : option string :=
  match find (fun keyword => contains keyword (lower line)) address_keywords with
  | Some keyword =>
      let after_colon := strip (split_colon_last line) in
      if truthy after_colon && negb (String.eqb (lower after_colon) keyword)
      then Some after_colon
      else
        match rest with
        | next_line :: rest' =>
            match rest' with
            | following :: _ =>
                if Re.search_address following
                then Some (next_line ++ ", " ++ following)%string
                else Some next_line
            | [] => Some next_line
            end
        | [] => address
        end
  | None => address
  end.

(** The outer [for i, line in enumerate(lines)], left at the first line
    that sets [address]. *)
Fixpoint address_scan (address : option string) (lines : list string) : option string :=
  match lines with
  | [] => address
  | line :: rest =>
      let address := address_at address line rest in
      if is_set address then address else address_scan address rest
  end.

(** The fallback loop: the first line that is no product line and looks
    like an address. *)
Definition address_fallback (address : option string) (lines : list string)
  : option string :=
  match find (fun line => negb (Re.search_product_line line)
                          && Re.search_address line) lines with
  | Some line => Some line
  | None => address
  end.

(** The inner [for keyword in date_keywords] on one line. *)
Fixpoint date_at (date : option string) (line : string) (keywords : list string)
  : option string :=
  match keywords with
  | [] => date
  | keyword :: keywords' =>
      if contains keyword (lower line) then
        match dateparser_parse (split_colon_last line) with
        | Some parsed_date => Some (strftime_iso parsed_date)
        | None => date_at date line keywords'
        end
      else date_at date line keywords'
  end.

Fixpoint date_scan (date : option string) (lines : list string) : option string :=
  match lines with
  | [] => date
  | line :: rest =>
      let date := date_at date line date_keywords in
      if is_set date then date else date_scan date rest
  end.

Definition extract_delivery_details (text : string) : DeliveryDetails :=
  let lines := stripped_lines text in
  let address := address_scan None lines in
  let address := if negb (is_set address) then address_fallback address lines
                 else address in
  let date := date_scan None lines in
  let date :=
    if negb (is_set date) then
      match search_dates text with
      | Some ((_, found) :: _) => Some (strftime_iso found)
      | _ => date
      end
    else date in
  {| address := address; date := date |}.

(** *** [extract_customer_notes] *)

Fixpoint first_note (patterns : list (string -> option string)) (text : string)
  : option string :=
  match patterns with
  | [] => None
  | pat :: patterns' =>
      match pat text with
      | Some group1 => Some (strip group1)
      | None => first_note patterns' text
      end
  end.

Definition extract_customer_notes (text : string) : option string :=
  first_note Re.note_patterns text.

(** *** [extract_products_and_quantities] *)

(** [any(phrase in extracted_name.lower() for phrase in NON_PRODUCT_PHRASES)] *)
Definition is_non_product (extracted_name : string) : bool :=
  existsb (fun phrase => contains phrase (lower extracted_name)) NON_PRODUCT_PHRASES.

(** The body of [for line in text.splitlines()], on the list [results]. *)
Definition extract_line (results : list Extracted) (line : string) : list Extracted :=
  match Re.search_digits line with
  | None => results
  | Some num_match =>
      let quantity := int_of_digits num_match in
      let candidate := strip_chars " -:x*.," (Re.sub_digits line) in
      let product_names := map Product_Name cat in
      let best := Difflib.get_close_matches sim candidate product_names 1 (3#5) in
      let '(extracted_name, product, confidence) :=
        match best with
        | best0 :: _ => (best0, find_product best0, 1%Q)
        | [] => (candidate, None, 1#2)
        end in
      if is_non_product extracted_name then results
      else results ++ [(product, quantity, confidence, extracted_name)]
  end.

Definition extract_products_and_quantities (text : string) : list Extracted :=
  fold_left extract_line (splitlines text) [].

(** *** [validate_against_catalog] *)

Definition moq_issue (quantity : Z) (product : Row) : string :=
  "Quantity " ++ str_of_int quantity ++ " is below MOQ of "
  ++ str_of_int (Min_Order_Quantity product) ++ " for " ++ Product_Name product.

Definition moq_suggestion (product : Row) : string :=
  "Increase quantity to " ++ str_of_int (Min_Order_Quantity product).

Definition stock_issue (quantity : Z) (product : Row) : string :=
  "Requested quantity " ++ str_of_int quantity
  ++ " exceeds available stock of " ++ str_of_int (Available_in_Stock product)
  ++ " for " ++ Product_Name product.

Definition stock_suggestion (product : Row) : string :=
  "Reduce quantity to " ++ str_of_int (Available_in_Stock product).

(** In the branch [if not product] the conditional expression
    [get_close_matches(product, all_names, n=2, cutoff=0.6) if product
    else []] takes its [else]: [similar] is the empty list there. *)
Definition validate_against_catalog (product : option Row) (quantity : Z)
  : bool * list string * list string :=
  let issues : list string := [] in
  let suggestions : list string := [] in
  match product with
  | None =>
      let issues := issues ++ ["Product not found in catalog"] in
      let all_names := map Product_Name cat ++ map Product_Code cat in
      let similar : list string := [] in
      let suggestions :=
        match similar with
        | [] => suggestions
        | _ :: _ => suggestions ++ similar
        end in
      (false, issues, suggestions)
  | Some product =>
      let '(issues, suggestions) :=
        if (quantity <? Min_Order_Quantity product)%Z
        then (issues ++ [moq_issue quantity product],
              suggestions ++ [moq_suggestion product])
        else (issues, suggestions) in
      let '(issues, suggestions) :=
        if (quantity >? Available_in_Stock product)%Z
        then (issues ++ [stock_issue quantity product],
              suggestions ++ [stock_suggestion product])
        else (issues, suggestions) in
      ((length issues =? 0)%nat, issues, suggestions)
  end.

(** *** [process_email] *)

(** The loop [for product, quantity, confidence, extracted_name in
    filtered_items], on the pair [(order_items, total_confidence)]. *)
Fixpoint build_items (filtered_items : list Extracted)
         (order_items : list OrderItem) (total_confidence : Q)
  : PyResult (list OrderItem * Q) :=
  match filtered_items with
  | [] => Ok (order_items, total_confidence)
  | (product, quantity, confidence, extracted_name) :: filtered_items' =>
      let '(is_valid, issues, suggestions) :=
        validate_against_catalog product quantity in
      let sku := match product with
                 | Some p => Product_Code p
                 | None => extracted_name
                 end in
      item <- Pydantic.OrderItem_init sku quantity confidence
                (if negb is_valid then Some issues else None)
                (if negb is_valid then Some suggestions else None)
                (match product with
                 | Some p => Price p
                 | None => 0
                 end) ;;
      build_items filtered_items' (order_items ++ [item])
                  (total_confidence + confidence)
  end.

(** [[issue for item in order_items if item.validation_issues
     for issue in item.validation_issues]] *)
Definition collect_issues (order_items : list OrderItem) : list string :=
  flat_map (fun item => match validation_issues item with
                        | Some issues => issues
                        | None => []
                        end) order_items.

Definition process_email (email : EmailContent) : PyResult Order :=
  let extracted_items := extract_products_and_quantities (raw_content email) in
  let filtered_items :=
    filter (fun item => Qle_bool (7#10) (snd (fst item))) extracted_items in
  built <- build_items filtered_items [] 0 ;;
  let '(order_items, total_confidence) := built in
  let avg_confidence :=
    match order_items with
    | [] => 0
    | _ :: _ => total_confidence / inject_Z (Z.of_nat (length order_items))
    end in
  let delivery_details := extract_delivery_details (raw_content email) in
  let notes := extract_customer_notes (raw_content email) in
  Pydantic.Order_init now
    [ ("order_id",
       VStr ("ORD-" ++ match received_at email with
                       | Some d => strftime_compact d
                       | None => "TEMP"
                       end));
      ("customer_email",
       VStr (match sender email with
             | Some s => if truthy s then s else "unknown@email.com"
             | None => "unknown@email.com"
             end));
      ("items", VItems order_items);
      ("total_confidence_score", VFloat avg_confidence);
      ("validation_issues", VStrList (collect_issues order_items));
      ("delivery_details",
       VDict [("address", address delivery_details);
              ("date", date delivery_details)]);
      ("notes", Pydantic.of_option_str notes) ].
End Pipeline.

End EP.

(** ** The vocabulary of the design document *)

Module Spec.
Import PyStr.

(** "The best fuzzy match of the phrase" among [candidates] at [cutoff]:
    a candidate that clears the cutoff and that no other such candidate
    beats, on the similarity first and on the string itself between equal
    similarities. *)
Definition best_match (sim : string -> string -> Q) (phrase : string)
           (candidates : list string) (cutoff : Q) (m : string) : Prop :=
  In m candidates /\ cutoff <= sim m phrase /\
  forall x, In x candidates -> cutoff <= sim x phrase ->
            sim x phrase < sim m phrase
            \/ (sim x phrase == sim m phrase /\ String.leb x m = true).

(** "Case-insensitive exact match" on the name, on the code; "the product
    owning that matched string". *)
Definition name_is (phrase : string) (r : Row) : bool :=
  String.eqb (lower (Product_Name r)) (lower phrase).

Definition code_is (phrase : string) (r : Row) : bool :=
  String.eqb (lower (Product_Code r)) (lower phrase).

Definition owns (s : string) (r : Row) : bool :=
  String.eqb (Product_Name r) s || String.eqb (Product_Code r) s.

(** The three kinds of validation issue, told apart by how they begin. *)
Definition not_found_issue : string := "Product not found in catalog".

Definition is_moq_issue (issue : string) : bool := prefix "Quantity " issue.

Definition is_stock_issue (issue : string) : bool :=
  prefix "Requested quantity " issue.

(** "The arithmetic mean (or 0.0 if empty)". *)
Definition mean (l : list Q) : Q :=
  match l with
  | [] => 0
  | _ :: _ => fold_right Qplus 0 l / inject_Z (Z.of_nat (length l))
  end.

(** An order item "originates from" an extracted entry. *)
Definition built_from (item : OrderItem) (entry : Extracted) : Prop :=
  let '(product, qty, confidence, extracted_name) := entry in
  quantity item = qty /\ confidence_score item = confidence /\
  sku item = match product with
             | Some p => Product_Code p
             | None => extracted_name
             end.

Definition confidence_of (entry : Extracted) : Q := snd (fst entry).

Definition product_of (entry : Extracted) : option Row := fst (fst (fst entry)).

(** "Surviving" entries: those kept by the confidence threshold 0.7. *)
Definition surviving (entries : list Extracted) : list Extracted :=
  filter (fun entry => Qle_bool (7#10) (confidence_of entry)) entries.

(** The order item the assembler makes of one surviving entry. *)
Definition item_for (cat : list Row) (entry : Extracted) : OrderItem :=
  let '(product, qty, confidence, extracted_name) := entry in
  let '(is_valid, issues, suggestions) :=
    EP.validate_against_catalog cat product qty in
  {| sku := match product with
            | Some p => Product_Code p
            | None => extracted_name
            end;
     quantity := qty;
     confidence_score := confidence;
     item_notes := None;
     suggested_replacements := if negb is_valid then Some suggestions else None;
     validation_issues := if negb is_valid then Some issues else None;
     price := match product with
              | Some p => Price p
              | None => 0
              end |}.

(** The separator characters of the candidate phrase. *)
Definition is_separator (c : ascii) : bool := mem_char c " -:x*.,".

Fixpoint all_chars (p : ascii -> bool) (s : string) : bool :=
  match s with
  | EmptyString => true
  | String c s' => p c && all_chars p s'
  end.

Definition starts_with (p : ascii -> bool) (s : string) : bool :=
  match s with
  | EmptyString => false
  | String c _ => p c
  end.

Fixpoint ends_with (p : ascii -> bool) (s : string) : bool :=
  match s with
  | EmptyString => false
  | String c EmptyString => p c
  | String _ s' => ends_with p s'
  end.


(** The address rule of the keyword line as the design document words it:
    the text after the first colon if there is such a text, it is not
    empty and it is not the keyword; otherwise the next line, joined to the
    one after it when that one looks like an address. *)
Definition next_line_rule (rest : list string) : option string :=
  match rest with
  | next_line :: following :: _ =>
      if Re.search_address following
      then Some (next_line ++ ", " ++ following)%string
      else Some next_line
  | [next_line] => Some next_line
  | [] => None
  end.

Definition worded_address_rule (keyword line : string) (rest : list string)
  : option string :=
  match after_first ":"%char line with
  | Some after_colon =>
      if truthy (strip after_colon)
         && negb (String.eqb (lower (strip after_colon)) keyword)
      then Some (strip after_colon)
      else next_line_rule rest
  | None => next_line_rule rest
  end.

(** The columns the design document requires of a catalog source. *)
Definition required_columns : list string :=
  ["Product_Name"; "Product_Code"; "Min_Order_Quantity";
   "Available_in_Stock"; "Price"].

End Spec.

(** ** Sample data *)

Module Sample.

Definition LF : string := String "010"%char EmptyString.

Definition catalog : list Row :=
  [ {| Product_Code := "SW-100"; Product_Name := "SuperWidget";
       Min_Order_Quantity := 20; Available_in_Stock := 100; Price := 5 # 2 |};
    {| Product_Code := "DL-200"; Product_Name := "Desk Lamp";
       Min_Order_Quantity := 1; Available_in_Stock := 3; Price := 10 |};
    {| Product_Code := "JT-300"; Product_Name := "Japan Tea Set";
       Min_Order_Quantity := 1; Available_in_Stock := 50; Price := 30 |} ].

(** A date parser that recognises nothing. *)
Definition no_parse (s : string) : option datetime := None.
Definition no_search (s : string) : option (list (string * datetime)) := None.

Definition clock : datetime :=
  {| year := 2025; month := 6; day := 1; hour := 9; minute := 5; second := 0 |}.

Definition email_of (text : string) : EmailContent :=
  {| raw_content := text; subject := None; sender := None;
     received_at := Some clock; thread_id := None |}.

Definition order_text : string :=
  "Hello," ++ LF ++ "Need 10 pcs of SuperWidget" ++ LF
  ++ "Ship to: 123 Main Street, Springfield" ++ LF
  ++ "Notes: call on arrival".

Definition no_colon_text : string :=
  "Please ship to our warehouse" ++ LF ++ "42 Elm Road".

(** A catalog source with every required column but the stock one. *)
Definition frame_without_stock : DataFrame :=
  [ ("Product_Code", [CText "SW-100"]); ("Product_Name", [CText "SuperWidget"]);
    ("Min_Order_Quantity", [CInt 20]); ("Price", [CFloat (5#2)]) ].

Definition frame_without_name : DataFrame :=
  [ ("Product_Code", [CText "SW-100"]); ("Min_Order_Quantity", [CInt 20]);
    ("Available_in_Stock", [CInt 100]); ("Price", [CFloat (5#2)]) ].

(** A catalog source with all five columns whose second row has no name. *)
Definition frame_with_blank_name : DataFrame :=
  [ ("Product_Code", [CText "SW-100"; CText "DL-200"]);
    ("Product_Name", [CText "SuperWidget"; CNaN]);
    ("Min_Order_Quantity", [CInt 20; CInt 1]);
    ("Available_in_Stock", [CInt 100; CInt 3]);
    ("Price", [CFloat (5#2); CFloat 10]) ].

End Sample.

(** ** More sample data *)

Module Cases.

(** A date parser that reads one phrase. *)
Definition parse_july_4 (s : string) : option datetime :=
  if String.eqb (PyStr.strip s) "July 4"
  then Some {| year := 2025; month := 7; day := 4;
               hour := 0; minute := 0; second := 0 |}
  else None.

Definition desk_lamp : Row :=
  {| Product_Code := "DL-200"; Product_Name := "Desk Lamp";
     Min_Order_Quantity := 1; Available_in_Stock := 3; Price := 10 |}.

Definition deadline_text : string :=
  "Hello team" ++ Sample.LF ++ "Deadline: July 4" ++ Sample.LF ++ "Thanks".

(** A receipt time before the year 1000. *)
Definition early_receipt : datetime :=
  {| year := 999; month := 1; day := 2; hour := 3; minute := 4; second := 5 |}.

Definition early_email : EmailContent :=
  {| raw_content := "Please call me back"; subject := None;
     sender := Some "ada@example.com"; received_at := Some early_receipt;
     thread_id := None |}.

End Cases.

(** ** app/services/order_aggregator.py *)

Module Agg.

(** [class DeliveryDetails(BaseModel)] and [class OrderRequest(BaseModel)]
    of app/models/base.py, the orders the aggregator is given. *)
Record DeliveryDetails : Type := {
  address : string;
  date : string;
  instructions : option string
}.

Record OrderRequest : Type := {
  id : string;
  customer_name : string;
  items : list OrderItem;
  delivery_details : DeliveryDetails;
  notes : option string;
  created_at : datetime;
  status : string;
  total_confidence_score : Q;
  validation_issues : option (list string)
}.

(** A [defaultdict(int)], in insertion order. *)
Definition Counter (K : Type) : Type := list (K * Z).

Section Counters.
Context {K : Type} (eqb : K -> K -> bool).

(** [d[key] += amount]: a missing key enters at the end, from 0. *)
Fixpoint add_to (key : K) (amount : Z) (d : Counter K) : Counter K :=
  match d with
  | [] => [(key, (0 + amount)%Z)]
  | (k, v) :: d' =>
      if eqb k key then (k, (v + amount)%Z) :: d'
      else (k, v) :: add_to key amount d'
  end.

(** The count held for [key]; 0 when the key was never written. *)
Fixpoint count_of (key : K) (d : Counter K) : Z :=
  match d with
  | [] => 0%Z
  | (k, v) :: d' => if eqb k key then v else count_of key d'
  end.

(** A run of [d[key] += amount] statements. *)
Definition add_all (entries : list (K * Z)) (d : Counter K) : Counter K :=
  fold_left (fun d entry => add_to (fst entry) (snd entry) d) entries d.

(** The amounts that a run of additions writes for [key]. *)
Fixpoint written_for (key : K) (entries : list (K * Z)) : Z :=
  match entries with
  | [] => 0%Z
  | (k, amount) :: entries' =>
      ((if eqb k key then amount else 0) + written_for key entries')%Z
  end.
End Counters.

Record State : Type := {
  orders : list OrderRequest;
  product_patterns : Counter string;
  customer_patterns : Counter string;
  time_patterns : Counter string
}.

(** [OrderAggregator.__init__] *)
Definition init : State :=
  {| orders := []; product_patterns := []; customer_patterns := [];
     time_patterns := [] |}.

Inductive Exn : Type :=
| ValueError (text : string)
| OverflowError.

(** [f"{order.customer_name}_{order.delivery_details.address}"] *)
Definition customer_key (order : OrderRequest) : string :=
  customer_name order ++ "_" ++ address (delivery_details order).

(** [[(item.sku, item.quantity) for item in order.items]] *)
Definition item_amounts (order : OrderRequest) : list (string * Z) :=
  map (fun item => (sku item, quantity item)) (items order).

Section Aggregator.
(** [datetime.strptime(s, "%Y-%m-%d").strftime("%Y-%W")]; nothing where
    [strptime] raises [ValueError]. *)
Variable week_key_of : string -> option string.

(** [_update_patterns]: the product and customer counters are written
    before the date is parsed, so they stay written when it raises. *)
Definition update_patterns (self : State) (order : OrderRequest) : State * option Exn :=
  let product_patterns := add_all String.eqb (item_amounts order) (product_patterns self) in
  let customer_patterns := add_to String.eqb (customer_key order) 1 (customer_patterns self) in
  match week_key_of (date (delivery_details order)) with
  | None =>
      ({| orders := orders self; product_patterns := product_patterns;
          customer_patterns := customer_patterns;
          time_patterns := time_patterns self |},
       Some (ValueError (date (delivery_details order))))
  | Some week_key =>
      ({| orders := orders self; product_patterns := product_patterns;
          customer_patterns := customer_patterns;
          time_patterns := add_to String.eqb week_key 1 (time_patterns self) |},
       None)
  end.

(** [add_order] *)
Definition add_order (self : State) (order : OrderRequest) : State * option Exn :=
  update_patterns
    {| orders := orders self ++ [order];
       product_patterns := product_patterns self;
       customer_patterns := customer_patterns self;
       time_patterns := time_patterns self |}
    order.

(** A caller that adds orders one after the other and goes on after an
    exception, as the endpoint of app/main.py does. *)
Definition add_orders (self : State) (new_orders : list OrderRequest) : State :=
  fold_left (fun self order => fst (add_order self order)) new_orders self.
End Aggregator.

(** [tuple(sorted([a, b]))] *)
Definition sorted_pair (a b : string) : string * string :=
  if String.ltb b a then (b, a) else (a, b).

(** The pairs of the two nested loops over [range(len(skus))]. *)
Fixpoint pairs_of (skus : list string) : list (string * string) :=
  match skus with
  | [] => []
  | s :: rest => map (sorted_pair s) rest ++ pairs_of rest
  end.

Definition pair_eqb (p q : string * string) : bool :=
  String.eqb (fst p) (fst q) && String.eqb (snd p) (snd q).

(** [get_common_products(min_occurrences)]: each entry is
    [(products, occurrences)]. *)
Definition get_common_products (self : State) (min_occurrences : Z)
  : list ((string * string) * Z) :=
  let product_pairs :=
    add_all pair_eqb
            (flat_map (fun order =>
                         map (fun pair => (pair, 1%Z))
                             (pairs_of (map sku (items order))))
                      (orders self))
            [] in
  filter (fun entry => (min_occurrences <=? snd entry)%Z) product_pairs.

(** [key.split("_", 1)], unpacked into two names; nothing where the
    unpacking raises [ValueError] for want of an underscore. *)
Fixpoint split_underscore (key : string) : option (string * string) :=
  match key with
  | EmptyString => None
  | String c key' =>
      if Ascii.eqb c "_"%char then Some (EmptyString, key')
      else match split_underscore key' with
           | Some (name, rest) => Some (String c name, rest)
           | None => None
           end
  end.

Record CustomerInsight : Type := {
  insight_customer_name : string;
  insight_address : string;
  order_count : Z;
  total_items : Z;
  average_items_per_order : Q
}.

Section Insights.
(** [total_items / order_count] on two ints: the float nearest to the
    quotient, as the rational it denotes, or [OverflowError] (nothing here)
    where the quotient is beyond the floats. *)
Variable true_div : Z -> Z -> option Q.

(** The body of the loop of [get_customer_insights] for one entry of
    [customer_patterns]: the insight, or the exception that the unpacking
    of the key or the division raises. *)
Definition customer_insight (self : State) (key : string) (count : Z)
  : Exn + CustomerInsight :=
  match split_underscore key with
  | None => inl (ValueError "not enough values to unpack (expected 2, got 1)")
  | Some (name, addr) =>
      let customer_orders :=
        filter (fun order => String.eqb (customer_name order) name
                             && String.eqb (address (delivery_details order)) addr)
               (orders self) in
      let total :=
        fold_left Z.add
                  (flat_map (fun order => map quantity (items order)) customer_orders)
                  0%Z in
      match (if (count >? 0)%Z then true_div total count else Some 0) with
      | None => inl OverflowError
      | Some average =>
          inr {| insight_customer_name := name;
                 insight_address := addr;
                 order_count := count;
                 total_items := total;
                 average_items_per_order := average |}
      end
  end.

(** [get_customer_insights]: the insights of the entries in their order, or
    the exception of the first entry that raises. *)
Fixpoint customer_insights_of (self : State) (entries : Counter string)
  : Exn + list CustomerInsight :=
  match entries with
  | [] => inr []
  | (key, count) :: entries' =>
      match customer_insight self key count with
      | inl e => inl e
      | inr insight =>
          match customer_insights_of self entries' with
          | inl e => inl e
          | inr insights => inr (insight :: insights)
          end
      end
  end.

Definition get_customer_insights (self : State) : Exn + list CustomerInsight :=
  customer_insights_of self (customer_patterns self).
End Insights.

Inductive MergeResult : Type :=
| MergeError (message : string)
| Merged (merged_items : list (string * Z)) (delivery_date : string)
         (merged_notes : string) (original_orders : list (string * string * string)).

(** [max(...)] over strings: the first greatest one. *)
Definition max_string (first : string) (others : list string) : string :=
  fold_left (fun best s => if String.ltb best s then s else best) others first.

(** [merge_orders(order_ids)] *)
Definition merge_orders (self : State) (order_ids : list string) : MergeResult :=
  let selected_orders :=
    filter (fun order => existsb (String.eqb (id order)) order_ids) (orders self) in
  match selected_orders with
  | [] => MergeError "No orders found with the provided IDs"
  | first :: others =>
      let merged_items :=
        add_all String.eqb (flat_map item_amounts selected_orders) [] in
      let latest_delivery :=
        max_string (date (delivery_details first))
                   (map (fun order => date (delivery_details order)) others) in
      let combined_notes :=
        PyStr.join Sample.LF
          (flat_map (fun order => match notes order with
                                  | Some n => if PyStr.truthy n then [n] else []
                                  | None => []
                                  end) selected_orders) in
      Merged merged_items latest_delivery combined_notes
             (map (fun order => (id order, customer_name order,
                                 date (delivery_details order))) selected_orders)
  end.

End Agg.

(** ** What the aggregator is to count *)

Module AggSpec.

(** The quantity ordered of one SKU over a list of orders. *)
Definition ordered_quantity (s : string) (orders : list Agg.OrderRequest) : Z :=
  fold_right Z.add 0%Z
             (map quantity
                  (filter (fun item => String.eqb (sku item) s)
                          (flat_map Agg.items orders))).

(** The orders of one customer key; of one delivery week. *)
Definition orders_with_key (key : string) (orders : list Agg.OrderRequest)
  : list Agg.OrderRequest :=
  filter (fun order => String.eqb (Agg.customer_key order) key) orders.

Definition orders_in_week (week_key_of : string -> option string) (week : string)
           (orders : list Agg.OrderRequest) : list Agg.OrderRequest :=
  filter (fun order => match week_key_of (Agg.date (Agg.delivery_details order)) with
                       | Some w => String.eqb w week
                       | None => false
                       end) orders.

(** The counter entry an order makes for its delivery week. *)
Definition week_entries (week_key_of : string -> option string)
           (order : Agg.OrderRequest) : list (string * Z) :=
  match week_key_of (Agg.date (Agg.delivery_details order)) with
  | Some week_key => [(week_key, 1%Z)]
  | None => []
  end.

(** The orders of one customer, by name and address. *)
Definition orders_of_customer (name addr : string) (orders : list Agg.OrderRequest)
  : list Agg.OrderRequest :=
  filter (fun order => String.eqb (Agg.customer_name order) name
                       && String.eqb (Agg.address (Agg.delivery_details order)) addr)
         orders.

(** The quantities of all the items of the orders, added up. *)
Definition item_total (orders : list Agg.OrderRequest) : Z :=
  fold_left Z.add (flat_map (fun order => map quantity (Agg.items order)) orders) 0%Z.

(** All the SKU pairs of all the orders. *)
Definition all_pairs (orders : list Agg.OrderRequest) : list (string * string) :=
  flat_map (fun order => Agg.pairs_of (map sku (Agg.items order))) orders.

Definition occurrences (pair : string * string) (pairs : list (string * string)) : Z :=
  Z.of_nat (length (filter (fun p => Agg.pair_eqb p pair) pairs)).

End AggSpec.

Module AggCases.

Definition item (s : string) (q : Z) : OrderItem :=
  {| sku := s; quantity := q; confidence_score := 1; item_notes := None;
     suggested_replacements := None; validation_issues := None; price := 0 |}.

Definition order (ident name addr day : string) (its : list OrderItem)
           (note : option string) : Agg.OrderRequest :=
  {| Agg.id := ident; Agg.customer_name := name; Agg.items := its;
     Agg.delivery_details :=
       {| Agg.address := addr; Agg.date := day; Agg.instructions := None |};
     Agg.notes := note; Agg.created_at := Sample.clock; Agg.status := "pending";
     Agg.total_confidence_score := 1; Agg.validation_issues := None |}.

Definition first_order : Agg.OrderRequest :=
  order "A1" "Ada" "1 Elm Road" "2025-07-04"
        [item "SW-100" 20; item "DL-200" 2] (Some "fragile").

Definition second_order : Agg.OrderRequest :=
  order "B2" "Bob" "2 Oak Lane" "someday"
        [item "DL-200" 1; item "SW-100" 5] None.

(** A week rendering that reads ISO dates only by their shape. *)
Definition week_of (day : string) : option string :=
  if (String.length day =? 10)%nat then Some (substring 0 4 day ++ "-26")%string else None.

(** The division without rounding, which is the division of Python
    wherever the quotient is a float: those of the sample, 22 / 1 and
    6 / 1, are. *)
Definition exact_div (a b : Z) : option Q := Some (inject_Z a / inject_Z b).

End AggCases.

(** ** app/services/pdf_form_filler.py

    The form is what the canvas is told to draw: the calls made on it, in
    order. *)

Module Pdf.

Inductive Op : Type :=
| SetFont (name : string) (size : Z)
| DrawString (x y : Z) (text : string)
| ShowPage
| Save.

(** One entry of [order_data["items"]]. *)
Record Item : Type := {
  item_sku : string;
  item_quantity : Z;
  item_price : Q
}.

(** [order_data]: a key may be missing. *)
Record Delivery : Type := {
  delivery_address : option string;
  delivery_date : option string
}.

Record OrderData : Type := {
  customer_name : option string;
  delivery_details : option Delivery;
  items : option (list Item);
  notes : option string
}.

(** [d.get(key, default)] on a key that may be missing. *)
Definition get_or {A : Type} (value : option A) (default : A) : A :=
  match value with
  | Some v => v
  | None => default
  end.

Section Form.
(** [f"{price:.2f}"] *)
Variable format_price : Q -> string.
(** The two readings of [datetime.now()]. *)
Variables now_number now_date : datetime.

Definition item_text (item : Item) : string :=
  item_sku item ++ " - " ++ PyStr.str_of_int (item_quantity item)
  ++ " units @ $" ++ format_price (item_price item) ++ " each".

(** The loop over the items, from the position [y_position]: the calls it
    makes and the position it ends at. *)
Fixpoint draw_items (items : list Item) (y_position : Z) : list Op * Z :=
  match items with
  | [] => ([], y_position)
  | item :: items' =>
      let drawn := DrawString 70 y_position (item_text item) in
      let y_position := (y_position - 20)%Z in
      if (y_position <? 50)%Z then
        let '(ops, y_end) := draw_items items' 750%Z in
        (drawn :: ShowPage :: ops, y_end)
      else
        let '(ops, y_end) := draw_items items' y_position in
        (drawn :: ops, y_end)
  end.

(** [fill_form], as the calls on the canvas. *)
Definition fill_form (order_data : OrderData) : list Op :=
  let delivery := get_or (delivery_details order_data)
                         {| delivery_address := None; delivery_date := None |} in
  [ SetFont "Helvetica-Bold" 16;
    DrawString 50 750 "SALES ORDER";
    SetFont "Helvetica" 12;
    DrawString 200 700 ("SO-" ++ strftime_compact now_number);
    DrawString 200 680 (strftime_iso now_date);
    DrawString 200 650 (get_or (customer_name order_data) "N/A");
    DrawString 200 620 (get_or (delivery_address delivery) "N/A");
    DrawString 200 590 (get_or (delivery_date delivery) "N/A");
    DrawString 50 560 "Items:" ]
  ++ fst (draw_items (get_or (items order_data) []) 540%Z)
  ++ (match notes order_data with
      | Some text =>
          if PyStr.truthy text then
            [ ShowPage;
              SetFont "Helvetica-Bold" 12;
              DrawString 50 750 "Additional Notes:";
              SetFont "Helvetica" 12;
              DrawString 50 730 text ]
          else []
      | None => []
      end)
  ++ [Save].
End Form.

(** Where each string lands: the page (from 0) the canvas is on when the
    call is made, and the position. *)
Fixpoint placements (page : Z) (ops : list Op) : list (Z * Z * Z * string) :=
  match ops with
  | [] => []
  | DrawString x y text :: ops' => (page, x, y, text) :: placements page ops'
  | ShowPage :: ops' => placements (page + 1)%Z ops'
  | _ :: ops' => placements page ops'
  end.

(** The page the canvas is on after a run of calls. *)
Fixpoint page_after (page : Z) (ops : list Op) : Z :=
  match ops with
  | [] => page
  | ShowPage :: ops' => page_after (page + 1)%Z ops'
  | _ :: ops' => page_after page ops'
  end.

(** The page and the height of the item line number [k] (from 0): 25 lines
    on the first page, under the header, and 36 on each further page. *)
Definition page_of_item (k : Z) : Z :=
  if (k <? 25)%Z then 0%Z else (1 + (k - 25) / 36)%Z.

Definition height_of_item (k : Z) : Z :=
  if (k <? 25)%Z then (540 - 20 * k)%Z else (750 - 20 * ((k - 25) mod 36))%Z.

(** The item lines as they are to land, from the line number [k] on. *)
Fixpoint item_placements (text_of : Item -> string) (k : Z) (items : list Item)
  : list (Z * Z * Z * string) :=
  match items with
  | [] => []
  | item :: items' =>
      (page_of_item k, 70%Z, height_of_item k, text_of item)
        :: item_placements text_of (k + 1)%Z items'
  end.

End Pdf.

Import PyStr Spec.

(** * Properties *)

Lemma prefix_nil (s : string) : prefix "" s = true.
Proof. destruct s; reflexivity. Qed.

(** ** Validation *)

Lemma moq_issue_kind q p :
  is_moq_issue (EP.moq_issue q p) = true /\ is_stock_issue (EP.moq_issue q p) = false.
Proof. split; [cbn; apply prefix_nil | reflexivity]. Qed.

Lemma stock_issue_kind q p :
  is_stock_issue (EP.stock_issue q p) = true /\ is_moq_issue (EP.stock_issue q p) = false.
Proof. split; [cbn; apply prefix_nil | reflexivity]. Qed.

Lemma moq_is_not_stock q p q' p' : EP.moq_issue q p <> EP.stock_issue q' p'.
Proof. discriminate. Qed.

(** C3. For a product of the catalog, [validate_against_catalog] reports the
    below-MOQ issue exactly when the quantity is less than the minimum order
    quantity, and the exceeds-stock issue exactly when it is more than the
    available stock, each on its own, so that both can be there; it answers
    valid exactly when the issue list is empty.  For an absent product it
    answers invalid with "Product not found in catalog" and with no MOQ or
    stock issue. *)
Theorem C3_validate_issues :
  forall (cat : list Row) (p : Row) (q : Z),
    (let '(is_valid, issues, _) := EP.validate_against_catalog cat (Some p) q in
     (In (EP.moq_issue q p) issues <-> (q < Min_Order_Quantity p)%Z) /\
     (existsb is_moq_issue issues = true <-> (q < Min_Order_Quantity p)%Z) /\
     (In (EP.stock_issue q p) issues <-> (q > Available_in_Stock p)%Z) /\
     (existsb is_stock_issue issues = true <-> (q > Available_in_Stock p)%Z) /\
     (is_valid = true <-> issues = [])) /\
    (let '(is_valid, issues, _) := EP.validate_against_catalog cat None q in
     is_valid = false /\ In not_found_issue issues /\
     existsb is_moq_issue issues = false /\
     existsb is_stock_issue issues = false).
Proof.
  intros cat p q. split.
  - pose proof (moq_issue_kind q p) as [Hmm Hms].
    pose proof (stock_issue_kind q p) as [Hss Hsm].
    pose proof (moq_is_not_stock q p q p) as Hne.
    unfold EP.validate_against_catalog.
    destruct (q <? Min_Order_Quantity p)%Z eqn:Hm;
      destruct (q >? Available_in_Stock p)%Z eqn:Hs;
      cbn -[EP.moq_issue EP.stock_issue is_moq_issue is_stock_issue];
      rewrite ?Hmm, ?Hms, ?Hss, ?Hsm; cbn.
    all: rewrite ?Z.ltb_lt, ?Z.ltb_ge in Hm.
    all: rewrite Z.gtb_ltb in Hs; rewrite ?Z.ltb_lt, ?Z.ltb_ge in Hs.
    all: repeat split; intros; try lia; try discriminate; auto.
    all: try (exfalso; intuition congruence).
  - cbn. repeat split. now left.
Qed.

(** ** Close matches *)

Lemma string_lt_cotrans (a h b : string) :
  String.ltb a b = true -> String.ltb a h = true \/ String.ltb h b = true.
Proof.
  unfold String.ltb. intros Hab.
  destruct (String.compare a h) eqn:Hah; auto.
  - apply String_as_OT.cmp_eq in Hah. subst h. now right.
  - right.
    destruct (String.compare a b) eqn:Hab'; try discriminate.
    apply String_as_OT.cmp_lt in Hab'.
    assert (Hha : String_as_OT.cmp h a = Lt).
    { unfold String_as_OT.cmp. rewrite String.compare_antisym, Hah. reflexivity. }
    apply String_as_OT.cmp_lt in Hha.
    pose proof (String_as_OT.lt_trans _ _ _ Hha Hab') as Hhb.
    apply String_as_OT.cmp_lt in Hhb. unfold String_as_OT.cmp in Hhb.
    now rewrite Hhb.
Qed.

Lemma string_ltb_irrefl (s : string) : String.ltb s s = false.
Proof.
  unfold String.ltb.
  assert (H : String_as_OT.cmp s s = Eq) by now apply String_as_OT.cmp_eq.
  unfold String_as_OT.cmp in H. now rewrite H.
Qed.

Lemma scored_ltb_cotrans (p h q : Q * string) :
  Difflib.scored_ltb p h = false -> Difflib.scored_ltb h q = false ->
  Difflib.scored_ltb p q = false.
Proof.
  unfold Difflib.scored_ltb.
  destruct p as [p1 p2], h as [h1 h2], q as [q1 q2]; cbn [fst snd].
  destruct (Qcompare_spec p1 h1) as [E1|L1|G1]; try discriminate;
    destruct (Qcompare_spec h1 q1) as [E2|L2|G2]; try discriminate;
    intros H1 H2.
  - destruct (Qcompare_spec p1 q1) as [E3|L3|G3]; auto.
    + destruct (String.ltb p2 q2) eqn:Hpq; auto.
      destruct (string_lt_cotrans p2 h2 q2 Hpq); congruence.
    + rewrite E1, E2 in L3. now apply Qlt_irrefl in L3.
  - destruct (Qcompare_spec p1 q1) as [E3|L3|G3]; auto.
    + rewrite E1 in E3. rewrite E3 in G2. now apply Qlt_irrefl in G2.
    + rewrite E1 in L3. exfalso. apply (Qlt_irrefl q1). now apply Qlt_trans with h1.
  - destruct (Qcompare_spec p1 q1) as [E3|L3|G3]; auto.
    + rewrite <- E2 in E3. rewrite E3 in G1. now apply Qlt_irrefl in G1.
    + rewrite <- E2 in L3. exfalso. apply (Qlt_irrefl h1). now apply Qlt_trans with p1.
  - destruct (Qcompare_spec p1 q1) as [E3|L3|G3]; auto.
    + exfalso. rewrite E3 in G1. apply (Qlt_irrefl q1). now apply Qlt_trans with h1.
    + exfalso. apply (Qlt_irrefl q1). apply Qlt_trans with h1; auto. now apply Qlt_trans with p1.
Qed.

Lemma insert_desc_in p q l : In q (Difflib.insert_desc p l) <-> q = p \/ In q l.
Proof.
  induction l as [|h l IH]; cbn.
  - intuition.
  - destruct (Difflib.scored_ltb p h); cbn; rewrite ?IH; intuition.
Qed.

Lemma sort_desc_in q l : In q (fold_right Difflib.insert_desc [] l) <-> In q l.
Proof.
  induction l as [|h l IH]; cbn; [tauto|].
  rewrite insert_desc_in, IH. intuition.
Qed.

(** The head of the sorted list is a greatest element. *)
Lemma sort_desc_head (l : list (Q * string)) :
  match fold_right Difflib.insert_desc [] l with
  | [] => l = []
  | p :: _ => In p l /\ forall q, In q l -> Difflib.scored_ltb p q = false
  end.
Proof.
  induction l as [|h l IH]; cbn; [reflexivity|].
  destruct (fold_right Difflib.insert_desc [] l) as [|m s] eqn:Hs.
  - subst l. cbn. split; [now left|].
    intros q [<-|[]]. unfold Difflib.scored_ltb.
    destruct (Qcompare_spec (fst h) (fst h)) as [_|L|L]; try (now apply Qlt_irrefl in L).
    apply string_ltb_irrefl.
  - destruct IH as [Hin Hmax]. cbn.
    destruct (Difflib.scored_ltb h m) eqn:Hhm.
    + split; [now right|]. intros q [<-|Hq]; auto.
      unfold Difflib.scored_ltb in *.
      rewrite <- Qcompare_antisym. 
      destruct (Qcompare_spec (fst h) (fst m)) as [E|L|G]; cbn; try discriminate; auto.
      unfold String.ltb in *. rewrite String.compare_antisym.
      destruct (String.compare (snd h) (snd m)); cbn; try discriminate; auto.
    + split; [now left|]. intros q [<-|Hq].
      * unfold Difflib.scored_ltb.
        destruct (Qcompare_spec (fst h) (fst h)) as [_|L|L]; try (now apply Qlt_irrefl in L).
        apply string_ltb_irrefl.
      * apply scored_ltb_cotrans with m; auto.
Qed.

Lemma string_not_ltb_leb (a b : string) : String.ltb a b = false -> String.leb b a = true.
Proof.
  unfold String.ltb, String.leb. rewrite (String.compare_antisym b a).
  destruct (String.compare a b); cbn; congruence.
Qed.

Lemma scored_in_result (sim : string -> string -> Q) (word : string) (c : Q) ps p :
  In p (flat_map (fun x => if Qle_bool c (sim x word) then [(sim x word, x)] else []) ps)
  <-> exists x, In x ps /\ c <= sim x word /\ p = (sim x word, x).
Proof.
  rewrite in_flat_map. split.
  - intros (x & Hx & Hp). exists x. destruct (Qle_bool c (sim x word)) eqn:Hc.
    + destruct Hp as [<-|[]]. apply Qle_bool_iff in Hc. auto.
    + destruct Hp.
  - intros (x & Hx & Hc & ->). exists x. split; auto.
    apply Qle_bool_iff in Hc. rewrite Hc. now left.
Qed.

(** [get_close_matches(word, possibilities, n=1, cutoff)] is empty when no
    possibility reaches the cutoff, and is the best match alone otherwise. *)
Lemma close_match_one (sim : string -> string -> Q) word ps c :
  match Difflib.get_close_matches sim word ps 1 c with
  | [] => forall x, In x ps -> sim x word < c
  | m :: others => others = [] /\ Spec.best_match sim word ps c m
  end.
Proof.
  unfold Difflib.get_close_matches, Difflib.nlargest.
  set (result := flat_map _ ps).
  pose proof (sort_desc_head result) as Hhead.
  destruct (fold_right Difflib.insert_desc [] result) as [|p s] eqn:Hs.
  - cbn. intros x Hx. apply Qnot_le_lt. intros Hc.
    assert (Hin : In (sim x word, x) result).
    { apply scored_in_result. eauto. }
    rewrite Hhead in Hin. destruct Hin.
  - cbn. destruct Hhead as [Hin Hmax]. split; [reflexivity|].
    apply scored_in_result in Hin. destruct Hin as (m & Hm & Hc & ->). cbn.
    split; [assumption|]. split; [assumption|].
    intros x Hx Hxc.
    assert (Hlt : Difflib.scored_ltb (sim m word, m) (sim x word, x) = false).
    { apply Hmax. apply scored_in_result. eauto. }
    unfold Difflib.scored_ltb in Hlt. cbn [fst snd] in Hlt.
    destruct (Qcompare_spec (sim m word) (sim x word)) as [E|L|G]; try discriminate.
    + right. split; [now symmetry|]. now apply string_not_ltb_leb.
    + now left.
Qed.


Lemma best_match_unique (sim : string -> string -> Q) word ps c m m' :
  best_match sim word ps c m -> best_match sim word ps c m' -> m = m'.
Proof.
  intros (Hin & Hc & Hmax) (Hin' & Hc' & Hmax').
  destruct (Hmax m' Hin' Hc') as [L|[E Hle]];
    destruct (Hmax' m Hin Hc) as [L'|[E' Hle']].
  - exfalso. apply (Qlt_irrefl (sim m word)). now apply Qlt_trans with (sim m' word).
  - exfalso. rewrite E' in L. now apply Qlt_irrefl in L.
  - exfalso. rewrite E in L'. now apply Qlt_irrefl in L'.
  - now apply String.leb_antisym.
Qed.

Lemma filter_head_find {A : Type} (f : A -> bool) (l : list A) :
  match filter f l with
  | r :: _ => Some r
  | [] => None
  end = find f l.
Proof.
  induction l as [|a l IH]; cbn; [reflexivity|].
  destruct (f a); auto.
Qed.

Lemma candidate_has_owner (cat : list Row) (m : string) :
  In m (map Product_Name cat ++ map Product_Code cat) ->
  exists r, find (owns m) cat = Some r.
Proof.
  intros Hin.
  destruct (find (owns m) cat) as [r|] eqn:Hf; [eauto|].
  exfalso. apply in_app_or in Hin.
  destruct Hin as [Hin|Hin]; apply in_map_iff in Hin; destruct Hin as (r & <- & Hr);
    pose proof (find_none _ _ Hf r Hr) as Hno; unfold owns in Hno;
    rewrite String.eqb_refl in Hno; cbn in Hno; try discriminate.
  now rewrite orb_true_r in Hno.
Qed.


(** ** Digit runs and trimming *)

Lemma search_digits_none (line : string) :
  Re.search_digits line = None <-> all_chars (fun c => negb (isdigit c)) line = true.
Proof.
  induction line as [|c line IH]; cbn; [tauto|].
  destruct (isdigit c); cbn; [split; discriminate | exact IH].
Qed.

Lemma digit_run_spec (s : string) :
  exists post, s = (Re.digit_run s ++ post)%string
               /\ all_chars isdigit (Re.digit_run s) = true
               /\ starts_with isdigit post = false.
Proof.
  induction s as [|c s (post & Hs & Hall & Hpost)]; cbn.
  - exists EmptyString. auto.
  - destruct (isdigit c) eqn:Hc; cbn.
    + exists post. rewrite Hc. cbn. repeat split; auto. congruence.
    + exists (String c s). cbn. auto.
Qed.

(** The match of [\d+] is the first maximal run of digits of the line. *)
Lemma search_digits_some (line run : string) :
  Re.search_digits line = Some run ->
  exists pre post,
    line = (pre ++ run ++ post)%string
    /\ all_chars (fun c => negb (isdigit c)) pre = true
    /\ run <> EmptyString /\ all_chars isdigit run = true
    /\ starts_with isdigit post = false.
Proof.
  induction line as [|c line IH]; cbn; [discriminate|].
  destruct (isdigit c) eqn:Hc.
  - intros [= <-].
    destruct (digit_run_spec line) as (post & Hs & Hall & Hpost).
    exists EmptyString, post. cbn. rewrite Hc. cbn.
    repeat split; auto; congruence.
  - intros H. destruct (IH H) as (pre & post & -> & Hpre & Hne & Hall & Hpost).
    exists (String c pre), post. cbn. rewrite Hc. cbn. auto.
Qed.


Lemma lstrip_by_spec (p : ascii -> bool) (s : string) :
  exists l, s = (l ++ lstrip_by p s)%string /\ all_chars p l = true
            /\ starts_with p (lstrip_by p s) = false.
Proof.
  induction s as [|c s (l & Hs & Hl & Hst)]; cbn.
  - exists EmptyString. auto.
  - destruct (p c) eqn:Hc.
    + exists (String c l). cbn. rewrite Hc. repeat split; auto. congruence.
    + exists EmptyString. cbn. auto.
Qed.

Lemma rstrip_by_spec (p : ascii -> bool) (s : string) :
  exists r, s = (rstrip_by p s ++ r)%string /\ all_chars p r = true
            /\ ends_with p (rstrip_by p s) = false
            /\ (starts_with p s = false -> starts_with p (rstrip_by p s) = false).
Proof.
  induction s as [|c s (r & Hs & Hr & Hend & Hst)]; cbn.
  - exists EmptyString. auto.
  - destruct (rstrip_by p s) as [|d t] eqn:Ht.
    + destruct (p c) eqn:Hc.
      * exists (String c r). cbn in *. rewrite Hc. repeat split; auto; congruence.
      * exists r. cbn in *. repeat split; auto; congruence.
    + exists r. cbn in *. repeat split; auto; try congruence.
Qed.

(** What [strip] leaves is the string without a run of strippable
    characters at each end. *)
Lemma strip_by_spec (p : ascii -> bool) (s : string) :
  exists l r, s = (l ++ strip_by p s ++ r)%string
              /\ all_chars p l = true /\ all_chars p r = true
              /\ starts_with p (strip_by p s) = false
              /\ ends_with p (strip_by p s) = false.
Proof.
  unfold strip_by.
  destruct (lstrip_by_spec p s) as (l & Hs & Hl & Hst).
  destruct (rstrip_by_spec p (lstrip_by p s)) as (r & Hs' & Hr & Hend & Hst').
  exists l, r. rewrite <- Hs'. repeat split; auto.
Qed.

(** ** The product-line extractor *)

Lemma extract_line_app sim cat results line :
  EP.extract_line sim cat results line = results ++ EP.extract_line sim cat [] line.
Proof.
  unfold EP.extract_line.
  destruct (Re.search_digits line); [|now rewrite app_nil_r].
  destruct (Difflib.get_close_matches _ _ _ _ _) as [|best0 ?];
    match goal with |- context [EP.is_non_product ?n] => destruct (EP.is_non_product n) end;
    now rewrite ?app_nil_r.
Qed.

Lemma extract_lines_flat_map sim cat lines results :
  fold_left (EP.extract_line sim cat) lines results
  = results ++ flat_map (EP.extract_line sim cat []) lines.
Proof.
  revert results. induction lines as [|line lines IH]; intros results; cbn.
  - now rewrite app_nil_r.
  - rewrite IH, (extract_line_app sim cat results line), <- app_assoc. reflexivity.
Qed.

Lemma find_product_by_name sim (cat : list Row) (phrase : string) (r : Row) :
  find (name_is phrase) cat = Some r -> EP.find_product sim cat phrase = Some r.
Proof.
  intros Hf. unfold EP.find_product.
  pose proof (filter_head_find (name_is phrase) cat) as Hn.
  unfold name_is in Hn at 1. rewrite Hf in Hn.
  destruct (filter _ cat); congruence.
Qed.

(** A catalog name resolves to the first row that bears it up to case. *)
Lemma find_product_of_name sim (cat : list Row) (m : string) :
  In m (map Product_Name cat) ->
  exists r, find (name_is m) cat = Some r /\ EP.find_product sim cat m = Some r.
Proof.
  intros Hin. apply in_map_iff in Hin. destruct Hin as (r0 & Hname & Hr0).
  destruct (find (name_is m) cat) as [r|] eqn:Hf.
  - exists r. split; [reflexivity|]. now apply find_product_by_name.
  - exfalso. pose proof (find_none _ _ Hf r0 Hr0) as Hno.
    unfold name_is in Hno. rewrite Hname, String.eqb_refl in Hno. discriminate.
Qed.

(** What the loop body appends for a line with a digit run, by the outcome
    of the fuzzy match of its candidate phrase. *)
Lemma extract_line_matched sim (cat : list Row) (line run m : string) :
  Re.search_digits line = Some run ->
  best_match sim (strip_chars " -:x*.," (Re.sub_digits line))
             (map Product_Name cat) (3#5) m ->
  exists r, find (name_is m) cat = Some r
            /\ EP.extract_line sim cat [] line
               = if EP.is_non_product m then []
                 else [(Some r, int_of_digits run, 1, m)].
Proof.
  intros Hrun Hbest. unfold EP.extract_line. rewrite Hrun.
  pose proof (close_match_one sim (strip_chars " -:x*.," (Re.sub_digits line))
                              (map Product_Name cat) (3#5)) as Hcm.
  destruct (Difflib.get_close_matches _ _ _ _ _) as [|m0 others].
  - exfalso. destruct Hbest as (Hin & Hge & _).
    apply (Qlt_irrefl (3#5)). apply Qle_lt_trans with (1 := Hge). auto.
  - destruct Hcm as [_ Hbest0].
    rewrite <- (best_match_unique _ _ _ _ _ _ Hbest Hbest0).
    destruct Hbest as (Hin & _).
    destruct (find_product_of_name sim cat m Hin) as (r & Hr & Hfp).
    exists r. split; [assumption|]. rewrite Hfp.
    destruct (EP.is_non_product m); reflexivity.
Qed.



(** C10. The noise filter looks at the matched catalog name, not at the
    text of the line: a line whose best catalog match contains a noise term
    is dropped although it matched with confidence 1.0, and a line whose
    best catalog match is free of noise terms is kept, whatever its own text
    contains. *)
Theorem C10_noise_filter_on_matched_name :
  forall (sim : string -> string -> Q) (cat : list Row) (line run m : string),
    Re.search_digits line = Some run ->
    best_match sim (strip_chars " -:x*.," (Re.sub_digits line))
               (map Product_Name cat) (3#5) m ->
    (EP.is_non_product m = true -> EP.extract_line sim cat [] line = [])
    /\ (EP.is_non_product m = false ->
        exists r, find (name_is m) cat = Some r
                  /\ EP.extract_line sim cat [] line
                     = [(Some r, int_of_digits run, 1, m)]
                  /\ forall text, In line (splitlines text) ->
                                  In (Some r, int_of_digits run, 1, m)
                                     (EP.extract_products_and_quantities sim cat text)).
Proof.
  intros sim cat line run m Hrun Hbest.
  destruct (extract_line_matched sim cat line run m Hrun Hbest) as (r & Hr & Hline).
  split; intros Hnoise; rewrite Hnoise in Hline; [assumption|].
  exists r. split; [assumption|]. split; [assumption|].
  intros text Hin. unfold EP.extract_products_and_quantities.
  rewrite extract_lines_flat_map. cbn. apply in_flat_map.
  exists line. split; [assumption|]. rewrite Hline. now left.
Qed.

Ltac evaluated_best_match :=
  unfold best_match;
  split; [cbn; tauto |];
  split; [vm_compute; discriminate |];
  let x := fresh "x" in
  let Hx := fresh "Hx" in
  intros x Hx _; cbn in Hx;
  repeat (destruct Hx as [<- | Hx]);
  try contradiction;
  first [ left; vm_compute; reflexivity
        | right; split; vm_compute; reflexivity ].

Lemma C10_noise_filter_witness :
  (EP.is_non_product "10 Desk Lamp before" = true
   /\ EP.is_non_product "Desk Lamp" = false
   /\ exists r, find (name_is "Desk Lamp") Sample.catalog = Some r
                /\ EP.extract_line Difflib.ratio Sample.catalog [] "10 Desk Lamp before"
                   = [(Some r, 10%Z, 1, "Desk Lamp")])
  /\ (EP.is_non_product "Japan Tea Set" = true
      /\ EP.extract_line Difflib.ratio Sample.catalog [] "5 x Japan Tea Set" = []).
Proof.
  split.
  - split; [reflexivity|]. split; [reflexivity|].
    destruct (C10_noise_filter_on_matched_name Difflib.ratio Sample.catalog
                "10 Desk Lamp before" "10" "Desk Lamp") as [_ Hkept].
    + reflexivity.
    + evaluated_best_match.
    + destruct (Hkept eq_refl) as (r & Hr & Hline & _).
      exists r. split; assumption.
  - split; [reflexivity|].
    apply (C10_noise_filter_on_matched_name Difflib.ratio Sample.catalog
             "5 x Japan Tea Set" "5" "Japan Tea Set").
    + reflexivity.
    + evaluated_best_match.
    + reflexivity.
Defined.

(** ** The assembler *)

(** The extractor assigns the confidence 1.0 with a product, or 0.5 without. *)
Lemma extract_line_confidence sim cat line entry :
  In entry (EP.extract_line sim cat [] line) ->
  (confidence_of entry = 1 /\ exists nm, In nm (map Product_Name cat)
                                         /\ product_of entry = EP.find_product sim cat nm)
  \/ (confidence_of entry = 1#2 /\ product_of entry = None).
Proof.
  unfold EP.extract_line.
  destruct (Re.search_digits line) as [run|]; [|intros []].
  pose proof (close_match_one sim (strip_chars " -:x*.," (Re.sub_digits line))
                              (map Product_Name cat) (3#5)) as Hcm.
  destruct (Difflib.get_close_matches _ _ _ _ _) as [|m0 others];
    match goal with |- context [EP.is_non_product ?n] => destruct (EP.is_non_product n) end;
    cbn; intros H; try contradiction; destruct H as [<-|[]]; cbn.
  - right. auto.
  - left. split; [reflexivity|]. exists m0. split; [apply Hcm | reflexivity].
Qed.

Lemma extracted_confidence sim cat text entry :
  In entry (EP.extract_products_and_quantities sim cat text) ->
  (confidence_of entry = 1 /\ exists nm, In nm (map Product_Name cat)
                                         /\ product_of entry = EP.find_product sim cat nm)
  \/ (confidence_of entry = 1#2 /\ product_of entry = None).
Proof.
  unfold EP.extract_products_and_quantities. rewrite extract_lines_flat_map. cbn.
  rewrite in_flat_map. intros (line & _ & Hin).
  now apply extract_line_confidence with line.
Qed.

(** Every surviving entry has confidence 1.0 and a product. *)
Lemma surviving_entry sim cat text entry :
  In entry (surviving (EP.extract_products_and_quantities sim cat text)) ->
  In entry (EP.extract_products_and_quantities sim cat text)
  /\ confidence_of entry = 1 /\ exists p, product_of entry = Some p.
Proof.
  unfold surviving. rewrite filter_In. intros [Hin Hge]. split; [assumption|].
  destruct (extracted_confidence _ _ _ _ Hin) as [[Hc (nm & Hnm & Hp)]|[Hc _]].
  - split; [assumption|].
    destruct (find_product_of_name sim cat nm Hnm) as (r & _ & Hr).
    exists r. congruence.
  - rewrite Hc in Hge. discriminate.
Qed.

(** The item loop never raises on confidences within [0, 1]; it appends one
    item per entry and adds the confidences up from the left. *)
Lemma build_items_ok (cat : list Row) (entries : list Extracted) :
  Forall (fun entry => Pydantic.in_unit_interval (confidence_of entry) = true) entries ->
  forall order_items total,
    EP.build_items cat entries order_items total
    = Ok (order_items ++ map (item_for cat) entries,
          fold_left Qplus (map confidence_of entries) total).
Proof.
  induction 1 as [|entry entries Hc _ IH]; intros order_items total; cbn.
  - now rewrite app_nil_r.
  - destruct entry as [[[product qty] confidence] extracted_name].
    unfold confidence_of in Hc. cbn in Hc.
    unfold item_for.
    destruct (EP.validate_against_catalog cat product qty) as [[is_valid issues] suggestions].
    unfold Pydantic.OrderItem_init. rewrite Hc. cbn [bind].
    rewrite IH, <- app_assoc. reflexivity.
Qed.

Lemma fold_left_Qplus (l : list Q) (total : Q) :
  fold_left Qplus l total == total + fold_right Qplus 0 l.
Proof.
  revert total. induction l as [|q l IH]; intros total; cbn.
  - now rewrite Qplus_0_r.
  - rewrite IH. now rewrite Qplus_assoc.
Qed.

Lemma sum_of_ones (l : list Q) :
  Forall (fun q => q = 1) l ->
  fold_right Qplus 0 l == inject_Z (Z.of_nat (length l)).
Proof.
  induction 1 as [|q l -> _ IH].
  - reflexivity.
  - cbn [fold_right length]. rewrite IH, Nat2Z.inj_succ.
    unfold Z.succ. rewrite inject_Z_plus. now rewrite Qplus_comm.
Qed.

Lemma mean_of_ones (l : list Q) :
  l <> [] -> Forall (fun q => q = 1) l -> mean l == 1.
Proof.
  intros Hne Hall. destruct l as [|q l]; [congruence|].
  unfold mean. rewrite (sum_of_ones _ Hall).
  apply Qmult_inv_r. intros H.
  cbn [length] in H. rewrite Nat2Z.inj_succ in H.
  unfold Qeq in H. cbn in H. lia.
Qed.

Lemma item_for_confidence cat entry :
  confidence_score (item_for cat entry) = confidence_of entry.
Proof.
  destruct entry as [[[product qty] confidence] extracted_name]. unfold item_for.
  destruct (EP.validate_against_catalog cat product qty) as [[? ?] ?]. reflexivity.
Qed.

Lemma item_for_built_from cat entry : built_from (item_for cat entry) entry.
Proof.
  destruct entry as [[[product qty] confidence] extracted_name].
  unfold item_for, built_from.
  destruct (EP.validate_against_catalog cat product qty) as [[? ?] ?]. cbn. auto.
Qed.

(** The average the assembler computes over its items is their mean, and
    it passes the bound check of the [Order] model. *)
Lemma average_of_items (cat : list Row) (entries : list Extracted) :
  Forall (fun entry => confidence_of entry = 1) entries ->
  let order_items := map (item_for cat) entries in
  let avg := match order_items with
             | [] => 0
             | _ :: _ => fold_left Qplus (map confidence_of entries) 0
                         / inject_Z (Z.of_nat (length order_items))
             end in
  avg == mean (map confidence_score order_items)
  /\ Pydantic.in_unit_interval avg = true.
Proof.
  intros Hsurv order_items avg.
  assert (Hconf : map confidence_score order_items = map confidence_of entries).
  { unfold order_items. rewrite map_map. apply map_ext. apply item_for_confidence. }
  assert (Hmean : avg == mean (map confidence_score order_items)).
  { unfold avg, mean. rewrite Hconf. unfold order_items.
    destruct entries as [|e es]; [reflexivity|].
    cbn [map]. rewrite fold_left_Qplus, Qplus_0_l.
    cbn [length]. rewrite !length_map. reflexivity. }
  split; [assumption|].
  destruct entries as [|e es]; [reflexivity|].
  assert (H1 : avg == 1).
  { rewrite Hmean. apply mean_of_ones; [discriminate|].
    rewrite Hconf. now apply Forall_map. }
  unfold Pydantic.in_unit_interval. rewrite H1. reflexivity.
Qed.

(** What [process_email] returns: it does return, and the order is made of
    the items of the surviving entries. *)
Lemma process_email_ok sim dp sd now cat email :
  let order_items :=
    map (item_for cat)
        (surviving (EP.extract_products_and_quantities sim cat (raw_content email))) in
  exists avg,
    avg == mean (map confidence_score order_items)
    /\ (order_items = [] -> avg = 0)
    /\ EP.process_email sim dp sd now cat email
       = Ok {| order_id :=
                 "ORD-" ++ match received_at email with
                           | Some d => strftime_compact d
                           | None => "TEMP"
                           end;
               customer_email :=
                 match sender email with
                 | Some s => if truthy s then s else "unknown@email.com"
                 | None => "unknown@email.com"
                 end;
               items := order_items;
               delivery_preferences := None;
               created_at := now;
               status := "pending";
               total_confidence_score := avg;
               order_validation_issues := Some (EP.collect_issues order_items) |}.
Proof.
  intros order_items.
  assert (Hsurv : Forall (fun entry => confidence_of entry = 1)
                         (surviving (EP.extract_products_and_quantities
                                       sim cat (raw_content email)))).
  { apply Forall_forall. intros entry Hin.
    now apply (surviving_entry sim cat (raw_content email) entry). }
  unfold EP.process_email.
  change (filter _ (EP.extract_products_and_quantities sim cat (raw_content email)))
    with (surviving (EP.extract_products_and_quantities sim cat (raw_content email))).
  revert order_items Hsurv.
  generalize (surviving (EP.extract_products_and_quantities sim cat (raw_content email))).
  intros entries order_items Hsurv.
  assert (Hunit : Forall (fun entry => Pydantic.in_unit_interval (confidence_of entry) = true) entries).
  { eapply Forall_impl; [|exact Hsurv]. intros entry ->. reflexivity. }
  destruct (average_of_items cat entries Hsurv) as [Hmean Havg].
  fold order_items in Hmean, Havg.
  rewrite (build_items_ok cat entries Hunit). cbn [bind app].
  fold order_items.
  set (avg := match order_items with
              | [] => 0
              | _ :: _ => _
              end) in *.
  exists avg. split; [assumption|]. split.
  { intros H. unfold avg. now rewrite H. }
  unfold Pydantic.Order_init, Pydantic.required_str, Pydantic.required_items,
    Pydantic.optional_str, Pydantic.defaulted_datetime, Pydantic.defaulted_str,
    Pydantic.required_unit_float, Pydantic.optional_str_list.
  cbn [Pydantic.kwarg String.eqb Ascii.eqb Bool.eqb bind].
  rewrite Havg. reflexivity.
Qed.

Lemma matched_item_issues cat p qty confidence extracted_name issues :
  validation_issues (item_for cat (Some p, qty, confidence, extracted_name)) = Some issues ->
  ~ In not_found_issue issues.
Proof.
  unfold item_for, EP.validate_against_catalog.
  destruct (qty <? Min_Order_Quantity p)%Z; destruct (qty >? Available_in_Stock p)%Z;
    cbn -[EP.moq_issue EP.stock_issue];
    intros Hsome; try discriminate Hsome; injection Hsome as <-;
    intros H; repeat (destruct H as [H|H]; [discriminate H|]); exact H.
Qed.

(** C4. The order that [process_email] returns has, as aggregate confidence,
    the arithmetic mean of the confidences of its items, which are those of
    the entries that survived the 0.7 filter; without items it is exactly
    0. *)
Theorem C4_aggregate_confidence_is_mean :
  forall (sim : string -> string -> Q)
         (dateparser_parse : string -> option datetime)
         (search_dates : string -> option (list (string * datetime)))
         (now : datetime) (cat : list Row) (email : EmailContent),
  exists order,
    EP.process_email sim dateparser_parse search_dates now cat email = Ok order
    /\ map confidence_score (items order)
       = map confidence_of
             (surviving (EP.extract_products_and_quantities sim cat (raw_content email)))
    /\ total_confidence_score order == mean (map confidence_score (items order))
    /\ (items order = [] -> total_confidence_score order = 0).
Proof.
  intros sim dp sd now cat email.
  destruct (process_email_ok sim dp sd now cat email) as (avg & Hmean & Hzero & Hrun).
  eexists. split; [exact Hrun|]. cbn [items total_confidence_score].
  split; [|split; assumption].
  rewrite map_map. apply map_ext. apply item_for_confidence.
Qed.

(** C9. Every item of the order that [process_email] returns comes from an
    extracted entry whose confidence is 0.7 or more, so never from a
    0.5-confidence entry; and an item made from a catalog product does not
    have "Product not found in catalog" among its validation issues. *)
Theorem C9_items_from_confident_entries :
  forall (sim : string -> string -> Q)
         (dateparser_parse : string -> option datetime)
         (search_dates : string -> option (list (string * datetime)))
         (now : datetime) (cat : list Row) (email : EmailContent),
  exists order,
    EP.process_email sim dateparser_parse search_dates now cat email = Ok order
    /\ forall item, In item (items order) ->
         exists entry,
           In entry (EP.extract_products_and_quantities sim cat (raw_content email))
           /\ 7#10 <= confidence_of entry
           /\ built_from item entry
           /\ ~ confidence_score item == 1#2
           /\ (forall p, product_of entry = Some p ->
                 forall issues, validation_issues item = Some issues ->
                                ~ In not_found_issue issues).
Proof.
  intros sim dp sd now cat email.
  destruct (process_email_ok sim dp sd now cat email) as (avg & _ & _ & Hrun).
  eexists. split; [exact Hrun|]. cbn [items].
  intros item Hin. apply in_map_iff in Hin. destruct Hin as (entry & <- & Hentry).
  exists entry.
  destruct (surviving_entry sim cat _ entry Hentry) as (Hin & Hc & _).
  split; [assumption|]. split; [rewrite Hc; discriminate|].
  split; [apply item_for_built_from|].
  split; [rewrite item_for_confidence, Hc; discriminate|].
  intros p Hp issues. destruct entry as [[[product qty] confidence] extracted_name].
  unfold product_of in Hp. cbn in Hp. subst product.
  apply matched_item_issues.
Qed.

(** ** Delivery details *)

Lemma find_all_false {A : Type} (f : A -> bool) (l : list A) :
  (forall x, In x l -> f x = false) -> find f l = None.
Proof.
  induction l as [|a l IH]; cbn; intros H; [reflexivity|].
  rewrite (H a (or_introl eq_refl)). apply IH. intros x Hx. apply H. now right.
Qed.

Lemma stripped_lines_truthy (text line : string) :
  In line (EP.stripped_lines text) -> truthy line = true.
Proof.
  unfold EP.stripped_lines. rewrite in_map_iff.
  intros (raw & <- & Hraw). apply filter_In in Hraw. apply Hraw.
Qed.

Lemma truthy_append_nonempty (a b : string) :
  truthy b = true -> truthy (a ++ b) = true.
Proof. destruct a; cbn; auto. Qed.

(** Lines without an address keyword leave the scan as it was. *)
Lemma address_scan_skip (pre rest : list string) :
  (forall line, In line pre ->
                find (fun keyword => contains keyword (lower line)) EP.address_keywords = None) ->
  EP.address_scan None (pre ++ rest) = EP.address_scan None rest.
Proof.
  induction pre as [|line pre IH]; intros Hpre; [reflexivity|].
  cbn [app EP.address_scan].
  assert (Hat : EP.address_at None line (pre ++ rest) = None).
  { unfold EP.address_at. now rewrite (Hpre line (or_introl eq_refl)). }
  rewrite Hat. cbn [EP.is_set].
  apply IH. intros l Hl. apply Hpre. now right.
Qed.

(** The address that the first keyword line determines. *)
Lemma address_of_keyword_line dp sd (text : string) (pre : list string)
      (line : string) (rest : list string) (keyword : string) :
  EP.stripped_lines text = pre ++ line :: rest ->
  (forall l k, In l pre -> In k EP.address_keywords -> contains k (lower l) = false) ->
  find (fun k => contains k (lower line)) EP.address_keywords = Some keyword ->
  let after_colon := strip (split_colon_last line) in
  address (EP.extract_delivery_details dp sd text)
  = if truthy after_colon && negb (String.eqb (lower after_colon) keyword)
    then Some after_colon
    else match rest with
         | next_line :: following :: _ =>
             if Re.search_address following
             then Some (next_line ++ ", " ++ following)%string
             else Some next_line
         | [next_line] => Some next_line
         | [] => EP.address_fallback None (EP.stripped_lines text)
         end.
Proof.
  intros Hlines Hpre Hkw after_colon.
  assert (Hrest : forall l, In l rest -> truthy l = true).
  { intros l Hl. apply (stripped_lines_truthy text). rewrite Hlines.
    apply in_or_app. right. now right. }
  assert (Hscan :
            EP.address_scan None (EP.stripped_lines text)
            = if truthy after_colon && negb (lower after_colon =? keyword)%string
              then Some after_colon
              else match rest with
                   | next_line :: following :: _ =>
                       if Re.search_address following
                       then Some (next_line ++ ", " ++ following)%string
                       else Some next_line
                   | [next_line] => Some next_line
                   | [] => None
                   end).
  { rewrite Hlines, address_scan_skip.
    2:{ intros l Hl. apply find_all_false. intros k Hk. now apply Hpre. }
    cbn [EP.address_scan].
    assert (Hfound :
              EP.address_at None line rest
              = if truthy after_colon && negb (lower after_colon =? keyword)%string
                then Some after_colon
                else match rest with
                     | next_line :: following :: _ =>
                         if Re.search_address following
                         then Some (next_line ++ ", " ++ following)%string
                         else Some next_line
                     | [next_line] => Some next_line
                     | [] => None
                     end).
    { unfold EP.address_at. rewrite Hkw. fold after_colon.
      destruct (truthy after_colon && negb (lower after_colon =? keyword)%string);
        [reflexivity|].
      destruct rest as [|next_line [|following rest']]; reflexivity. }
    rewrite Hfound.
    destruct (truthy after_colon && negb (lower after_colon =? keyword)%string) eqn:Hok.
    - apply andb_prop in Hok. destruct Hok as [Ht _].
      cbn [EP.is_set]. now rewrite Ht.
    - destruct rest as [|next_line [|following rest']].
      + reflexivity.
      + cbn [EP.is_set]. now rewrite (Hrest next_line (or_introl eq_refl)).
      + destruct (Re.search_address following); cbn [EP.is_set].
        * now rewrite truthy_append_nonempty.
        * now rewrite (Hrest next_line (or_introl eq_refl)). }
  unfold EP.extract_delivery_details. cbn [address]. rewrite Hscan.
  destruct (truthy after_colon && negb (lower after_colon =? keyword)%string) eqn:Hok.
  - apply andb_prop in Hok. destruct Hok as [Ht _].
    cbn [EP.is_set]. now rewrite Ht.
  - destruct rest as [|next_line [|following rest']].
    + reflexivity.
    + cbn [EP.is_set]. now rewrite (Hrest next_line (or_introl eq_refl)).
    + destruct (Re.search_address following); cbn [EP.is_set].
      * now rewrite truthy_append_nonempty.
      * now rewrite (Hrest next_line (or_introl eq_refl)).
Qed.

(** C7, as amended. On the first line that contains an address keyword, the
    address is the text after the first colon of that line, or the whole
    line when it has no colon, stripped, if it is not empty and is not the
    keyword; otherwise it is the next line, joined by ", " to the line
    after it when that one matches an address token or has a comma; with
    no next line the fallback scan decides.  An input whose first keyword
    line is "Ship to: 123 Main Street, Springfield" yields the address
    "123 Main Street, Springfield". *)
Theorem C7_address_of_first_keyword_line :
  forall (dateparser_parse : string -> option datetime)
         (search_dates : string -> option (list (string * datetime)))
         (text : string) (pre : list string) (line : string)
         (rest : list string) (keyword : string),
    EP.stripped_lines text = pre ++ line :: rest ->
    (forall l k, In l pre -> In k EP.address_keywords -> contains k (lower l) = false) ->
    find (fun k => contains k (lower line)) EP.address_keywords = Some keyword ->
    let after_colon := strip match after_first ":"%char line with
                             | Some after => after
                             | None => line
                             end in
    address (EP.extract_delivery_details dateparser_parse search_dates text)
    = (if truthy after_colon && negb (String.eqb (lower after_colon) keyword)
       then Some after_colon
       else match rest with
            | next_line :: following :: _ =>
                if Re.search_address following
                then Some (next_line ++ ", " ++ following)%string
                else Some next_line
            | [next_line] => Some next_line
            | [] => EP.address_fallback None (EP.stripped_lines text)
            end)
    /\ (line = "Ship to: 123 Main Street, Springfield" ->
        address (EP.extract_delivery_details dateparser_parse search_dates text)
        = Some "123 Main Street, Springfield").
Proof.
  intros dp sd text pre line rest keyword Hlines Hpre Hkw after_colon.
  pose proof (address_of_keyword_line dp sd text pre line rest keyword Hlines Hpre Hkw)
    as Haddr.
  cbv zeta in Haddr. split; [exact Haddr|].
  intros ->. cbn in Hkw. injection Hkw as <-. rewrite Haddr. reflexivity.
Qed.

Lemma C7_address_witness :
  EP.stripped_lines ("Hello" ++ Sample.LF ++ "Ship to: 123 Main Street, Springfield"
                     ++ Sample.LF ++ "Thanks")
  = ["Hello"] ++ "Ship to: 123 Main Street, Springfield" :: ["Thanks"]
  /\ address (EP.extract_delivery_details Sample.no_parse Sample.no_search
               ("Hello" ++ Sample.LF ++ "Ship to: 123 Main Street, Springfield"
                ++ Sample.LF ++ "Thanks"))
     = Some "123 Main Street, Springfield".
Proof.
  split; [reflexivity|].
  apply (C7_address_of_first_keyword_line Sample.no_parse Sample.no_search
           ("Hello" ++ Sample.LF ++ "Ship to: 123 Main Street, Springfield"
            ++ Sample.LF ++ "Thanks")
           ["Hello"] "Ship to: 123 Main Street, Springfield" ["Thanks"] "ship to").
  - reflexivity.
  - intros l k [<-|[]] Hk. cbn in Hk.
    repeat (destruct Hk as [<-|Hk]; [reflexivity|]). contradiction.
  - reflexivity.
  - reflexivity.
Defined.

(** On a keyword line without a colon the code takes the line itself, where
    the rule as worded goes on to the next line. *)
Lemma C7_no_colon_counterexample :
  EP.stripped_lines Sample.no_colon_text
  = ["Please ship to our warehouse"; "42 Elm Road"]
  /\ find (fun k => contains k (lower "Please ship to our warehouse")) EP.address_keywords
     = Some "ship to"
  /\ worded_address_rule "ship to" "Please ship to our warehouse" ["42 Elm Road"]
     = Some "42 Elm Road"
  /\ address (EP.extract_delivery_details Sample.no_parse Sample.no_search
               Sample.no_colon_text)
     = Some "Please ship to our warehouse"
  /\ address (EP.extract_delivery_details Sample.no_parse Sample.no_search
               Sample.no_colon_text)
     <> worded_address_rule "ship to" "Please ship to our warehouse" ["42 Elm Road"].
Proof.
  repeat split; try reflexivity. vm_compute. discriminate.
Qed.

(** ** Catalog loading *)

Lemma getitem_spec (frame : DataFrame) (column : string) :
  match EP.getitem frame column with
  | Ok _ => In column (map fst frame)
  | Raise e => e = KeyError column /\ ~ In column (map fst frame)
  end.
Proof.
  induction frame as [|[header cells] frame IH]; cbn.
  - split; [reflexivity | tauto].
  - destruct (String.eqb_spec header column) as [->|Hne].
    + now left.
    + destruct (EP.getitem frame column).
      * now right.
      * destruct IH as [-> Hnot]. split; [reflexivity|]. intros [H|H]; auto.
Qed.

Lemma str_names_spec (cells : list Cell) :
  match EP.str_names cells with
  | Ok _ => forallb is_str cells = true
  | Raise e => forallb is_str cells = false /\ exists found, e = TypeError found
  end.
Proof.
  induction cells as [|c cells IH]; [reflexivity|].
  destruct c; cbn; try (split; [reflexivity | eexists; reflexivity]).
  destruct (EP.str_names cells); cbn; [exact IH|].
  exact IH.
Qed.

(** C6, as amended. Loading fails, with a [KeyError], when the source that
    was read has no product-name column.  The other columns are not looked
    at: when the name column is there, the load depends on the cells of
    that column alone.  It succeeds, and keeps the frame as it is, when all
    of them are text, and it fails with a [TypeError] when one of them is
    not (a blank cell, or a name that reads as a number). *)
Theorem C6_load_checks_the_name_column :
  forall (read_csv : string -> PyResult DataFrame) (path : string) (frame : DataFrame),
    read_csv path = Ok frame ->
    (~ In "Product_Name" (map fst frame) ->
     EP.init read_csv path = Raise (KeyError "Product_Name"))
    /\ (In "Product_Name" (map fst frame) ->
        exists cells,
          EP.getitem frame "Product_Name" = Ok cells
          /\ (forallb is_str cells = true ->
              exists processor,
                EP.init read_csv path = Ok processor /\ catalog processor = frame)
          /\ (forallb is_str cells = false ->
              exists found, EP.init read_csv path = Raise (TypeError found))).
Proof.
  intros read_csv path frame Hread. unfold EP.init. rewrite Hread. cbn [bind].
  pose proof (getitem_spec frame "Product_Name") as Hget.
  destruct (EP.getitem frame "Product_Name") as [cells|e]; cbn [bind].
  - split; [tauto|]. intros _. exists cells. split; [reflexivity|].
    pose proof (str_names_spec cells) as Hnames.
    destruct (EP.str_names cells) as [names|e]; cbn [bind].
    + split.
      * intros _. eexists. split; reflexivity.
      * intros Hnot. congruence.
    + destruct Hnames as [Hnot (found & ->)]. split.
      * intros Hall. congruence.
      * intros _. exists found. reflexivity.
  - destruct Hget as [-> Hnot]. split; [reflexivity | tauto].
Qed.

Lemma C6_load_witness :
  (fun _ : string => Ok Sample.frame_without_name) "content/Product Catalog.csv"
  = Ok Sample.frame_without_name
  /\ ~ In "Product_Name" (map fst Sample.frame_without_name)
  /\ EP.init (fun _ => Ok Sample.frame_without_name) "content/Product Catalog.csv"
     = Raise (KeyError "Product_Name").
Proof.
  assert (Hnot : ~ In "Product_Name" (map fst Sample.frame_without_name)).
  { cbn. intros H. repeat (destruct H as [H|H]; [discriminate H|]). exact H. }
  split; [reflexivity|]. split; [exact Hnot|].
  apply (C6_load_checks_the_name_column
           (fun _ => Ok Sample.frame_without_name) "content/Product Catalog.csv"
           Sample.frame_without_name eq_refl).
  exact Hnot.
Defined.

(** A catalog without the stock column, with a text name in every row,
    loads. *)
Lemma C6_missing_stock_counterexample :
  In "Available_in_Stock" required_columns
  /\ ~ In "Available_in_Stock" (map fst Sample.frame_without_stock)
  /\ exists processor,
       EP.init (fun _ => Ok Sample.frame_without_stock) "content/Product Catalog.csv"
       = Ok processor.
Proof.
  split; [cbn; tauto|]. split.
  - cbn. intros H. repeat (destruct H as [H|H]; [discriminate H|]). exact H.
  - eexists. reflexivity.
Qed.

(** A catalog with all five columns and one blank name does not load: the
    blank cell is the float NaN, which [re.escape] refuses. *)
Example blank_name_does_not_load :
  Forall (fun column => In column (map fst Sample.frame_with_blank_name)) required_columns
  /\ EP.init (fun _ => Ok Sample.frame_with_blank_name) "content/Product Catalog.csv"
     = Raise (TypeError "float").
Proof.
  split; [|reflexivity].
  repeat constructor; cbn; tauto.
Qed.

(** ** The two dropped outputs *)

(** C5. For an absent product the suggestions are empty for every catalog
    and quantity, also where the catalog has close matches at cutoff 0.6:
    here "SuperWidget" for the phrase "SuperWidgit". *)
Theorem C5_absent_product_has_no_suggestions :
  (forall (cat : list Row) (q : Z),
      EP.validate_against_catalog cat None q
      = (false, ["Product not found in catalog"], []))
  /\ Difflib.get_close_matches Difflib.ratio "SuperWidgit"
       (map Product_Name Sample.catalog ++ map Product_Code Sample.catalog) 2 (3#5)
     = ["SuperWidget"].
Proof.
  split; [reflexivity|]. vm_compute. reflexivity.
Qed.

Lemma process_email_ignores_delivery sim dp sd dp' sd' now cat email :
  EP.process_email sim dp sd now cat email = EP.process_email sim dp' sd' now cat email.
Proof.
  unfold EP.process_email.
  destruct (EP.build_items _ _ _ _) as [[order_items total]|e]; cbn [bind];
    [|reflexivity].
  unfold Pydantic.Order_init, Pydantic.required_str, Pydantic.required_items,
    Pydantic.optional_str, Pydantic.defaulted_datetime, Pydantic.defaulted_str,
    Pydantic.required_unit_float, Pydantic.optional_str_list.
  cbn [Pydantic.kwarg String.eqb Ascii.eqb Bool.eqb bind]. reflexivity.
Qed.

(** C1. On an email with an address line and a note the two extractors find
    them, and the order that [process_email] returns has neither: reading
    [delivery_details] or [notes] from it raises [AttributeError]; whatever
    the date parser finds leaves the order unchanged. *)
Theorem C1_order_has_no_delivery_details_or_notes :
  EP.extract_delivery_details Sample.no_parse Sample.no_search Sample.order_text
  = {| address := Some "123 Main Street, Springfield"; date := None |}
  /\ EP.extract_customer_notes Sample.order_text = Some "call on arrival"
  /\ (exists order,
         EP.process_email Difflib.ratio Sample.no_parse Sample.no_search Sample.clock
                          Sample.catalog (Sample.email_of Sample.order_text)
         = Ok order
         /\ Pydantic.Order_getattr order "delivery_details"
            = Raise (AttributeError "delivery_details")
         /\ Pydantic.Order_getattr order "notes" = Raise (AttributeError "notes"))
  /\ (forall sim dp sd dp' sd' now cat email,
         EP.process_email sim dp sd now cat email
         = EP.process_email sim dp' sd' now cat email).
Proof.
  split; [vm_compute; reflexivity|].
  split; [vm_compute; reflexivity|].
  split.
  - eexists. split; [vm_compute; reflexivity|]. split; reflexivity.
  - intros. apply process_email_ignores_delivery.
Qed.

(** ** Worked examples *)

Example find_product_by_exact_name :
  option_map Product_Code (EP.find_product Difflib.ratio Sample.catalog "superwidget")
  = Some "SW-100".
Proof. vm_compute. reflexivity. Qed.

Example find_product_by_exact_code :
  option_map Product_Name (EP.find_product Difflib.ratio Sample.catalog "dl-200")
  = Some "Desk Lamp".
Proof. vm_compute. reflexivity. Qed.

Example find_product_by_close_match :
  Difflib.ratio "SuperWidget" "SuperWidgit" == 10 # 11
  /\ option_map Product_Code (EP.find_product Difflib.ratio Sample.catalog "SuperWidgit")
     = Some "SW-100".
Proof. split; vm_compute; reflexivity. Qed.

Example find_product_of_unrelated_phrase :
  EP.find_product Difflib.ratio Sample.catalog "Flux Capacitor" = None.
Proof. vm_compute. reflexivity. Qed.

Example below_moq_line :
  exists order,
    EP.process_email Difflib.ratio Sample.no_parse Sample.no_search Sample.clock
                     Sample.catalog (Sample.email_of "Need 10 pcs of SuperWidget")
    = Ok order
    /\ map sku (items order) = ["SW-100"]
    /\ map quantity (items order) = [10%Z]
    /\ map validation_issues (items order)
       = [Some ["Quantity 10 is below MOQ of 20 for SuperWidget"]]
    /\ map suggested_replacements (items order) = [Some ["Increase quantity to 20"]]
    /\ total_confidence_score order == 1.
Proof.
  eexists. split; [vm_compute; reflexivity|].
  repeat split; vm_compute; reflexivity.
Qed.

Example text_without_digits :
  exists order,
    EP.process_email Difflib.ratio Sample.no_parse Sample.no_search Sample.clock
                     Sample.catalog (Sample.email_of "Please call me back")
    = Ok order
    /\ items order = [] /\ total_confidence_score order = 0
    /\ order_validation_issues order = Some [].
Proof.
  eexists. split; [vm_compute; reflexivity|].
  repeat split; vm_compute; reflexivity.
Qed.

Example unmatched_line_is_filtered_out :
  EP.extract_products_and_quantities Difflib.ratio Sample.catalog "7 Flux Capacitor"
  = [(None, 7%Z, 1 # 2, "Flux Capacitor")]
  /\ surviving (EP.extract_products_and_quantities Difflib.ratio Sample.catalog
                  "7 Flux Capacitor") = [].
Proof. split; vm_compute; reflexivity. Qed.

(** * Further properties of the pipeline *)

(** ** Lines *)

Lemma all_chars_app (p : ascii -> bool) (a b : string) :
  all_chars p (a ++ b) = all_chars p a && all_chars p b.
Proof.
  induction a as [|c a IH]; cbn; [reflexivity|].
  rewrite IH. now rewrite andb_assoc.
Qed.

Lemma starts_with_app (p : ascii -> bool) (a b : string) :
  truthy a = true -> starts_with p (a ++ b) = starts_with p a.
Proof. destruct a; cbn; [discriminate | reflexivity]. Qed.

Lemma ends_with_app (p : ascii -> bool) (a b : string) :
  truthy b = true -> ends_with p (a ++ b) = ends_with p b.
Proof.
  intros Hb. induction a as [|c a IH]; [reflexivity|].
  cbn [append ends_with]. rewrite IH.
  destruct (a ++ b)%string eqn:Hab; [|reflexivity].
  destruct a; destruct b; cbn in *; discriminate.
Qed.

Lemma strip_no_outer_space (s : string) :
  starts_with isspace (strip s) = false /\ ends_with isspace (strip s) = false.
Proof.
  destruct (strip_by_spec isspace s) as (l & r & _ & _ & _ & Hs & He). now split.
Qed.

(** The characters of every line come from the text, and a line holds no
    line boundary. *)
Lemma splitlines_chars_upto (p : ascii -> bool) (n : nat) :
  forall s, (String.length s <= n)%nat -> all_chars p s = true ->
            Forall (fun line => all_chars p line = true) (splitlines s).
Proof.
  induction n as [|n IH]; intros s Hlen Hall.
  - destruct s; [constructor | cbn in Hlen; lia].
  - destruct s as [|c s']; [constructor|].
    cbn in Hlen. cbn in Hall. apply andb_prop in Hall. destruct Hall as [Hc Hall].
    cbn [splitlines]. destruct (islinebreak c).
    + constructor; [reflexivity|].
      destruct (Ascii.eqb c "013"); [|apply IH; [lia | assumption]].
      destruct s' as [|d s'']; [constructor|].
      destruct (Ascii.eqb d "010").
      * cbn in Hlen, Hall. apply andb_prop in Hall. apply IH; [lia | apply Hall].
      * apply IH; [lia | assumption].
    + assert (Hrec : Forall (fun line => all_chars p line = true) (splitlines s'))
        by (apply IH; [lia | assumption]).
      destruct (splitlines s') as [|l ls].
      * constructor; [cbn; now rewrite Hc | constructor].
      * inversion Hrec; subst. constructor; [cbn; now rewrite Hc | assumption].
Qed.

Lemma splitlines_chars (p : ascii -> bool) (s : string) :
  all_chars p s = true -> Forall (fun line => all_chars p line = true) (splitlines s).
Proof. apply (splitlines_chars_upto p (String.length s)). lia. Qed.

Lemma splitlines_no_break_upto (n : nat) :
  forall s, (String.length s <= n)%nat ->
            Forall (fun line => all_chars (fun c => negb (islinebreak c)) line = true)
                   (splitlines s).
Proof.
  induction n as [|n IH]; intros s Hlen.
  - destruct s; [constructor | cbn in Hlen; lia].
  - destruct s as [|c s']; [constructor|].
    cbn in Hlen. cbn [splitlines]. destruct (islinebreak c) eqn:Hc.
    + constructor; [reflexivity|].
      destruct (Ascii.eqb c "013"); [|apply IH; lia].
      destruct s' as [|d s'']; [constructor|].
      destruct (Ascii.eqb d "010"); apply IH; cbn in *; lia.
    + assert (Hrec : Forall (fun line => all_chars (fun c => negb (islinebreak c)) line = true)
                            (splitlines s')) by (apply IH; lia).
      destruct (splitlines s') as [|l ls].
      * constructor; [cbn; now rewrite Hc | constructor].
      * inversion Hrec; subst. constructor; [cbn; now rewrite Hc | assumption].
Qed.

Lemma stripped_line_trimmed :
  forall (text line : string),
    In line (EP.stripped_lines text) ->
    line <> EmptyString
    /\ starts_with isspace line = false
    /\ ends_with isspace line = false.
Proof.
  intros text line Hin.
  pose proof (stripped_lines_truthy text line Hin) as Ht.
  unfold EP.stripped_lines in Hin. apply in_map_iff in Hin.
  destruct Hin as (raw & <- & _).
  split; [intros H; rewrite H in Ht; discriminate|].
  apply strip_no_outer_space.
Qed.

(** X1. [stripped_lines] gives lines that are not empty, that neither begin
    nor end with white space, and that hold no line boundary. *)
Theorem stripped_lines_are_clean :
  forall (text line : string),
    In line (EP.stripped_lines text) ->
    line <> EmptyString
    /\ starts_with isspace line = false
    /\ ends_with isspace line = false
    /\ all_chars (fun c => negb (islinebreak c)) line = true.
Proof.
  intros text line Hin.
  destruct (stripped_line_trimmed text line Hin) as (Hne & Hs & He).
  split; [assumption|]. split; [assumption|]. split; [assumption|].
  unfold EP.stripped_lines in Hin. apply in_map_iff in Hin.
  destruct Hin as (raw & <- & Hraw). apply filter_In in Hraw. destruct Hraw as [Hraw _].
  pose proof (splitlines_no_break_upto (String.length text) text (le_n _)) as Hall.
  rewrite Forall_forall in Hall. specialize (Hall raw Hraw).
  destruct (strip_by_spec isspace raw) as (l & r & Heq & _).
  fold (strip raw) in Heq. rewrite Heq in Hall.
  rewrite !all_chars_app in Hall.
  apply andb_prop in Hall. destruct Hall as [_ Hall].
  apply andb_prop in Hall. apply Hall.
Qed.

Lemma stripped_lines_are_clean_witness :
  In "Ship to: 123 Main Street, Springfield" (EP.stripped_lines Sample.order_text)
  /\ "Ship to: 123 Main Street, Springfield" <> EmptyString
  /\ starts_with isspace "Ship to: 123 Main Street, Springfield" = false
  /\ ends_with isspace "Ship to: 123 Main Street, Springfield" = false
  /\ all_chars (fun c => negb (islinebreak c)) "Ship to: 123 Main Street, Springfield" = true.
Proof.
  assert (Hin : In "Ship to: 123 Main Street, Springfield"
                   (EP.stripped_lines Sample.order_text)).
  { vm_compute. tauto. }
  split; [exact Hin|].
  exact (stripped_lines_are_clean Sample.order_text _ Hin).
Defined.


(** ** Address *)

Lemma address_at_cases (line : string) (rest : list string) :
  Forall (fun l => truthy l = true /\ starts_with isspace l = false
                   /\ ends_with isspace l = false) rest ->
  match EP.address_at None line rest with
  | None => True
  | Some a => truthy a = true /\ starts_with isspace a = false
              /\ ends_with isspace a = false
  end.
Proof.
  intros Hrest. unfold EP.address_at.
  destruct (find _ EP.address_keywords) as [keyword|]; [|exact I].
  destruct (truthy (strip (split_colon_last line)) && _) eqn:Hok.
  - apply andb_prop in Hok. destruct Hok as [Ht _].
    destruct (strip_no_outer_space (split_colon_last line)). auto.
  - destruct rest as [|next_line rest']; [exact I|].
    inversion Hrest as [|? ? (Ht & Hs & He) Hrest']; subst.
    destruct rest' as [|following rest'']; [auto|].
    inversion Hrest' as [|? ? (Ht' & Hs' & He') _]; subst.
    destruct (Re.search_address following); [|auto].
    split; [now apply truthy_append_nonempty|].
    split.
    + now rewrite starts_with_app.
    + rewrite ends_with_app; [|now apply truthy_append_nonempty].
      now rewrite (ends_with_app isspace ", " following).
Qed.

Lemma address_scan_cases (lines : list string) :
  Forall (fun l => truthy l = true /\ starts_with isspace l = false
                   /\ ends_with isspace l = false) lines ->
  match EP.address_scan None lines with
  | None => True
  | Some a => truthy a = true /\ starts_with isspace a = false
              /\ ends_with isspace a = false
  end.
Proof.
  induction 1 as [|line rest Hline Hrest IH]; [exact I|].
  cbn [EP.address_scan].
  pose proof (address_at_cases line rest Hrest) as Hat.
  destruct (EP.address_at None line rest) as [a|].
  - destruct Hat as (Ht & Hs & He). cbn [EP.is_set]. rewrite Ht. auto.
  - cbn [EP.is_set]. exact IH.
Qed.

(** X2. An address that [extract_delivery_details] returns is never the
    empty string and never begins or ends with white space. *)
Theorem extracted_address_is_trimmed :
  forall (dateparser_parse : string -> option datetime)
         (search_dates : string -> option (list (string * datetime)))
         (text a : string),
    address (EP.extract_delivery_details dateparser_parse search_dates text) = Some a ->
    a <> EmptyString /\ starts_with isspace a = false /\ ends_with isspace a = false.
Proof.
  intros dp sd text a.
  assert (Hlines : Forall (fun l => truthy l = true /\ starts_with isspace l = false
                                    /\ ends_with isspace l = false)
                          (EP.stripped_lines text)).
  { apply Forall_forall. intros l Hl.
    destruct (stripped_line_trimmed text l Hl) as (Hne & Hs & He).
    split; [|auto]. destruct l; [congruence | reflexivity]. }
  unfold EP.extract_delivery_details. cbn [address].
  pose proof (address_scan_cases _ Hlines) as Hscan.
  assert (Hgoal : forall a, truthy a = true /\ starts_with isspace a = false
                            /\ ends_with isspace a = false ->
                            a <> EmptyString /\ starts_with isspace a = false
                            /\ ends_with isspace a = false).
  { intros b (Ht & Hs & He). split; [|auto]. intros ->. discriminate. }
  destruct (EP.address_scan None (EP.stripped_lines text)) as [b|].
  - destruct Hscan as (Ht & Hs & He). cbn [EP.is_set]. rewrite Ht. cbn [negb].
    intros [= <-]. now apply Hgoal.
  - cbn [EP.is_set negb]. unfold EP.address_fallback.
    destruct (find _ (EP.stripped_lines text)) as [l|] eqn:Hf; [|discriminate].
    intros [= <-]. apply Hgoal. apply find_some in Hf. destruct Hf as [Hin _].
    rewrite Forall_forall in Hlines. now apply Hlines.
Qed.

Lemma extracted_address_is_trimmed_witness :
  address (EP.extract_delivery_details Sample.no_parse Sample.no_search Sample.order_text)
  = Some "123 Main Street, Springfield"
  /\ "123 Main Street, Springfield" <> EmptyString
  /\ starts_with isspace "123 Main Street, Springfield" = false
  /\ ends_with isspace "123 Main Street, Springfield" = false.
Proof.
  split; [reflexivity|].
  apply (extracted_address_is_trimmed Sample.no_parse Sample.no_search Sample.order_text).
  reflexivity.
Defined.

(** X3. When no line contains an address keyword, the address is the first
    line that is not a product line ("pcs", "qty", "x 3", "need 3") and
    that has an address token or a comma; without such a line there is no
    address. *)
Theorem address_fallback_without_keyword :
  forall (dateparser_parse : string -> option datetime)
         (search_dates : string -> option (list (string * datetime)))
         (text : string),
    (forall l k, In l (EP.stripped_lines text) -> In k EP.address_keywords ->
                 contains k (lower l) = false) ->
    address (EP.extract_delivery_details dateparser_parse search_dates text)
    = find (fun line => negb (Re.search_product_line line) && Re.search_address line)
           (EP.stripped_lines text).
Proof.
  intros dp sd text Hno.
  unfold EP.extract_delivery_details. cbn [address].
  assert (Hscan : EP.address_scan None (EP.stripped_lines text) = None).
  { pose proof (address_scan_skip (EP.stripped_lines text) []) as Hs.
    rewrite app_nil_r in Hs. apply Hs.
    intros l Hl. apply find_all_false. intros k Hk. now apply Hno. }
  rewrite Hscan. cbn [EP.is_set negb]. unfold EP.address_fallback.
  destruct (find _ (EP.stripped_lines text)); reflexivity.
Qed.

Lemma address_fallback_witness :
  (forall l k, In l (EP.stripped_lines ("5 pcs, urgent" ++ Sample.LF ++ "42 Elm Road")) ->
               In k EP.address_keywords -> contains k (lower l) = false)
  /\ address (EP.extract_delivery_details Sample.no_parse Sample.no_search
                ("5 pcs, urgent" ++ Sample.LF ++ "42 Elm Road"))
     = Some "42 Elm Road".
Proof.
  assert (H : forall l k,
             In l (EP.stripped_lines ("5 pcs, urgent" ++ Sample.LF ++ "42 Elm Road")) ->
             In k EP.address_keywords -> contains k (lower l) = false).
  { intros l k Hl Hk. cbn in Hl, Hk.
    repeat (destruct Hl as [<-|Hl];
            [repeat (destruct Hk as [<-|Hk]; [reflexivity|]); contradiction|]).
    contradiction. }
  split; [exact H|].
  rewrite (address_fallback_without_keyword Sample.no_parse Sample.no_search _ H).
  reflexivity.
Defined.

(** ** Date *)

Lemma first_split_unique {A : Type} (P : A -> Prop) (pre : list A) (x : A)
      (rest pre' : list A) (x' : A) (rest' : list A) :
  pre ++ x :: rest = pre' ++ x' :: rest' ->
  (forall y, In y pre -> ~ P y) -> P x ->
  (forall y, In y pre' -> ~ P y) -> P x' ->
  x = x'.
Proof.
  revert pre'. induction pre as [|p pre IH]; intros [|p' pre'] Heq Hpre Hx Hpre' Hx';
    cbn in Heq.
  - now injection Heq.
  - injection Heq as -> _. exfalso. apply (Hpre' p'); [now left | assumption].
  - injection Heq as -> _. exfalso. apply (Hpre x'); [now left | assumption].
  - injection Heq as -> Heq. apply (IH pre' Heq); auto.
    + intros y Hy. apply Hpre. now right.
    + intros y Hy. apply Hpre'. now right.
Qed.

Lemma strftime_iso_truthy (d : datetime) : truthy (strftime_iso d) = true.
Proof.
  unfold strftime_iso. apply truthy_append_nonempty. reflexivity.
Qed.

Lemma date_at_cases dp (line : string) (keywords : list string) :
  match EP.date_at dp None line keywords with
  | None => forall k, In k keywords -> contains k (lower line) = true ->
                      dp (split_colon_last line) = None
  | Some s => exists k d, In k keywords /\ contains k (lower line) = true
                          /\ dp (split_colon_last line) = Some d
                          /\ s = strftime_iso d
  end.
Proof.
  induction keywords as [|keyword keywords IH]; cbn [EP.date_at].
  - intros k [].
  - destruct (contains keyword (lower line)) eqn:Hc.
    + destruct (dp (split_colon_last line)) as [d|] eqn:Hp.
      * exists keyword, d. repeat split; auto. now left.
      * destruct (EP.date_at dp None line keywords) as [s|].
        -- destruct IH as (k & d & Hk & _ & Hd & _). congruence.
        -- intros k _ _. reflexivity.
    + destruct (EP.date_at dp None line keywords) as [s|].
      * destruct IH as (k & d & Hk & Hck & Hd & Hs).
        exists k, d. repeat split; auto. now right.
      * intros k [<-|Hk] Hck; [congruence|]. exact (IH k Hk Hck).
Qed.

Lemma date_scan_cases dp (lines : list string) :
  match EP.date_scan dp None lines with
  | None => forall line k, In line lines -> In k EP.date_keywords ->
                           contains k (lower line) = true ->
                           dp (split_colon_last line) = None
  | Some s => exists pre line rest k d,
      lines = pre ++ line :: rest
      /\ (forall l k', In l pre -> In k' EP.date_keywords ->
                       contains k' (lower l) = true -> dp (split_colon_last l) = None)
      /\ In k EP.date_keywords /\ contains k (lower line) = true
      /\ dp (split_colon_last line) = Some d /\ s = strftime_iso d
  end.
Proof.
  induction lines as [|line lines IH]; cbn [EP.date_scan].
  - intros line k [].
  - pose proof (date_at_cases dp line EP.date_keywords) as Hat.
    destruct (EP.date_at dp None line EP.date_keywords) as [s|].
    + destruct Hat as (k & d & Hk & Hc & Hd & ->).
      cbn [EP.is_set]. rewrite strftime_iso_truthy.
      exists [], line, lines, k, d. repeat split; auto. intros l k' [].
    + cbn [EP.is_set]. destruct (EP.date_scan dp None lines) as [s|].
      * destruct IH as (pre & l & rest & k & d & -> & Hpre & Hk & Hc & Hd & Hs).
        exists (line :: pre), l, rest, k, d. repeat split; auto.
        intros l' k' [<-|Hl'] Hk' Hc'; [exact (Hat k' Hk' Hc') | now apply (Hpre l' k')].
      * intros l k [<-|Hl] Hk Hc; [exact (Hat k Hk Hc) | now apply (IH l k)].
Qed.

(** X4. A date that [extract_delivery_details] returns is the ISO rendering
    of a date the parser gave for a line with a date keyword, or of the
    first hit of the full-text search; when the parser finds nothing on
    the keyword lines and the search finds nothing, there is no date. *)
Theorem extracted_date_provenance :
  forall (dateparser_parse : string -> option datetime)
         (search_dates : string -> option (list (string * datetime)))
         (text : string),
    match date (EP.extract_delivery_details dateparser_parse search_dates text) with
    | Some s =>
        exists d, s = strftime_iso d
                  /\ ((exists line k, In line (EP.stripped_lines text)
                                      /\ In k EP.date_keywords
                                      /\ contains k (lower line) = true
                                      /\ dateparser_parse (split_colon_last line) = Some d)
                      \/ (exists phrase others,
                             search_dates text = Some ((phrase, d) :: others)))
    | None =>
        (forall line k, In line (EP.stripped_lines text) -> In k EP.date_keywords ->
                        contains k (lower line) = true ->
                        dateparser_parse (split_colon_last line) = None)
        /\ (search_dates text = None \/ search_dates text = Some [])
    end.
Proof.
  intros dp sd text. unfold EP.extract_delivery_details. cbn [date].
  pose proof (date_scan_cases dp (EP.stripped_lines text)) as Hscan.
  destruct (EP.date_scan dp None (EP.stripped_lines text)) as [s|].
  - destruct Hscan as (pre & line & rest & k & d & Hl & _ & Hk & Hc & Hd & ->).
    cbn [EP.is_set]. rewrite strftime_iso_truthy. cbn [negb].
    exists d. split; [reflexivity|]. left. exists line, k. repeat split; auto.
    rewrite Hl. apply in_or_app. right. now left.
  - cbn [EP.is_set negb].
    destruct (sd text) as [[|[phrase d] others]|].
    + split; [assumption | now right].
    + exists d. split; [reflexivity|]. right. now exists phrase, others.
    + split; [assumption | now left].
Qed.

(** X5. The first line that has a date keyword and that the parser reads
    decides the date; the full-text search is not asked. *)
Theorem date_of_first_parsed_keyword_line :
  forall (dateparser_parse : string -> option datetime)
         (search_dates : string -> option (list (string * datetime)))
         (text : string) (pre : list string) (line : string) (rest : list string)
         (k : string) (d : datetime),
    EP.stripped_lines text = pre ++ line :: rest ->
    (forall l k', In l pre -> In k' EP.date_keywords ->
                  contains k' (lower l) = true -> dateparser_parse (split_colon_last l) = None) ->
    In k EP.date_keywords -> contains k (lower line) = true ->
    dateparser_parse (split_colon_last line) = Some d ->
    date (EP.extract_delivery_details dateparser_parse search_dates text)
    = Some (strftime_iso d).
Proof.
  intros dp sd text pre line rest k d Hlines Hpre Hk Hc Hd.
  unfold EP.extract_delivery_details. cbn [date].
  pose proof (date_scan_cases dp (EP.stripped_lines text)) as Hscan.
  destruct (EP.date_scan dp None (EP.stripped_lines text)) as [s|].
  - destruct Hscan as (pre' & line' & rest' & k' & d' & Hl' & Hpre' & Hk' & Hc' & Hd' & ->).
    cbn [EP.is_set]. rewrite strftime_iso_truthy. cbn [negb].
    rewrite Hlines in Hl'.
    assert (Hsame : line = line').
    { apply (first_split_unique
               (fun l => exists k0, In k0 EP.date_keywords
                                    /\ contains k0 (lower l) = true
                                    /\ dp (split_colon_last l) <> None)
               pre line rest pre' line' rest' Hl').
      - intros l Hl (k0 & Hk0 & Hc0 & Hn). apply Hn. now apply (Hpre l k0).
      - exists k. repeat split; auto. congruence.
      - intros l Hl (k0 & Hk0 & Hc0 & Hn). apply Hn. now apply (Hpre' l k0).
      - exists k'. repeat split; auto. congruence. }
    subst line'. congruence.
  - exfalso. specialize (Hscan line k).
    rewrite Hscan in Hd; [discriminate| |assumption|assumption].
    rewrite Hlines. apply in_or_app. right. now left.
Qed.

Lemma date_of_first_parsed_keyword_line_witness :
  EP.stripped_lines Cases.deadline_text = ["Hello team"] ++ "Deadline: July 4" :: ["Thanks"]
  /\ date (EP.extract_delivery_details Cases.parse_july_4 Sample.no_search Cases.deadline_text)
     = Some "2025-07-04".
Proof.
  split; [reflexivity|].
  apply (date_of_first_parsed_keyword_line Cases.parse_july_4 Sample.no_search
           Cases.deadline_text ["Hello team"] "Deadline: July 4" ["Thanks"] "deadline"
           {| year := 2025; month := 7; day := 4; hour := 0; minute := 0; second := 0 |}).
  - reflexivity.
  - intros l k' [<-|[]] _ _. reflexivity.
  - cbn. tauto.
  - reflexivity.
  - reflexivity.
Defined.

(** ** Notes *)

Lemma search_literal_none (lit s : string) :
  Re.search_literal lit s = None <-> contains lit (lower s) = false.
Proof.
  induction s as [|c s IH]; cbn [Re.search_literal contains lower].
  - destruct (prefix lit ""); cbn; split; congruence.
  - destruct (prefix lit (String (lower_char c) (lower s))); cbn; [split; congruence|].
    exact IH.
Qed.

(** X6. [extract_customer_notes] returns nothing exactly when the text, in
    lower case, has none of the four anchors "note", "let me know", "if
    there are better alternatives for any item, " and "sincerely,". *)
Theorem notes_absent_iff_no_anchor :
  forall text : string,
    EP.extract_customer_notes text = None
    <-> contains "note" (lower text) = false
        /\ contains "let me know" (lower text) = false
        /\ contains "if there are better alternatives for any item, " (lower text) = false
        /\ contains "sincerely," (lower text) = false.
Proof.
  intros text. rewrite <- !search_literal_none.
  unfold EP.extract_customer_notes, Re.note_patterns. cbn [EP.first_note].
  destruct (Re.search_literal "note" text); cbn [option_map];
    [split; [discriminate | intros [H _]; discriminate]|].
  destruct (Re.search_literal "let me know" text); cbn [option_map];
    [split; [discriminate | intros (_ & H & _); discriminate]|].
  destruct (Re.search_literal "if there are better alternatives for any item, " text);
    cbn [option_map];
    [split; [discriminate | intros (_ & _ & H & _); discriminate]|].
  destruct (Re.search_literal "sincerely," text); cbn [option_map];
    [split; [discriminate | intros (_ & _ & _ & H); discriminate]|].
  tauto.
Qed.

Lemma rest_of_line_no_lf (s : string) :
  all_chars (fun c => negb (Ascii.eqb c "010")) (Re.rest_of_line s) = true.
Proof.
  induction s as [|c s IH]; cbn; [reflexivity|].
  destruct (Ascii.eqb c "010") eqn:Hc; cbn; [reflexivity|]. now rewrite Hc.
Qed.

Lemma first_note_shape (patterns : list (string -> option string)) (text n : string) :
  Forall (fun pat => forall g, pat text = Some g ->
                               all_chars (fun c => negb (Ascii.eqb c "010")) g = true)
         patterns ->
  EP.first_note patterns text = Some n ->
  starts_with isspace n = false /\ ends_with isspace n = false
  /\ all_chars (fun c => negb (Ascii.eqb c "010")) n = true.
Proof.
  induction 1 as [|pat patterns Hpat _ IH]; cbn [EP.first_note]; [discriminate|].
  destruct (pat text) as [g|] eqn:Hg; [|exact IH].
  intros [= <-]. destruct (strip_no_outer_space g) as [Hs He].
  split; [assumption|]. split; [assumption|].
  specialize (Hpat g eq_refl).
  destruct (strip_by_spec isspace g) as (l & r & Heq & _).
  fold (strip g) in Heq. rewrite Heq, !all_chars_app in Hpat.
  apply andb_prop in Hpat. destruct Hpat as [_ Hpat].
  apply andb_prop in Hpat. apply Hpat.
Qed.

(** X7. A note that [extract_customer_notes] returns is on one line: it has
    no line feed, and it neither begins nor ends with white space. *)
Theorem note_is_one_trimmed_line :
  forall text n : string,
    EP.extract_customer_notes text = Some n ->
    starts_with isspace n = false /\ ends_with isspace n = false
    /\ all_chars (fun c => negb (Ascii.eqb c "010")) n = true.
Proof.
  intros text n. apply first_note_shape.
  unfold Re.note_patterns.
  repeat constructor; intros g;
    match goal with
    | |- option_map _ ?o = Some g -> _ => destruct o; cbn [option_map]; [|discriminate]
    end; intros [= <-]; apply rest_of_line_no_lf.
Qed.

Lemma note_is_one_trimmed_line_witness :
  EP.extract_customer_notes Sample.order_text = Some "call on arrival"
  /\ starts_with isspace "call on arrival" = false
  /\ ends_with isspace "call on arrival" = false
  /\ all_chars (fun c => negb (Ascii.eqb c "010")) "call on arrival" = true.
Proof.
  split; [reflexivity|].
  apply (note_is_one_trimmed_line Sample.order_text "call on arrival"). reflexivity.
Defined.

(** ** Catalog lookup *)

(** X8. [find_product] only answers with a row of the catalog, and that
    row has the phrase as its name or as its code up to case, or owns a
    name or code whose similarity to the phrase is 0.8 or more; on an empty
    catalog it answers nothing. *)
Theorem find_product_sound :
  forall (sim : string -> string -> Q) (cat : list Row) (phrase : string),
    match EP.find_product sim cat phrase with
    | Some r =>
        In r cat
        /\ (name_is phrase r = true \/ code_is phrase r = true
            \/ exists m, owns m r = true /\ 4#5 <= sim m phrase
                         /\ In m (map Product_Name cat ++ map Product_Code cat))
    | None =>
        forall r, In r cat ->
                  name_is phrase r = false /\ code_is phrase r = false
                  /\ sim (Product_Name r) phrase < 4#5
                  /\ sim (Product_Code r) phrase < 4#5
    end.
Proof.
  intros sim cat phrase. unfold EP.find_product.
  pose proof (filter_head_find (name_is phrase) cat) as Hn.
  unfold name_is in Hn at 1.
  destruct (filter (fun r => (lower (Product_Name r) =? lower phrase)%string) cat) as [|r ?].
  2:{ symmetry in Hn. apply find_some in Hn. tauto. }
  pose proof (filter_head_find (code_is phrase) cat) as Hc.
  unfold code_is in Hc at 1.
  destruct (filter (fun r => (lower (Product_Code r) =? lower phrase)%string) cat) as [|r ?].
  2:{ symmetry in Hc. apply find_some in Hc. tauto. }
  symmetry in Hn, Hc.
  pose proof (close_match_one sim phrase (map Product_Name cat ++ map Product_Code cat) (4#5))
    as Hcm.
  destruct (Difflib.get_close_matches sim phrase _ 1 (4#5)) as [|m others].
  - intros r Hr.
    split; [exact (find_none _ _ Hn r Hr)|]. split; [exact (find_none _ _ Hc r Hr)|].
    split; apply Hcm; apply in_or_app; [left | right]; now apply in_map.
  - destruct Hcm as [_ (Hin & Hge & _)].
    pose proof (filter_head_find (owns m) cat) as Ho. unfold owns in Ho at 1.
    destruct (candidate_has_owner cat m Hin) as [r Hr]. rewrite Hr in Ho.
    destruct (filter _ cat) as [|r' ?]; [discriminate|]. injection Ho as ->.
    apply find_some in Hr. destruct Hr as [Hr Hown].
    split; [assumption|]. right. right. exists m. auto.
Qed.

Lemma in_map_injective {A B : Type} (f : A -> B) (l : list A) (x y : A) :
  NoDup (map f l) -> In x l -> In y l -> f x = f y -> x = y.
Proof.
  induction l as [|a l IH]; cbn; [contradiction|].
  intros Hnd Hx Hy Hf. inversion Hnd as [|? ? Hnotin Hnd']; subst.
  destruct Hx as [<-|Hx]; destruct Hy as [<-|Hy]; auto.
  - exfalso. apply Hnotin. rewrite Hf. now apply in_map.
  - exfalso. apply Hnotin. rewrite <- Hf. now apply in_map.
Qed.

(** X9. In a catalog whose names differ from one another up to case,
    looking a row up by its own name gives that very row back; when
    moreover its codes differ from one another and from every name up to
    case, so does looking it up by its code. *)
Theorem find_product_round_trip :
  forall (sim : string -> string -> Q) (cat : list Row) (r : Row),
    NoDup (map (fun x => lower (Product_Name x)) cat) ->
    In r cat ->
    EP.find_product sim cat (Product_Name r) = Some r
    /\ (NoDup (map (fun x => lower (Product_Code x)) cat) ->
        (forall x, In x cat -> lower (Product_Name x) <> lower (Product_Code r)) ->
        EP.find_product sim cat (Product_Code r) = Some r).
Proof.
  intros sim cat r Hnames Hr. split.
  - destruct (find_product_of_name sim cat (Product_Name r) (in_map _ _ _ Hr))
      as (r' & Hfind & Hfp).
    rewrite Hfp. f_equal. apply find_some in Hfind. destruct Hfind as [Hr' Hname].
    unfold name_is in Hname. apply String.eqb_eq in Hname.
    now apply (in_map_injective (fun x => lower (Product_Name x)) cat).
  - intros Hcodes Hdistinct. unfold EP.find_product.
    pose proof (filter_head_find (name_is (Product_Code r)) cat) as Hn.
    unfold name_is in Hn at 1.
    rewrite (find_all_false (name_is (Product_Code r)) cat) in Hn.
    2:{ intros x Hx. unfold name_is. apply String.eqb_neq. now apply Hdistinct. }
    destruct (filter (fun x => (lower (Product_Name x) =? lower (Product_Code r))%string) cat);
      [|discriminate].
    pose proof (filter_head_find (code_is (Product_Code r)) cat) as Hc.
    unfold code_is in Hc at 1.
    destruct (find (code_is (Product_Code r)) cat) as [r'|] eqn:Hfind.
    + destruct (filter (fun x => (lower (Product_Code x) =? lower (Product_Code r))%string) cat);
        [discriminate|].
      injection Hc as ->. f_equal.
      apply find_some in Hfind. destruct Hfind as [Hr' Hcode].
      unfold code_is in Hcode. apply String.eqb_eq in Hcode.
      now apply (in_map_injective (fun x => lower (Product_Code x)) cat).
    + exfalso. pose proof (find_none _ _ Hfind r Hr) as Hno.
      unfold code_is in Hno. now rewrite String.eqb_refl in Hno.
Qed.

Lemma find_product_round_trip_witness :
  NoDup (map (fun x => lower (Product_Name x)) Sample.catalog)
  /\ In Cases.desk_lamp Sample.catalog
  /\ EP.find_product Difflib.ratio Sample.catalog "Desk Lamp" = Some Cases.desk_lamp
  /\ EP.find_product Difflib.ratio Sample.catalog "DL-200" = Some Cases.desk_lamp.
Proof.
  assert (Hnd : NoDup (map (fun x => lower (Product_Name x)) Sample.catalog)).
  { cbn. repeat constructor; cbn; intros H;
      repeat (destruct H as [H|H]; [discriminate H|]); exact H. }
  assert (Hin : In Cases.desk_lamp Sample.catalog) by (cbn; tauto).
  destruct (find_product_round_trip Difflib.ratio Sample.catalog Cases.desk_lamp Hnd Hin)
    as [Hname Hcode].
  split; [exact Hnd|]. split; [exact Hin|]. split; [exact Hname|].
  apply Hcode.
  - cbn. repeat constructor; cbn; intros H;
      repeat (destruct H as [H|H]; [discriminate H|]); exact H.
  - intros x Hx. cbn in Hx.
    repeat (destruct Hx as [<-|Hx]; [discriminate|]). contradiction.
Defined.

(** ** Extracted entries *)

Lemma digit_value_range (c : ascii) : isdigit c = true -> (0 <= digit_value c <= 9)%Z.
Proof.
  unfold isdigit, digit_value. intros H. apply andb_prop in H. destruct H as [H1 H2].
  apply N.leb_le in H1, H2. lia.
Qed.

Lemma int_of_digits_from_nonneg (s : string) :
  forall acc, (0 <= acc)%Z -> all_chars isdigit s = true ->
              (acc <= int_of_digits_from acc s)%Z.
Proof.
  induction s as [|c s IH]; intros acc Hacc Hall; cbn [int_of_digits_from]; [lia|].
  cbn in Hall. apply andb_prop in Hall. destruct Hall as [Hc Hall].
  pose proof (digit_value_range c Hc).
  specialize (IH (10 * acc + digit_value c)%Z ltac:(lia) Hall). lia.
Qed.

Lemma strip_chars_subset (p : ascii -> bool) (chars s : string) :
  all_chars p s = true -> all_chars p (strip_chars chars s) = true.
Proof.
  intros Hall. unfold strip_chars.
  destruct (strip_by_spec (fun c => mem_char c chars) s) as (l & r & Heq & _).
  rewrite Heq, !all_chars_app in Hall.
  apply andb_prop in Hall. destruct Hall as [_ Hall].
  apply andb_prop in Hall. apply Hall.
Qed.

Lemma sub_digits_no_digit (line : string) :
  all_chars (fun c => negb (isdigit c)) (Re.sub_digits line) = true.
Proof.
  induction line as [|c line IH]; cbn; [reflexivity|].
  destruct (isdigit c) eqn:Hc; cbn; [assumption|]. now rewrite Hc.
Qed.

Lemma extract_line_entry sim (cat : list Row) (line : string) (entry : Extracted) :
  In entry (EP.extract_line sim cat [] line) ->
  let '(product, qty, confidence, extracted_name) := entry in
  EP.is_non_product extracted_name = false
  /\ (0 <= qty)%Z
  /\ match product with
     | Some r =>
         confidence = 1 /\ In r cat /\ In extracted_name (map Product_Name cat)
         /\ lower (Product_Name r) = lower extracted_name
     | None =>
         confidence = 1 # 2
         /\ starts_with is_separator extracted_name = false
         /\ ends_with is_separator extracted_name = false
         /\ all_chars (fun c => negb (isdigit c)) extracted_name = true
     end.
Proof.
  unfold EP.extract_line.
  destruct (Re.search_digits line) as [run|] eqn:Hrun; [|intros []].
  assert (Hq : (0 <= int_of_digits run)%Z).
  { destruct (search_digits_some line run Hrun) as (_ & _ & _ & _ & _ & Hall & _).
    now apply int_of_digits_from_nonneg. }
  pose proof (close_match_one sim (strip_chars " -:x*.," (Re.sub_digits line))
                              (map Product_Name cat) (3#5)) as Hcm.
  destruct (Difflib.get_close_matches _ _ _ _ _) as [|m others].
  - destruct (EP.is_non_product (strip_chars " -:x*.," (Re.sub_digits line))) eqn:Hnoise;
      [intros []|].
    intros [<-|[]]. split; [assumption|]. split; [assumption|].
    split; [reflexivity|].
    destruct (strip_by_spec is_separator (Re.sub_digits line)) as (l & r & _ & _ & _ & Hs & He).
    split; [exact Hs|]. split; [exact He|].
    apply strip_chars_subset. apply sub_digits_no_digit.
  - destruct Hcm as [_ (Hin & _)].
    destruct (find_product_of_name sim cat m Hin) as (r & Hfind & Hfp).
    rewrite Hfp.
    destruct (EP.is_non_product m) eqn:Hnoise; [intros []|].
    intros [<-|[]]. split; [assumption|]. split; [assumption|].
    apply find_some in Hfind. destruct Hfind as [Hr Hname].
    unfold name_is in Hname. apply String.eqb_eq in Hname. auto.
Qed.

(** X10. Every entry that [extract_products_and_quantities] returns has a
    name free of noise phrases and a quantity that is not negative.  With a
    product, the confidence is 1.0, the product is a row of the catalog,
    and the name is a catalog name, that of the row up to case; without
    one, the confidence is 0.5 and the name has no digit and no separator
    at either end. *)
Theorem extracted_entries_invariant :
  forall (sim : string -> string -> Q) (cat : list Row) (text : string)
         (product : option Row) (qty : Z) (confidence : Q) (extracted_name : string),
    In (product, qty, confidence, extracted_name)
       (EP.extract_products_and_quantities sim cat text) ->
    EP.is_non_product extracted_name = false
    /\ (0 <= qty)%Z
    /\ match product with
       | Some r =>
           confidence = 1 /\ In r cat /\ In extracted_name (map Product_Name cat)
           /\ lower (Product_Name r) = lower extracted_name
       | None =>
           confidence = 1 # 2
           /\ starts_with is_separator extracted_name = false
           /\ ends_with is_separator extracted_name = false
           /\ all_chars (fun c => negb (isdigit c)) extracted_name = true
       end.
Proof.
  intros sim cat text product qty confidence extracted_name.
  unfold EP.extract_products_and_quantities. rewrite extract_lines_flat_map. cbn [app].
  rewrite in_flat_map. intros (line & _ & Hin).
  exact (extract_line_entry sim cat line _ Hin).
Qed.

Lemma extracted_entries_invariant_witness :
  In (None, 7%Z, 1 # 2, "Flux Capacitor")
     (EP.extract_products_and_quantities Difflib.ratio Sample.catalog "-7 x Flux Capacitor:")
  /\ EP.is_non_product "Flux Capacitor" = false /\ (0 <= 7)%Z.
Proof.
  assert (Hin : In (None, 7%Z, 1 # 2, "Flux Capacitor")
                   (EP.extract_products_and_quantities Difflib.ratio Sample.catalog
                      "-7 x Flux Capacitor:")).
  { vm_compute. now left. }
  split; [exact Hin|].
  destruct (extracted_entries_invariant Difflib.ratio Sample.catalog
              "-7 x Flux Capacitor:" None 7 (1 # 2) "Flux Capacitor" Hin) as (Hn & Hq & _).
  split; assumption.
Defined.

(** ** Texts joined by a line feed *)

Lemma splitlines_join_upto (b : string) (n : nat) :
  forall a, (String.length a <= n)%nat ->
    exists extra,
      (extra = [] \/ extra = [EmptyString])
      /\ (splitlines a = [] -> extra = [EmptyString])
      /\ splitlines (a ++ String "010" b) = splitlines a ++ extra ++ splitlines b.
Proof.
  induction n as [|n IH]; intros a Hlen.
  - destruct a; [|cbn in Hlen; lia].
    exists [EmptyString]. cbn. auto.
  - destruct a as [|c a']; [exists [EmptyString]; cbn; auto|].
    cbn in Hlen. cbn [append splitlines]. destruct (islinebreak c) eqn:Hc.
    + destruct (Ascii.eqb c "013") eqn:Hcr.
      * destruct a' as [|d a''].
        -- exists []. cbn. split; [now left|]. split; [discriminate | reflexivity].
        -- cbn [append]. destruct (Ascii.eqb d "010").
           ++ destruct (IH a'' ltac:(cbn in Hlen; lia)) as (extra & Hextra & _ & Heq).
              exists extra. split; [assumption|]. split; [discriminate|].
              rewrite Heq. reflexivity.
           ++ destruct (IH (String d a'') ltac:(lia)) as (extra & Hextra & _ & Heq).
              exists extra. split; [assumption|]. split; [discriminate|].
              cbn [append] in Heq. rewrite Heq. reflexivity.
      * destruct (IH a' ltac:(lia)) as (extra & Hextra & _ & Heq).
        exists extra. split; [assumption|]. split; [discriminate|].
        rewrite Heq. reflexivity.
    + destruct (IH a' ltac:(lia)) as (extra & Hextra & Hnil & Heq).
      rewrite Heq. destruct (splitlines a') as [|l ls].
      * rewrite (Hnil eq_refl). exists []. cbn.
        split; [now left|]. split; [discriminate | reflexivity].
      * exists extra. split; [assumption|]. split; [discriminate | reflexivity].
Qed.

(** X11. Extraction works line by line: the entries of two texts joined by
    a line feed are the entries of the first followed by the entries of the
    second. *)
Theorem extraction_of_joined_texts :
  forall (sim : string -> string -> Q) (cat : list Row) (a b : string),
    EP.extract_products_and_quantities sim cat (a ++ String "010" b)
    = EP.extract_products_and_quantities sim cat a
      ++ EP.extract_products_and_quantities sim cat b.
Proof.
  intros sim cat a b. unfold EP.extract_products_and_quantities.
  rewrite !extract_lines_flat_map. cbn [app].
  destruct (splitlines_join_upto b (String.length a) a (le_n _)) as (extra & Hextra & _ & Heq).
  rewrite Heq, !flat_map_app.
  destruct Hextra as [-> | ->]; reflexivity.
Qed.

(** ** A text without digits *)

Lemma no_digit_no_entries sim (cat : list Row) (text : string) :
  all_chars (fun c => negb (isdigit c)) text = true ->
  EP.extract_products_and_quantities sim cat text = [].
Proof.
  intros Hall. unfold EP.extract_products_and_quantities.
  rewrite extract_lines_flat_map. cbn [app].
  pose proof (splitlines_chars _ text Hall) as Hlines.
  induction Hlines as [|line lines Hline _ IH]; [reflexivity|].
  cbn [flat_map]. rewrite IH, app_nil_r.
  unfold EP.extract_line. apply search_digits_none in Hline. now rewrite Hline.
Qed.

(** X12. An email whose text has no digit gives an order without items,
    with aggregate confidence 0 and with an empty list of validation
    issues; this covers the empty text. *)
Theorem order_of_text_without_digits :
  forall (sim : string -> string -> Q)
         (dateparser_parse : string -> option datetime)
         (search_dates : string -> option (list (string * datetime)))
         (now : datetime) (cat : list Row) (email : EmailContent),
    all_chars (fun c => negb (isdigit c)) (raw_content email) = true ->
    exists order,
      EP.process_email sim dateparser_parse search_dates now cat email = Ok order
      /\ items order = [] /\ total_confidence_score order = 0
      /\ order_validation_issues order = Some [].
Proof.
  intros sim dp sd now cat email Hall.
  destruct (process_email_ok sim dp sd now cat email) as (avg & _ & Hzero & Hrun).
  rewrite (no_digit_no_entries sim cat _ Hall) in Hrun, Hzero. cbn in Hrun, Hzero.
  eexists. split; [exact Hrun|]. cbn. rewrite (Hzero eq_refl). auto.
Qed.

Lemma order_of_text_without_digits_witness :
  all_chars (fun c => negb (isdigit c)) (raw_content (Sample.email_of "")) = true
  /\ exists order,
       EP.process_email Difflib.ratio Sample.no_parse Sample.no_search Sample.clock
                        Sample.catalog (Sample.email_of "") = Ok order
       /\ items order = [] /\ total_confidence_score order = 0
       /\ order_validation_issues order = Some [].
Proof.
  split; [reflexivity|].
  apply (order_of_text_without_digits Difflib.ratio Sample.no_parse Sample.no_search
           Sample.clock Sample.catalog (Sample.email_of "")).
  reflexivity.
Defined.

(** ** Validation, again *)

(** X13. For a product, the answer is valid exactly when the quantity lies
    between the minimum order quantity and the available stock, and there
    is one suggestion per issue; so a product whose minimum order quantity
    exceeds its stock has no valid quantity. *)
Theorem valid_iff_within_bounds :
  forall (cat : list Row) (p : Row) (q : Z),
    let '(is_valid, issues, suggestions) := EP.validate_against_catalog cat (Some p) q in
    (is_valid = true <-> (Min_Order_Quantity p <= q <= Available_in_Stock p)%Z)
    /\ length issues = length suggestions
    /\ (length issues <= 2)%nat.
Proof.
  intros cat p q. unfold EP.validate_against_catalog.
  destruct (q <? Min_Order_Quantity p)%Z eqn:Hm;
    destruct (q >? Available_in_Stock p)%Z eqn:Hs; cbn -[EP.moq_issue EP.stock_issue
                                                     EP.moq_suggestion EP.stock_suggestion].
  all: rewrite ?Z.ltb_lt, ?Z.ltb_ge in Hm.
  all: rewrite Z.gtb_ltb in Hs; rewrite ?Z.ltb_lt, ?Z.ltb_ge in Hs.
  all: repeat split; intros; try lia; try discriminate; auto.
Qed.

(** X14. Each suggestion names a quantity that removes its issue: ordering
    the minimum order quantity raises no MOQ issue and ordering the
    available stock raises no stock issue; when the minimum does not exceed
    the stock, both suggested quantities are valid. *)
Theorem suggested_quantities_are_accepted :
  forall (cat : list Row) (p : Row) (q : Z),
    let '(_, _, suggestions) := EP.validate_against_catalog cat (Some p) q in
    ((q < Min_Order_Quantity p)%Z -> In (EP.moq_suggestion p) suggestions)
    /\ ((q > Available_in_Stock p)%Z -> In (EP.stock_suggestion p) suggestions)
    /\ (let '(_, issues, _) :=
          EP.validate_against_catalog cat (Some p) (Min_Order_Quantity p) in
        existsb is_moq_issue issues = false)
    /\ (let '(_, issues, _) :=
          EP.validate_against_catalog cat (Some p) (Available_in_Stock p) in
        existsb is_stock_issue issues = false)
    /\ ((Min_Order_Quantity p <= Available_in_Stock p)%Z ->
        EP.validate_against_catalog cat (Some p) (Min_Order_Quantity p) = (true, [], [])
        /\ EP.validate_against_catalog cat (Some p) (Available_in_Stock p) = (true, [], [])).
Proof.
  intros cat p q.
  pose proof (stock_issue_kind (Min_Order_Quantity p) p) as [_ Hsm].
  pose proof (moq_issue_kind (Available_in_Stock p) p) as [_ Hms].
  unfold EP.validate_against_catalog.
  rewrite !Z.ltb_irrefl. rewrite (Z.gtb_ltb (Available_in_Stock p)), Z.ltb_irrefl.
  destruct (q <? Min_Order_Quantity p)%Z eqn:Hm;
    destruct (q >? Available_in_Stock p)%Z eqn:Hs;
    destruct (Min_Order_Quantity p >? Available_in_Stock p)%Z eqn:Hms';
    destruct (Available_in_Stock p <? Min_Order_Quantity p)%Z eqn:Hsm';
    cbn -[EP.moq_issue EP.stock_issue EP.moq_suggestion EP.stock_suggestion
          is_moq_issue is_stock_issue].
  all: rewrite ?Hsm, ?Hms.
  all: rewrite ?Z.ltb_lt, ?Z.ltb_ge in Hm, Hsm'.
  all: rewrite Z.gtb_ltb in Hs, Hms'; rewrite ?Z.ltb_lt, ?Z.ltb_ge in Hs, Hms'.
  all: repeat split; intros; try lia; try discriminate; auto.
Qed.

(** ** The assembled order *)

Lemma surviving_entry_facts sim (cat : list Row) (text : string) (entry : Extracted) :
  In entry (surviving (EP.extract_products_and_quantities sim cat text)) ->
  exists r qty extracted_name,
    entry = (Some r, qty, 1, extracted_name) /\ In r cat /\ (0 <= qty)%Z.
Proof.
  intros Hin. destruct (surviving_entry sim cat text entry Hin) as (Hext & Hc & _).
  unfold EP.extract_products_and_quantities in Hext.
  rewrite extract_lines_flat_map in Hext. cbn [app] in Hext.
  apply in_flat_map in Hext. destruct Hext as (line & _ & Hline).
  pose proof (extract_line_entry sim cat line entry Hline) as Hfacts.
  destruct entry as [[[product qty] confidence] extracted_name].
  destruct Hfacts as (_ & Hq & Hprod).
  unfold confidence_of in Hc. cbn in Hc. subst confidence.
  destruct product as [r|].
  - exists r, qty, extracted_name. destruct Hprod as (_ & Hr & _). auto.
  - destruct Hprod as (Hhalf & _). discriminate.
Qed.

Lemma item_for_matched (cat : list Row) (r : Row) (qty : Z) (confidence : Q) (nm : string) :
  let item := item_for cat (Some r, qty, confidence, nm) in
  sku item = Product_Code r /\ price item = Price r /\ quantity item = qty
  /\ confidence_score item = confidence
  /\ (validation_issues item = None
      <-> (Min_Order_Quantity r <= qty <= Available_in_Stock r)%Z)
  /\ (validation_issues item = None <-> suggested_replacements item = None)
  /\ (forall issues, validation_issues item = Some issues ->
        issues <> []
        /\ forall issue, In issue issues ->
                         is_moq_issue issue = true \/ is_stock_issue issue = true).
Proof.
  pose proof (moq_issue_kind qty r) as [Hmm _].
  pose proof (stock_issue_kind qty r) as [Hss _].
  unfold item_for, EP.validate_against_catalog.
  destruct (qty <? Min_Order_Quantity r)%Z eqn:Hm;
    destruct (qty >? Available_in_Stock r)%Z eqn:Hs;
    cbn -[EP.moq_issue EP.stock_issue EP.moq_suggestion EP.stock_suggestion
          is_moq_issue is_stock_issue].
  all: rewrite ?Z.ltb_lt, ?Z.ltb_ge in Hm.
  all: rewrite Z.gtb_ltb in Hs; rewrite ?Z.ltb_lt, ?Z.ltb_ge in Hs.
  all: repeat split; intros; try lia; try discriminate; auto.
  all: match goal with
       | H : Some _ = Some _ |- _ => injection H as <-
       end.
  all: try discriminate.
  all: match goal with
       | H : In _ _ |- _ => cbn [In] in H; intuition (subst; auto)
       end.
Qed.

(** X15. Every item of an order that [process_email] returns has
    confidence 1.0, a quantity that is not negative, the code and the price
    of a row of the catalog, and issues exactly when its quantity is
    outside that row's bounds, suggestions going along with issues; with
    at least one item the aggregate confidence is 1. *)
Theorem order_items_are_catalog_products :
  forall (sim : string -> string -> Q)
         (dateparser_parse : string -> option datetime)
         (search_dates : string -> option (list (string * datetime)))
         (now : datetime) (cat : list Row) (email : EmailContent) (order : Order),
    EP.process_email sim dateparser_parse search_dates now cat email = Ok order ->
    (forall item, In item (items order) ->
       confidence_score item = 1 /\ (0 <= quantity item)%Z
       /\ exists r, In r cat /\ sku item = Product_Code r /\ price item = Price r
                    /\ (validation_issues item = None
                        <-> (Min_Order_Quantity r <= quantity item
                             <= Available_in_Stock r)%Z)
                    /\ (validation_issues item = None
                        <-> suggested_replacements item = None))
    /\ (items order <> [] -> total_confidence_score order == 1).
Proof.
  intros sim dp sd now cat email order Hreturned.
  destruct (process_email_ok sim dp sd now cat email) as (avg & Hmean & _ & Hrun).
  rewrite Hrun in Hreturned. injection Hreturned as <-.
  cbn [items total_confidence_score]. split.
  - intros item Hin. apply in_map_iff in Hin. destruct Hin as (entry & <- & Hentry).
    destruct (surviving_entry_facts sim cat _ entry Hentry)
      as (r & qty & nm & -> & Hr & Hq).
    destruct (item_for_matched cat r qty 1 nm) as (Hsku & Hprice & Hqty & Hconf & Hiff & Hsugg & _).
    split; [assumption|]. split; [now rewrite Hqty|].
    exists r. rewrite Hqty. auto.
  - intros Hne. rewrite Hmean. apply mean_of_ones.
    + intros H. apply Hne. now apply map_eq_nil in H.
    + rewrite map_map. apply Forall_map. apply Forall_forall. intros entry Hentry.
      rewrite item_for_confidence.
      now apply (surviving_entry sim cat (raw_content email) entry).
Qed.

Lemma order_items_are_catalog_products_witness :
  exists order,
    EP.process_email Difflib.ratio Sample.no_parse Sample.no_search Sample.clock
                     Sample.catalog (Sample.email_of Sample.order_text)
    = Ok order
    /\ map sku (items order) = ["SW-100"]
    /\ map quantity (items order) = [10%Z]
    /\ (forall item, In item (items order) ->
          confidence_score item = 1 /\ (0 <= quantity item)%Z
          /\ exists r, In r Sample.catalog
                       /\ sku item = Product_Code r /\ price item = Price r
                       /\ (validation_issues item = None
                           <-> (Min_Order_Quantity r <= quantity item
                                <= Available_in_Stock r)%Z)
                       /\ (validation_issues item = None
                           <-> suggested_replacements item = None))
    /\ total_confidence_score order == 1.
Proof.
  assert (Hrun : exists order,
             EP.process_email Difflib.ratio Sample.no_parse Sample.no_search Sample.clock
                              Sample.catalog (Sample.email_of Sample.order_text)
             = Ok order
             /\ map sku (items order) = ["SW-100"]
             /\ map quantity (items order) = [10%Z]).
  { eexists. split; [vm_compute; reflexivity|]. split; reflexivity. }
  destruct Hrun as (order & Hrun & Hsku & Hquantity).
  exists order. split; [exact Hrun|]. split; [exact Hsku|]. split; [exact Hquantity|].
  destruct (order_items_are_catalog_products
              Difflib.ratio Sample.no_parse Sample.no_search Sample.clock
              Sample.catalog (Sample.email_of Sample.order_text) order Hrun)
    as [Hitems Hconfidence].
  split; [exact Hitems|].
  apply Hconfidence. intros Hnil. rewrite Hnil in Hsku. discriminate Hsku.
Defined.

(** X16. The validation issues of the order are the issues of its items,
    item after item; each is a below-MOQ or an exceeds-stock issue, so
    "Product not found in catalog" is never reported by [process_email]. *)
Theorem order_issues_are_item_issues :
  forall (sim : string -> string -> Q)
         (dateparser_parse : string -> option datetime)
         (search_dates : string -> option (list (string * datetime)))
         (now : datetime) (cat : list Row) (email : EmailContent),
  exists order,
    EP.process_email sim dateparser_parse search_dates now cat email = Ok order
    /\ order_validation_issues order
       = Some (flat_map (fun item => match validation_issues item with
                                     | Some issues => issues
                                     | None => []
                                     end) (items order))
    /\ forall issues issue,
         order_validation_issues order = Some issues -> In issue issues ->
         (is_moq_issue issue = true \/ is_stock_issue issue = true)
         /\ issue <> not_found_issue.
Proof.
  intros sim dp sd now cat email.
  destruct (process_email_ok sim dp sd now cat email) as (avg & _ & _ & Hrun).
  eexists. split; [exact Hrun|]. cbn [items order_validation_issues].
  split; [reflexivity|].
  intros issues issue [= <-] Hin. unfold EP.collect_issues in Hin.
  apply in_flat_map in Hin. destruct Hin as (item & Hitem & Hissue).
  apply in_map_iff in Hitem. destruct Hitem as (entry & <- & Hentry).
  destruct (surviving_entry_facts sim cat _ entry Hentry) as (r & qty & nm & -> & _ & _).
  destruct (item_for_matched cat r qty 1 nm) as (_ & _ & _ & _ & _ & _ & Hkinds).
  destruct (validation_issues (item_for cat (Some r, qty, 1, nm))) as [l|]; [|contradiction].
  destruct (Hkinds l eq_refl) as [_ Hkind].
  specialize (Hkind issue Hissue). split; [assumption|].
  intros ->. destruct Hkind as [H|H]; discriminate H.
Qed.

(** X17. An order that [process_email] returns is named "ORD-" followed by
    the compact receipt time (for a receipt year from 1000 on, which every
    C library writes with four digits), or "ORD-TEMP" without a receipt
    time; its customer is the sender, or "unknown@email.com" when the
    sender is absent or the empty string; it is pending, created at the
    current time, without delivery preferences. *)
Theorem order_identity_fields :
  forall (sim : string -> string -> Q)
         (dateparser_parse : string -> option datetime)
         (search_dates : string -> option (list (string * datetime)))
         (now : datetime) (cat : list Row) (email : EmailContent) (order : Order),
    EP.process_email sim dateparser_parse search_dates now cat email = Ok order ->
    (forall d, received_at email = Some d -> (1000 <= year d)%Z ->
               order_id order = ("ORD-" ++ strftime_compact d)%string)
    /\ (received_at email = None -> order_id order = "ORD-TEMP")
    /\ (forall s, sender email = Some s -> s <> EmptyString -> customer_email order = s)
    /\ (sender email = None \/ sender email = Some EmptyString ->
        customer_email order = "unknown@email.com")
    /\ status order = "pending" /\ created_at order = now
    /\ delivery_preferences order = None.
Proof.
  intros sim dp sd now cat email order Hreturned.
  destruct (process_email_ok sim dp sd now cat email) as (avg & _ & _ & Hrun).
  rewrite Hrun in Hreturned. injection Hreturned as <-.
  cbn [order_id customer_email status created_at delivery_preferences].
  repeat split.
  - intros d -> _. reflexivity.
  - intros ->. reflexivity.
  - intros s -> Hne. destruct s; [congruence | reflexivity].
  - intros [-> | ->]; reflexivity.
Qed.

Lemma order_identity_fields_witness :
  exists order,
    EP.process_email Difflib.ratio Sample.no_parse Sample.no_search Sample.clock
                     Sample.catalog (Sample.email_of Sample.order_text)
    = Ok order
    /\ order_id order = "ORD-20250601090500"
    /\ customer_email order = "unknown@email.com"
    /\ status order = "pending" /\ created_at order = Sample.clock
    /\ delivery_preferences order = None.
Proof.
  assert (Hrun : exists order,
             EP.process_email Difflib.ratio Sample.no_parse Sample.no_search Sample.clock
                              Sample.catalog (Sample.email_of Sample.order_text)
             = Ok order).
  { eexists. vm_compute. reflexivity. }
  destruct Hrun as (order & Hrun). exists order. split; [exact Hrun|].
  destruct (order_identity_fields
              Difflib.ratio Sample.no_parse Sample.no_search Sample.clock
              Sample.catalog (Sample.email_of Sample.order_text) order Hrun)
    as (Hid & _ & _ & Hcustomer & Hstatus & Hcreated & Hdelivery).
  split.
  - rewrite (Hid Sample.clock eq_refl); [reflexivity | cbn; lia].
  - split; [apply Hcustomer; left; reflexivity|].
    split; [exact Hstatus|]. split; [exact Hcreated | exact Hdelivery].
Defined.

(** The year of a receipt time before the year 1000 takes three
    characters of the order id. *)
Example order_id_of_an_early_receipt :
  exists order,
    EP.process_email Difflib.ratio Sample.no_parse Sample.no_search Sample.clock
                     Sample.catalog Cases.early_email
    = Ok order
    /\ order_id order = "ORD-9990102030405"
    /\ customer_email order = "ada@example.com".
Proof.
  eexists. split; [vm_compute; reflexivity|]. split; reflexivity.
Qed.

(** ** The product-name pattern *)

From Stdlib Require Import Permutation Sorted.

Lemma insert_by_len_perm (x : string) (l : list string) :
  Permutation (x :: l) (EP.insert_by_len x l).
Proof.
  induction l as [|y l IH]; cbn; [reflexivity|].
  destruct (String.length y <=? String.length x)%nat; [reflexivity|].
  rewrite perm_swap. now constructor.
Qed.

Lemma insert_by_len_sorted (x : string) (l : list string) :
  Sorted (fun a b => (String.length b <= String.length a)%nat) l ->
  Sorted (fun a b => (String.length b <= String.length a)%nat) (EP.insert_by_len x l).
Proof.
  induction 1 as [|y l Hl IH Hhd]; cbn.
  - repeat constructor.
  - destruct (String.length y <=? String.length x)%nat eqn:Hle.
    + apply Nat.leb_le in Hle. repeat constructor; assumption.
    + apply Nat.leb_gt in Hle. constructor; [assumption|].
      destruct l as [|z l]; cbn.
      * constructor. lia.
      * cbn in IH. destruct (String.length z <=? String.length x)%nat.
        -- constructor. lia.
        -- constructor. now inversion Hhd.
Qed.

Lemma insert_by_len_stable (n : nat) (x : string) (l : list string) :
  filter (fun s => (String.length s =? n)%nat) (EP.insert_by_len x l)
  = filter (fun s => (String.length s =? n)%nat) (x :: l).
Proof.
  induction l as [|y l IH]; [reflexivity|].
  cbn [EP.insert_by_len]. destruct (String.length y <=? String.length x)%nat eqn:Hle;
    [reflexivity|].
  apply Nat.leb_gt in Hle. cbn [filter] in *. rewrite IH.
  destruct (String.length x =? n)%nat eqn:Hx; [|reflexivity].
  apply Nat.eqb_eq in Hx.
  destruct (String.length y =? n)%nat eqn:Hy; [|reflexivity].
  apply Nat.eqb_eq in Hy. lia.
Qed.

(** X18. The alternatives of the product-name pattern are the escaped
    names, each once per occurrence, the longest first, and names of equal
    escaped length in catalog order. *)
Theorem name_pattern_alternatives :
  forall product_names : list string,
  exists alternatives,
    EP.build_product_name_regex product_names
    = ("(" ++ join "|" alternatives ++ ")")%string
    /\ Permutation (map EP.re_escape product_names) alternatives
    /\ Sorted (fun a b => (String.length b <= String.length a)%nat) alternatives
    /\ forall n, filter (fun s => (String.length s =? n)%nat) alternatives
                 = filter (fun s => (String.length s =? n)%nat)
                          (map EP.re_escape product_names).
Proof.
  intros product_names.
  exists (EP.sort_by_len_desc (map EP.re_escape product_names)).
  split; [reflexivity|].
  generalize (map EP.re_escape product_names). intros l.
  unfold EP.sort_by_len_desc.
  induction l as [|x l (Hperm & Hsorted & Hstable)]; cbn [fold_right].
  - repeat split; constructor.
  - split; [|split].
    + rewrite <- insert_by_len_perm. now constructor.
    + now apply insert_by_len_sorted.
    + intros n. rewrite insert_by_len_stable. cbn [filter]. now rewrite Hstable.
Qed.

(** * The order aggregator *)

(** ** Counters *)

Section CounterFacts.
Context {K : Type} (eqb : K -> K -> bool).
Hypothesis eqb_spec : forall a b, eqb a b = true <-> a = b.

Lemma eqb_same (a : K) : eqb a a = true.
Proof. now apply eqb_spec. Qed.

Lemma eqb_other (a b : K) : a <> b -> eqb a b = false.
Proof.
  intros Hne. destruct (eqb a b) eqn:H; [|reflexivity].
  apply eqb_spec in H. contradiction.
Qed.

Lemma count_of_add_to (key key' : K) (amount : Z) (d : Agg.Counter K) :
  Agg.count_of eqb key' (Agg.add_to eqb key amount d)
  = (Agg.count_of eqb key' d + if eqb key key' then amount else 0)%Z.
Proof.
  induction d as [|[k v] d IH]; cbn [Agg.add_to Agg.count_of].
  - destruct (eqb key key'); lia.
  - destruct (eqb k key) eqn:Hk; cbn [Agg.count_of].
    + apply eqb_spec in Hk. subst k. destruct (eqb key key'); lia.
    + destruct (eqb k key') eqn:Hk'; [|exact IH].
      apply eqb_spec in Hk'. subst k.
      rewrite (eqb_other key key'); [lia|].
      intros ->. rewrite eqb_same in Hk. discriminate.
Qed.

Lemma count_of_add_all (key : K) (entries : list (K * Z)) :
  forall d, Agg.count_of eqb key (Agg.add_all eqb entries d)
            = (Agg.count_of eqb key d + Agg.written_for eqb key entries)%Z.
Proof.
  unfold Agg.add_all.
  induction entries as [|[k amount] entries IH]; intros d; cbn [fold_left Agg.written_for fst snd].
  - lia.
  - rewrite IH, count_of_add_to. lia.
Qed.

Lemma keys_add_to (key : K) (amount : Z) (d : Agg.Counter K) :
  map fst (Agg.add_to eqb key amount d)
  = if existsb (fun k => eqb k key) (map fst d) then map fst d
    else map fst d ++ [key].
Proof.
  induction d as [|[k v] d IH]; cbn [Agg.add_to map existsb fst app]; [reflexivity|].
  destruct (eqb k key) eqn:Hk; cbn [map fst orb]; [reflexivity|].
  rewrite IH. destruct (existsb _ (map fst d)); reflexivity.
Qed.

Lemma nodup_add_to (key : K) (amount : Z) (d : Agg.Counter K) :
  NoDup (map fst d) -> NoDup (map fst (Agg.add_to eqb key amount d)).
Proof.
  intros Hnd. rewrite keys_add_to.
  destruct (existsb (fun k => eqb k key) (map fst d)) eqn:Hex; [assumption|].
  apply NoDup_app; [assumption | repeat constructor; intros [] |].
  intros k Hk [Heq|[]].
  assert (Htrue : existsb (fun k0 => eqb k0 key) (map fst d) = true).
  { apply existsb_exists. exists k. split; [assumption|]. now apply eqb_spec. }
  congruence.
Qed.

Lemma in_keys_add_to (key k : K) (amount : Z) (d : Agg.Counter K) :
  In k (map fst (Agg.add_to eqb key amount d)) <-> k = key \/ In k (map fst d).
Proof.
  rewrite keys_add_to.
  destruct (existsb (fun k0 => eqb k0 key) (map fst d)) eqn:Hex.
  - apply existsb_exists in Hex. destruct Hex as (k0 & Hin & Heq).
    apply eqb_spec in Heq. subst k0. split; [auto | intros [->|H]; auto].
  - rewrite in_app_iff. cbn. intuition.
Qed.

Lemma nodup_add_all (entries : list (K * Z)) :
  forall d, NoDup (map fst d) -> NoDup (map fst (Agg.add_all eqb entries d)).
Proof.
  unfold Agg.add_all.
  induction entries as [|e entries IH]; intros d Hnd; cbn [fold_left]; [assumption|].
  apply IH. now apply nodup_add_to.
Qed.

Lemma in_keys_add_all (k : K) (entries : list (K * Z)) :
  forall d, In k (map fst (Agg.add_all eqb entries d))
            <-> In k (map fst entries) \/ In k (map fst d).
Proof.
  unfold Agg.add_all.
  induction entries as [|e entries IH]; intros d; cbn [fold_left map In].
  - tauto.
  - rewrite IH, in_keys_add_to. intuition.
Qed.

Lemma in_counter (k : K) (v : Z) (d : Agg.Counter K) :
  NoDup (map fst d) ->
  (In (k, v) d <-> In k (map fst d) /\ Agg.count_of eqb k d = v).
Proof.
  induction d as [|[k0 v0] d IH]; cbn [map fst In Agg.count_of]; intros Hnd.
  - tauto.
  - inversion Hnd as [|? ? Hnotin Hnd']; subst. specialize (IH Hnd').
    destruct (eqb k0 k) eqn:Hk.
    + apply eqb_spec in Hk. subst k0. split.
      * intros [[= <-]|Hin]; [auto|]. exfalso. apply Hnotin.
        now apply (in_map fst) in Hin.
      * intros [_ <-]. now left.
    + assert (Hne : k0 <> k) by (intros ->; rewrite eqb_same in Hk; discriminate).
      split.
      * intros [[= -> _]|Hin]; [contradiction|]. apply IH in Hin. tauto.
      * intros [[->|Hin] Hv]; [contradiction|]. right. apply IH. auto.
Qed.
End CounterFacts.

(** ** Adding orders *)

Lemma string_eqb_iff (a b : string) : String.eqb a b = true <-> a = b.
Proof. apply String.eqb_eq. Qed.

Lemma add_all_app {K : Type} (eqb : K -> K -> bool) (a b : list (K * Z)) (d : Agg.Counter K) :
  Agg.add_all eqb (a ++ b) d = Agg.add_all eqb b (Agg.add_all eqb a d).
Proof. unfold Agg.add_all. apply fold_left_app. Qed.

Lemma add_orders_state (week_key_of : string -> option string)
      (new_orders : list Agg.OrderRequest) :
  forall st,
    let st' := Agg.add_orders week_key_of st new_orders in
    Agg.orders st' = Agg.orders st ++ new_orders
    /\ Agg.product_patterns st'
       = Agg.add_all String.eqb (flat_map Agg.item_amounts new_orders)
                     (Agg.product_patterns st)
    /\ Agg.customer_patterns st'
       = Agg.add_all String.eqb (map (fun o => (Agg.customer_key o, 1%Z)) new_orders)
                     (Agg.customer_patterns st)
    /\ Agg.time_patterns st'
       = Agg.add_all String.eqb (flat_map (AggSpec.week_entries week_key_of) new_orders)
                     (Agg.time_patterns st).
Proof.
  unfold Agg.add_orders.
  induction new_orders as [|order new_orders IH]; intros st; cbn [fold_left flat_map map].
  - rewrite app_nil_r. auto.
  - destruct (IH (fst (Agg.add_order week_key_of st order))) as (Ho & Hp & Hc & Ht).
    cbv zeta. rewrite Ho, Hp, Hc, Ht. rewrite !add_all_app.
    unfold Agg.add_order, Agg.update_patterns, AggSpec.week_entries.
    destruct (week_key_of (Agg.date (Agg.delivery_details order)));
      cbn [fst Agg.orders Agg.product_patterns Agg.customer_patterns Agg.time_patterns];
      rewrite <- app_assoc; auto.
Qed.

Lemma written_for_ones {A : Type} (f : A -> string) (key : string) (l : list A) :
  Agg.written_for String.eqb key (map (fun x => (f x, 1%Z)) l)
  = Z.of_nat (length (filter (fun x => String.eqb (f x) key) l)).
Proof.
  induction l as [|x l IH]; cbn [map Agg.written_for filter]; [reflexivity|].
  rewrite IH. destruct (String.eqb (f x) key); cbn [length]; lia.
Qed.

Lemma written_for_weeks (week_key_of : string -> option string) (week : string)
      (l : list Agg.OrderRequest) :
  Agg.written_for String.eqb week (flat_map (AggSpec.week_entries week_key_of) l)
  = Z.of_nat (length (AggSpec.orders_in_week week_key_of week l)).
Proof.
  unfold AggSpec.orders_in_week.
  induction l as [|o l IH]; cbn [flat_map filter]; [reflexivity|].
  unfold AggSpec.week_entries at 1.
  destruct (week_key_of (Agg.date (Agg.delivery_details o))) as [w|];
    cbn [app Agg.written_for]; rewrite IH; [|reflexivity].
  destruct (String.eqb w week); cbn [length]; lia.
Qed.

Lemma written_for_app {K : Type} (eqb : K -> K -> bool) (key : K) (a b : list (K * Z)) :
  Agg.written_for eqb key (a ++ b)
  = (Agg.written_for eqb key a + Agg.written_for eqb key b)%Z.
Proof.
  induction a as [|[k v] a IH]; cbn [app Agg.written_for]; [reflexivity|].
  rewrite IH. lia.
Qed.

Lemma written_for_items (s : string) (l : list Agg.OrderRequest) :
  Agg.written_for String.eqb s (flat_map Agg.item_amounts l)
  = AggSpec.ordered_quantity s l.
Proof.
  unfold AggSpec.ordered_quantity.
  induction l as [|o l IH]; cbn [flat_map]; [reflexivity|].
  rewrite written_for_app, IH, filter_app, map_app, fold_right_app.
  unfold Agg.item_amounts. generalize (Agg.items o). intros its.
  induction its as [|it its IHi]; cbn [map Agg.written_for filter fold_right]; [lia|].
  destruct (String.eqb (sku it) s); cbn [map fold_right]; lia.
Qed.

(** X19. After any run of [add_order] from a new aggregator, exceptions
    included, the aggregator holds the orders in the order given, each
    counter has one entry per key, the product counter holds for every SKU
    the quantity ordered over all orders, the customer counter the number
    of orders of each customer key, and the week counter the number of
    orders whose delivery date could be read for that week. *)
Theorem aggregator_counts :
  forall (week_key_of : string -> option string) (new_orders : list Agg.OrderRequest),
    let st := Agg.add_orders week_key_of Agg.init new_orders in
    Agg.orders st = new_orders
    /\ NoDup (map fst (Agg.product_patterns st))
    /\ NoDup (map fst (Agg.customer_patterns st))
    /\ NoDup (map fst (Agg.time_patterns st))
    /\ (forall s, Agg.count_of String.eqb s (Agg.product_patterns st)
                  = AggSpec.ordered_quantity s new_orders)
    /\ (forall key, Agg.count_of String.eqb key (Agg.customer_patterns st)
                    = Z.of_nat (length (AggSpec.orders_with_key key new_orders)))
    /\ (forall week, Agg.count_of String.eqb week (Agg.time_patterns st)
                     = Z.of_nat (length (AggSpec.orders_in_week week_key_of week new_orders))).
Proof.
  intros week_key_of new_orders st.
  destruct (add_orders_state week_key_of new_orders Agg.init) as (Ho & Hp & Hc & Ht).
  fold st in Ho, Hp, Hc, Ht. cbn [Agg.init Agg.orders Agg.product_patterns
                                   Agg.customer_patterns Agg.time_patterns app] in *.
  rewrite Ho, Hp, Hc, Ht.
  split; [reflexivity|].
  split; [apply (nodup_add_all String.eqb string_eqb_iff); constructor|].
  split; [apply (nodup_add_all String.eqb string_eqb_iff); constructor|].
  split; [apply (nodup_add_all String.eqb string_eqb_iff); constructor|].
  split; [|split].
  - intros s. rewrite (count_of_add_all String.eqb string_eqb_iff). cbn [Agg.count_of].
    now rewrite written_for_items.
  - intros key. rewrite (count_of_add_all String.eqb string_eqb_iff). cbn [Agg.count_of].
    now rewrite written_for_ones.
  - intros week. rewrite (count_of_add_all String.eqb string_eqb_iff). cbn [Agg.count_of].
    now rewrite written_for_weeks.
Qed.

(** X20. [add_order] raises [ValueError] exactly when the delivery date
    cannot be read; the order is then already stored, and counted for its
    products and its customer, and only the week counter is left as it
    was. *)
Theorem add_order_with_unreadable_date :
  forall (week_key_of : string -> option string) (st : Agg.State)
         (order : Agg.OrderRequest),
    let '(st', raised) := Agg.add_order week_key_of st order in
    (raised = Some (Agg.ValueError (Agg.date (Agg.delivery_details order)))
     <-> week_key_of (Agg.date (Agg.delivery_details order)) = None)
    /\ (raised = None
        <-> exists w, week_key_of (Agg.date (Agg.delivery_details order)) = Some w)
    /\ Agg.orders st' = Agg.orders st ++ [order]
    /\ Agg.count_of String.eqb (Agg.customer_key order) (Agg.customer_patterns st')
       = (Agg.count_of String.eqb (Agg.customer_key order) (Agg.customer_patterns st) + 1)%Z
    /\ (forall s, Agg.count_of String.eqb s (Agg.product_patterns st')
                  = (Agg.count_of String.eqb s (Agg.product_patterns st)
                     + AggSpec.ordered_quantity s [order])%Z)
    /\ (raised <> None -> Agg.time_patterns st' = Agg.time_patterns st).
Proof.
  intros week_key_of st order.
  unfold Agg.add_order, Agg.update_patterns.
  destruct (week_key_of (Agg.date (Agg.delivery_details order))) as [w|];
    cbn [Agg.orders Agg.product_patterns Agg.customer_patterns Agg.time_patterns].
  all: rewrite (count_of_add_to String.eqb string_eqb_iff), String.eqb_refl.
  all: repeat split; try discriminate; try congruence; eauto.
  all: try (intros [w' Hw']; discriminate).
  all: try (intros s; rewrite (count_of_add_all String.eqb string_eqb_iff);
            rewrite <- written_for_items; cbn [flat_map]; now rewrite app_nil_r).
Qed.

(** ** Products ordered together *)

Lemma pair_eqb_iff (p q : string * string) : Agg.pair_eqb p q = true <-> p = q.
Proof.
  destruct p as [a b], q as [c d]. unfold Agg.pair_eqb. cbn [fst snd].
  rewrite andb_true_iff, !String.eqb_eq. split; [intros [-> ->] | intros [= -> ->]]; auto.
Qed.

Lemma written_for_units {K : Type} (eqb : K -> K -> bool) (key : K) (l : list K) :
  Agg.written_for eqb key (map (fun x => (x, 1%Z)) l)
  = Z.of_nat (length (filter (fun x => eqb x key) l)).
Proof.
  induction l as [|x l IH]; cbn [map Agg.written_for filter]; [reflexivity|].
  rewrite IH. destruct (eqb x key); cbn [length]; lia.
Qed.

Lemma string_ltb_leb (a b : string) : String.ltb a b = true -> String.leb a b = true.
Proof. unfold String.ltb, String.leb. destruct (String.compare a b); congruence. Qed.

Lemma sorted_pair_ordered (a b : string) :
  String.leb (fst (Agg.sorted_pair a b)) (snd (Agg.sorted_pair a b)) = true.
Proof.
  unfold Agg.sorted_pair. destruct (String.ltb b a) eqn:H; cbn [fst snd].
  - now apply string_ltb_leb.
  - now apply string_not_ltb_leb.
Qed.

Lemma pairs_of_ordered (skus : list string) (pair : string * string) :
  In pair (Agg.pairs_of skus) -> String.leb (fst pair) (snd pair) = true.
Proof.
  induction skus as [|s rest IH]; cbn [Agg.pairs_of]; [intros []|].
  rewrite in_app_iff, in_map_iff. intros [(t & <- & _)|H]; [|auto].
  apply sorted_pair_ordered.
Qed.

(** X21. [get_common_products] lists each SKU pair of some order once, the
    smaller SKU first, with the number of times the pair occurs over all
    orders, and lists exactly the pairs that occur at least
    [min_occurrences] times. *)
Theorem common_products_counts :
  forall (st : Agg.State) (min_occurrences : Z),
    let pairs := AggSpec.all_pairs (Agg.orders st) in
    NoDup (map fst (Agg.get_common_products st min_occurrences))
    /\ forall pair n,
         In (pair, n) (Agg.get_common_products st min_occurrences)
         <-> In pair pairs /\ n = AggSpec.occurrences pair pairs
             /\ (min_occurrences <= n)%Z
             /\ String.leb (fst pair) (snd pair) = true.
Proof.
  intros st min_occurrences pairs. unfold Agg.get_common_products.
  assert (Hentries :
            flat_map (fun order => map (fun pair => (pair, 1%Z))
                                       (Agg.pairs_of (map sku (Agg.items order))))
                     (Agg.orders st)
            = map (fun pair => (pair, 1%Z)) pairs).
  { unfold pairs, AggSpec.all_pairs.
    induction (Agg.orders st) as [|o l IH]; cbn [flat_map]; [reflexivity|].
    now rewrite map_app, IH. }
  rewrite Hentries.
  set (counter := Agg.add_all Agg.pair_eqb (map (fun pair => (pair, 1%Z)) pairs) []).
  assert (Hnd : NoDup (map fst counter)).
  { apply (nodup_add_all Agg.pair_eqb pair_eqb_iff). constructor. }
  assert (Hkeys : forall pair, In pair (map fst counter) <-> In pair pairs).
  { intros pair. unfold counter.
    rewrite (in_keys_add_all Agg.pair_eqb pair_eqb_iff), map_map. cbn [fst map In].
    rewrite map_id. tauto. }
  assert (Hcount : forall pair, Agg.count_of Agg.pair_eqb pair counter
                                = AggSpec.occurrences pair pairs).
  { intros pair. unfold counter.
    rewrite (count_of_add_all Agg.pair_eqb pair_eqb_iff). cbn [Agg.count_of].
    now rewrite written_for_units. }
  split.
  - clear - Hnd. induction counter as [|[p v] counter IH]; cbn [filter map]; [constructor|].
    inversion Hnd as [|? ? Hnotin Hnd']; subst.
    destruct (min_occurrences <=? snd (p, v))%Z; [|now apply IH].
    cbn [map fst]. constructor; [|now apply IH].
    intros Hin. apply Hnotin. apply in_map_iff in Hin. destruct Hin as (e & He & Hin).
    apply filter_In in Hin. destruct Hin as [Hin _]. rewrite <- He. now apply in_map.
  - intros pair n. rewrite filter_In. cbn [snd].
    rewrite (in_counter Agg.pair_eqb pair_eqb_iff pair n counter Hnd), Hkeys, Hcount.
    rewrite Z.leb_le. split.
    + intros [[Hin <-] Hmin]. repeat split; auto.
      unfold pairs, AggSpec.all_pairs in Hin. apply in_flat_map in Hin.
      destruct Hin as (o & _ & Hin). now apply pairs_of_ordered in Hin.
    + intros (Hin & -> & Hmin & _). auto.
Qed.

(** ** Merging orders *)

Lemma string_leb_refl (a : string) : String.leb a a = true.
Proof. apply string_not_ltb_leb. apply string_ltb_irrefl. Qed.

Lemma string_leb_not_ltb (a b : string) : String.leb a b = true -> String.ltb b a = false.
Proof.
  unfold String.leb, String.ltb. rewrite (String.compare_antisym b a).
  destruct (String.compare a b); cbn; congruence.
Qed.

Lemma string_leb_trans (a b c : string) :
  String.leb a b = true -> String.leb b c = true -> String.leb a c = true.
Proof.
  intros Hab Hbc. apply string_not_ltb_leb.
  destruct (String.ltb c a) eqn:Hca; [|reflexivity].
  destruct (string_lt_cotrans c b a Hca) as [H|H].
  - apply string_leb_not_ltb in Hbc. congruence.
  - apply string_leb_not_ltb in Hab. congruence.
Qed.

Lemma max_string_spec (others : list string) :
  forall first,
    In (Agg.max_string first others) (first :: others)
    /\ forall s, In s (first :: others) ->
                 String.leb s (Agg.max_string first others) = true.
Proof.
  unfold Agg.max_string.
  induction others as [|x others IH]; intros first; cbn [fold_left].
  - split; [now left|]. intros s [<-|[]]. apply string_leb_refl.
  - destruct (IH (if String.ltb first x then x else first)) as [Hin Hmax].
    split.
    + destruct Hin as [Hin|Hin]; [|right; now right].
      rewrite <- Hin. destruct (String.ltb first x); [right; now left | now left].
    + intros s [Hs|[Hs|Hs]].
      * subst s. destruct (String.ltb first x) eqn:Hlt.
        -- apply string_leb_trans with x; [now apply string_ltb_leb|].
           apply Hmax. now left.
        -- apply Hmax. now left.
      * subst s. destruct (String.ltb first x) eqn:Hlt.
        -- apply Hmax. now left.
        -- apply string_leb_trans with first; [now apply string_not_ltb_leb|].
           apply Hmax. now left.
      * apply Hmax. now right.
Qed.

(** X22. [merge_orders] answers with the error exactly when no stored order
    has one of the given ids.  Otherwise the merged items hold each SKU of
    the selected orders once, with the quantity ordered of it over those
    orders; the delivery date is that of a selected order, and none of them
    has a greater one; the original orders are the selected ones, in the
    order they were stored. *)
Theorem merge_orders_result :
  forall (st : Agg.State) (order_ids : list string),
    let selected :=
      filter (fun order => existsb (String.eqb (Agg.id order)) order_ids)
             (Agg.orders st) in
    match Agg.merge_orders st order_ids with
    | Agg.MergeError message =>
        message = "No orders found with the provided IDs"
        /\ forall order, In order (Agg.orders st) -> ~ In (Agg.id order) order_ids
    | Agg.Merged merged_items delivery_date _ original_orders =>
        selected <> []
        /\ NoDup (map fst merged_items)
        /\ (forall s, In s (map fst merged_items)
                      <-> In s (map sku (flat_map Agg.items selected)))
        /\ (forall s, Agg.count_of String.eqb s merged_items
                      = AggSpec.ordered_quantity s selected)
        /\ In delivery_date
              (map (fun order => Agg.date (Agg.delivery_details order)) selected)
        /\ (forall order, In order selected ->
              String.leb (Agg.date (Agg.delivery_details order)) delivery_date = true)
        /\ original_orders
           = map (fun order => (Agg.id order, Agg.customer_name order,
                                Agg.date (Agg.delivery_details order))) selected
    end.
Proof.
  intros st order_ids selected. unfold Agg.merge_orders. fold selected.
  destruct selected as [|first others] eqn:Hsel.
  - split; [reflexivity|]. intros order Hin Hid.
    assert (Hs : In order selected).
    { unfold selected. apply filter_In. split; [assumption|].
      apply existsb_exists. exists (Agg.id order). split; [assumption|].
      apply String.eqb_refl. }
    rewrite Hsel in Hs. destruct Hs.
  - rewrite <- Hsel.
    split; [rewrite Hsel; discriminate|].
    split; [apply (nodup_add_all String.eqb string_eqb_iff); constructor|].
    split.
    { intros s. rewrite (in_keys_add_all String.eqb string_eqb_iff). cbn [map In].
      unfold Agg.item_amounts.
      assert (Heq : map fst (flat_map (fun order => map (fun item => (sku item, quantity item))
                                                       (Agg.items order)) selected)
                    = map sku (flat_map Agg.items selected)).
      { clear. induction selected as [|o l IH]; cbn [flat_map]; [reflexivity|].
        rewrite !map_app, IH, map_map. reflexivity. }
      rewrite Heq. tauto. }
    split.
    { intros s. rewrite (count_of_add_all String.eqb string_eqb_iff). cbn [Agg.count_of].
      now rewrite written_for_items. }
    destruct (max_string_spec
                (map (fun order => Agg.date (Agg.delivery_details order)) others)
                (Agg.date (Agg.delivery_details first))) as [Hin Hmax].
    rewrite Hsel. cbn [map].
    split; [exact Hin|]. split; [|reflexivity].
    intros order Ho. apply Hmax.
    exact (in_map (fun o => Agg.date (Agg.delivery_details o)) (first :: others) order Ho).
Qed.

(** ** Customer insights *)

Lemma split_underscore_inv (key name rest : string) :
  Agg.split_underscore key = Some (name, rest) ->
  all_chars (fun c => negb (Ascii.eqb c "_")) name = true
  /\ key = (name ++ "_" ++ rest)%string.
Proof.
  revert name. induction key as [|c key IH]; intros name; cbn [Agg.split_underscore];
    [discriminate|].
  destruct (Ascii.eqb c "_") eqn:Hc.
  - intros [= <- <-]. apply Ascii.eqb_eq in Hc. subst c. auto.
  - destruct (Agg.split_underscore key) as [[n r]|]; [|discriminate].
    intros [= <- <-]. destruct (IH n eq_refl) as [Hn ->].
    cbn [all_chars]. rewrite Hc, Hn. auto.
Qed.

Lemma split_underscore_join (name rest : string) :
  all_chars (fun c => negb (Ascii.eqb c "_")) name = true ->
  Agg.split_underscore (name ++ "_" ++ rest) = Some (name, rest).
Proof.
  induction name as [|c name IH]; intros H; [reflexivity|].
  cbn [all_chars] in H. apply andb_prop in H. destruct H as [Hc Hname].
  apply negb_true_iff in Hc.
  change (String c name ++ "_" ++ rest)%string with (String c (name ++ "_" ++ rest)).
  cbn [Agg.split_underscore]. rewrite Hc, (IH Hname). reflexivity.
Qed.

Lemma split_underscore_total (name rest : string) :
  exists n r, Agg.split_underscore (name ++ "_" ++ rest) = Some (n, r).
Proof.
  induction name as [|c name (n & r & IH)].
  - exists EmptyString, rest. reflexivity.
  - change (String c name ++ "_" ++ rest)%string with (String c (name ++ "_" ++ rest)).
    cbn [Agg.split_underscore].
    destruct (Ascii.eqb c "_"); [eauto|]. rewrite IH. eauto.
Qed.

(** X23. The customer key of an order can always be unpacked at its first
    underscore, and it is read back as the name and the address of the
    order exactly when the name has no underscore. *)
Theorem customer_key_round_trip :
  forall order : Agg.OrderRequest,
  exists name addr,
    Agg.split_underscore (Agg.customer_key order) = Some (name, addr)
    /\ ((name, addr) = (Agg.customer_name order, Agg.address (Agg.delivery_details order))
        <-> all_chars (fun c => negb (Ascii.eqb c "_")) (Agg.customer_name order) = true).
Proof.
  intros order. unfold Agg.customer_key.
  destruct (split_underscore_total (Agg.customer_name order)
                                   (Agg.address (Agg.delivery_details order)))
    as (n & r & Hsplit).
  exists n, r. split; [assumption|]. split.
  - intros [= -> ->]. now apply split_underscore_inv in Hsplit.
  - intros Hname. rewrite (split_underscore_join _ _ Hname) in Hsplit. congruence.
Qed.

Lemma customer_key_injective (o o' : Agg.OrderRequest) :
  all_chars (fun c => negb (Ascii.eqb c "_")) (Agg.customer_name o) = true ->
  all_chars (fun c => negb (Ascii.eqb c "_")) (Agg.customer_name o') = true ->
  Agg.customer_key o' = Agg.customer_key o ->
  Agg.customer_name o' = Agg.customer_name o
  /\ Agg.address (Agg.delivery_details o') = Agg.address (Agg.delivery_details o).
Proof.
  intros Ho Ho' Hkey. unfold Agg.customer_key in Hkey.
  pose proof (split_underscore_join _ (Agg.address (Agg.delivery_details o)) Ho) as H.
  pose proof (split_underscore_join _ (Agg.address (Agg.delivery_details o')) Ho') as H'.
  rewrite Hkey in H'. rewrite H in H'. now injection H'.
Qed.

Lemma customer_counter_facts (week_key_of : string -> option string)
      (new_orders : list Agg.OrderRequest) :
  let st := Agg.add_orders week_key_of Agg.init new_orders in
  Agg.orders st = new_orders
  /\ NoDup (map fst (Agg.customer_patterns st))
  /\ (forall key, In key (map fst (Agg.customer_patterns st))
                  <-> In key (map Agg.customer_key new_orders))
  /\ (forall key, Agg.count_of String.eqb key (Agg.customer_patterns st)
                  = Z.of_nat (length (AggSpec.orders_with_key key new_orders))).
Proof.
  intros st.
  destruct (add_orders_state week_key_of new_orders Agg.init) as (Ho & _ & Hc & _).
  fold st in Ho, Hc. cbn [Agg.init Agg.orders Agg.customer_patterns app] in *.
  rewrite Ho, Hc. split; [reflexivity|].
  split; [apply (nodup_add_all String.eqb string_eqb_iff); constructor|].
  split.
  - intros key. rewrite (in_keys_add_all String.eqb string_eqb_iff), map_map.
    cbn [fst map In]. tauto.
  - intros key. rewrite (count_of_add_all String.eqb string_eqb_iff). cbn [Agg.count_of].
    now rewrite written_for_ones.
Qed.

Lemma Forall2_in_left {A B : Type} (R : A -> B -> Prop) (l : list A) (l' : list B) (x : A) :
  Forall2 R l l' -> In x l -> exists y, In y l' /\ R x y.
Proof.
  induction 1 as [|a b l l' Hab _ IH]; intros Hin; [destruct Hin|].
  destruct Hin as [<-|Hin].
  - exists b. split; [now left | assumption].
  - destruct (IH Hin) as (y & Hy & Hxy). exists y. split; [now right | assumption].
Qed.

Lemma Forall2_in_right {A B : Type} (R : A -> B -> Prop) (l : list A) (l' : list B) (y : B) :
  Forall2 R l l' -> In y l' -> exists x, In x l /\ R x y.
Proof.
  induction 1 as [|a b l l' Hab _ IH]; intros Hin; [destruct Hin|].
  destruct Hin as [<-|Hin].
  - exists a. split; [now left | assumption].
  - destruct (IH Hin) as (x & Hx & Hxy). exists x. split; [now right | assumption].
Qed.

Lemma customer_insights_of_ok (true_div : Z -> Z -> option Q) (st : Agg.State)
      (entries : Agg.Counter string) :
  Forall (fun entry => exists insight,
              Agg.customer_insight true_div st (fst entry) (snd entry) = inr insight)
         entries ->
  exists insights,
    Agg.customer_insights_of true_div st entries = inr insights
    /\ Forall2 (fun entry insight =>
                  Agg.customer_insight true_div st (fst entry) (snd entry) = inr insight)
               entries insights.
Proof.
  induction 1 as [|[key count] entries (insight & Hinsight) _ (insights & Hrest & Hall)];
    cbn [Agg.customer_insights_of].
  - exists []. split; [reflexivity | constructor].
  - cbn [fst snd] in Hinsight. rewrite Hinsight, Hrest.
    exists (insight :: insights). split; [reflexivity|]. now constructor.
Qed.

(** X24. When no customer name has an underscore and the average of every
    customer is within the floats, [get_customer_insights] on an
    aggregator that was given a list of orders returns one insight per
    customer (name and address) of those orders; its order count is the
    number of orders of that customer, which is positive, its item total
    is the sum of their item quantities, and its average is what the
    division of the total by the count gives. *)
Theorem customer_insights_per_customer :
  forall (week_key_of : string -> option string) (true_div : Z -> Z -> option Q)
         (new_orders : list Agg.OrderRequest),
    (forall order, In order new_orders ->
       all_chars (fun c => negb (Ascii.eqb c "_")) (Agg.customer_name order) = true) ->
    (forall order, In order new_orders ->
       let theirs := AggSpec.orders_of_customer (Agg.customer_name order)
                                                (Agg.address (Agg.delivery_details order))
                                                new_orders in
       true_div (AggSpec.item_total theirs) (Z.of_nat (length theirs)) <> None) ->
    exists insights,
      Agg.get_customer_insights true_div (Agg.add_orders week_key_of Agg.init new_orders)
      = inr insights
      /\ (forall order, In order new_orders ->
            exists insight,
              In insight insights
              /\ Agg.insight_customer_name insight = Agg.customer_name order
              /\ Agg.insight_address insight = Agg.address (Agg.delivery_details order))
      /\ (forall insight, In insight insights ->
            let theirs := AggSpec.orders_of_customer (Agg.insight_customer_name insight)
                                                     (Agg.insight_address insight)
                                                     new_orders in
            theirs <> []
            /\ Agg.order_count insight = Z.of_nat (length theirs)
            /\ Agg.total_items insight = AggSpec.item_total theirs
            /\ true_div (Agg.total_items insight) (Agg.order_count insight)
               = Some (Agg.average_items_per_order insight)).
Proof.
  intros week_key_of true_div new_orders Hnames Hdiv.
  pose proof (customer_counter_facts week_key_of new_orders) as (Horders & Hnd & Hkeys & Hcount).
  unfold Agg.get_customer_insights.
  set (st := Agg.add_orders week_key_of Agg.init new_orders) in *.
  (* what one entry of the customer counter gives *)
  assert (Hentry : forall key count, In (key, count) (Agg.customer_patterns st) ->
            exists o average, In o new_orders /\ key = Agg.customer_key o
              /\ Agg.customer_insight true_div st key count
                 = inr {| Agg.insight_customer_name := Agg.customer_name o;
                          Agg.insight_address := Agg.address (Agg.delivery_details o);
                          Agg.order_count := count;
                          Agg.total_items :=
                            AggSpec.item_total
                              (AggSpec.orders_of_customer
                                 (Agg.customer_name o)
                                 (Agg.address (Agg.delivery_details o)) new_orders);
                          Agg.average_items_per_order := average |}
              /\ true_div (AggSpec.item_total
                             (AggSpec.orders_of_customer
                                (Agg.customer_name o)
                                (Agg.address (Agg.delivery_details o)) new_orders))
                          count
                 = Some average
              /\ count = Z.of_nat (length (AggSpec.orders_of_customer
                                             (Agg.customer_name o)
                                             (Agg.address (Agg.delivery_details o))
                                             new_orders))
              /\ (0 < count)%Z).
  { intros key count Hin.
    apply (in_counter String.eqb string_eqb_iff key count _ Hnd) in Hin.
    destruct Hin as [Hkey Hc]. apply Hkeys in Hkey.
    apply in_map_iff in Hkey. destruct Hkey as (o & <- & Ho).
    assert (Hsame : AggSpec.orders_with_key (Agg.customer_key o) new_orders
                    = AggSpec.orders_of_customer (Agg.customer_name o)
                        (Agg.address (Agg.delivery_details o)) new_orders).
    { unfold AggSpec.orders_with_key, AggSpec.orders_of_customer.
      apply filter_ext_in. intros o' Ho'.
      destruct (String.eqb_spec (Agg.customer_key o') (Agg.customer_key o)) as [Heq|Hne].
      - destruct (customer_key_injective o o' (Hnames o Ho) (Hnames o' Ho') Heq) as [-> ->].
        now rewrite !String.eqb_refl.
      - destruct (String.eqb_spec (Agg.customer_name o') (Agg.customer_name o)) as [Hn|];
          [|reflexivity].
        destruct (String.eqb_spec (Agg.address (Agg.delivery_details o'))
                                  (Agg.address (Agg.delivery_details o))) as [Ha|];
          [|reflexivity].
        exfalso. apply Hne. unfold Agg.customer_key. now rewrite Hn, Ha. }
    assert (Hcount' : count = Z.of_nat (length (AggSpec.orders_of_customer
                                                  (Agg.customer_name o)
                                                  (Agg.address (Agg.delivery_details o))
                                                  new_orders))).
    { rewrite <- Hsame, <- Hc. apply Hcount. }
    assert (Hpos : (0 < count)%Z).
    { rewrite Hcount'. 
      assert (Hmem : In o (AggSpec.orders_of_customer (Agg.customer_name o)
                             (Agg.address (Agg.delivery_details o)) new_orders)).
      { unfold AggSpec.orders_of_customer. apply filter_In. split; [assumption|].
        now rewrite !String.eqb_refl. }
      destruct (AggSpec.orders_of_customer _ _ new_orders); [destruct Hmem | cbn; lia]. }
    pose proof (Hdiv o Ho) as Hsome. cbn zeta in Hsome. rewrite <- Hcount' in Hsome.
    destruct (true_div (AggSpec.item_total
                          (AggSpec.orders_of_customer
                             (Agg.customer_name o)
                             (Agg.address (Agg.delivery_details o)) new_orders))
                       count) as [average|] eqn:Haverage; [|congruence].
    exists o, average. split; [assumption|]. split; [reflexivity|].
    split; [|split; [assumption | split; assumption]].
    unfold Agg.customer_insight, Agg.customer_key.
    rewrite (split_underscore_join _ _ (Hnames o Ho)). rewrite Horders.
    fold (AggSpec.orders_of_customer (Agg.customer_name o)
            (Agg.address (Agg.delivery_details o)) new_orders).
    fold (AggSpec.item_total (AggSpec.orders_of_customer (Agg.customer_name o)
            (Agg.address (Agg.delivery_details o)) new_orders)).
    replace (count >? 0)%Z with true by (symmetry; apply Z.gtb_lt; lia).
    rewrite Haverage. reflexivity. }
  destruct (customer_insights_of_ok true_div st (Agg.customer_patterns st))
    as (insights & Hrun & Hall).
  { apply Forall_forall. intros [key count] Hin.
    destruct (Hentry key count Hin) as (o & average & _ & _ & Hins & _). eauto. }
  exists insights. split; [assumption|]. split.
  - intros order Ho.
    assert (Hkey : In (Agg.customer_key order) (map fst (Agg.customer_patterns st))).
    { apply Hkeys. now apply in_map. }
    apply in_map_iff in Hkey. destruct Hkey as ([key count] & Hk & Hin). cbn in Hk. subst key.
    destruct (Forall2_in_left _ _ _ _ Hall Hin) as (insight & Hi & Hins).
    exists insight. split; [assumption|].
    destruct (Hentry _ count Hin) as (o & average & Ho' & Hkeyeq & Hins' & _).
    cbn [fst snd] in Hins. rewrite Hins' in Hins. injection Hins as <-.
    cbn [Agg.insight_customer_name Agg.insight_address].
    destruct (customer_key_injective order o (Hnames order Ho) (Hnames o Ho')) as [Hn Ha];
      [now symmetry | auto].
  - intros insight Hi.
    destruct (Forall2_in_right _ _ _ _ Hall Hi) as ([key count] & Hin & Hins).
    destruct (Hentry key count Hin) as (o & average & Ho & _ & Hins' & Haverage & Hc & Hpos).
    cbn [fst snd] in Hins. rewrite Hins' in Hins. injection Hins as <-.
    cbn [Agg.insight_customer_name Agg.insight_address Agg.order_count
         Agg.total_items Agg.average_items_per_order].
    split; [|auto].
    intros Hnil. rewrite Hnil in Hc. cbn in Hc. lia.
Qed.

Lemma customer_insights_per_customer_witness :
  (forall order, In order [AggCases.first_order; AggCases.second_order] ->
     all_chars (fun c => negb (Ascii.eqb c "_")) (Agg.customer_name order) = true)
  /\ (forall order, In order [AggCases.first_order; AggCases.second_order] ->
        let theirs := AggSpec.orders_of_customer
                        (Agg.customer_name order)
                        (Agg.address (Agg.delivery_details order))
                        [AggCases.first_order; AggCases.second_order] in
        AggCases.exact_div (AggSpec.item_total theirs) (Z.of_nat (length theirs)) <> None)
  /\ exists insights,
       Agg.get_customer_insights AggCases.exact_div
         (Agg.add_orders AggCases.week_of Agg.init
                         [AggCases.first_order; AggCases.second_order])
       = inr insights
       /\ map Agg.insight_customer_name insights = ["Ada"; "Bob"]
       /\ map Agg.order_count insights = [1%Z; 1%Z]
       /\ map Agg.total_items insights = [22%Z; 6%Z]
       /\ Forall2 Qeq (map Agg.average_items_per_order insights) [22; 6].
Proof.
  assert (Hnames : forall order,
             In order [AggCases.first_order; AggCases.second_order] ->
             all_chars (fun c => negb (Ascii.eqb c "_")) (Agg.customer_name order) = true).
  { intros order [<-|[<-|[]]]; reflexivity. }
  assert (Hdiv : forall order,
             In order [AggCases.first_order; AggCases.second_order] ->
             let theirs := AggSpec.orders_of_customer
                             (Agg.customer_name order)
                             (Agg.address (Agg.delivery_details order))
                             [AggCases.first_order; AggCases.second_order] in
             AggCases.exact_div (AggSpec.item_total theirs) (Z.of_nat (length theirs))
             <> None).
  { intros order _. discriminate. }
  split; [exact Hnames|]. split; [exact Hdiv|].
  destruct (customer_insights_per_customer AggCases.week_of AggCases.exact_div
              [AggCases.first_order; AggCases.second_order] Hnames Hdiv)
    as (insights & Hrun & _).
  exists insights. split; [exact Hrun|].
  vm_compute in Hrun. injection Hrun as <-.
  repeat split; try reflexivity.
  repeat constructor; reflexivity.
Defined.

(** * The order form *)

Lemma placements_app (page : Z) (a b : list Pdf.Op) :
  Pdf.placements page (a ++ b)
  = Pdf.placements page a ++ Pdf.placements (Pdf.page_after page a) b.
Proof.
  revert page. induction a as [|op a IH]; intros page; [reflexivity|].
  destruct op; cbn [app Pdf.placements Pdf.page_after]; rewrite IH; reflexivity.
Qed.

Lemma next_item_position (k : Z) :
  (0 <= k)%Z ->
  if (Pdf.height_of_item k - 20 <? 50)%Z
  then Pdf.page_of_item (k + 1) = (Pdf.page_of_item k + 1)%Z
       /\ Pdf.height_of_item (k + 1) = 750%Z
  else Pdf.page_of_item (k + 1) = Pdf.page_of_item k
       /\ Pdf.height_of_item (k + 1) = (Pdf.height_of_item k - 20)%Z.
Proof.
  intros Hk. unfold Pdf.page_of_item, Pdf.height_of_item.
  destruct (k <? 25)%Z eqn:Hlt; destruct (k + 1 <? 25)%Z eqn:Hlt';
    rewrite ?Z.ltb_lt, ?Z.ltb_ge in Hlt, Hlt';
    match goal with |- if ?c then _ else _ => destruct c eqn:Hc end;
    rewrite ?Z.ltb_lt, ?Z.ltb_ge in Hc; try lia.
  - assert (k = 24)%Z by lia. subst k. split; reflexivity.
  - pose proof (Z.div_mod (k - 25) 36 ltac:(lia)).
    pose proof (Z.mod_pos_bound (k - 25) 36 ltac:(lia)).
    pose proof (Z.div_mod (k + 1 - 25) 36 ltac:(lia)).
    pose proof (Z.mod_pos_bound (k + 1 - 25) 36 ltac:(lia)).
    lia.
  - pose proof (Z.div_mod (k - 25) 36 ltac:(lia)).
    pose proof (Z.mod_pos_bound (k - 25) 36 ltac:(lia)).
    pose proof (Z.div_mod (k + 1 - 25) 36 ltac:(lia)).
    pose proof (Z.mod_pos_bound (k + 1 - 25) 36 ltac:(lia)).
    lia.
Qed.

Lemma item_height_bounds (k : Z) :
  (0 <= k)%Z -> (50 <= Pdf.height_of_item k <= 750)%Z.
Proof.
  intros Hk. unfold Pdf.height_of_item.
  destruct (k <? 25)%Z eqn:Hlt; rewrite ?Z.ltb_lt, ?Z.ltb_ge in Hlt; [lia|].
  pose proof (Z.mod_pos_bound (k - 25) 36 ltac:(lia)). lia.
Qed.

(** The loop puts the item lines where [item_placements] says, and leaves
    the canvas where the next line would go. *)
Lemma draw_items_placements format_price (items : list Pdf.Item) :
  forall k, (0 <= k)%Z ->
    let '(ops, y_end) := Pdf.draw_items format_price items (Pdf.height_of_item k) in
    Pdf.placements (Pdf.page_of_item k) ops
    = Pdf.item_placements (Pdf.item_text format_price) k items
    /\ Pdf.page_after (Pdf.page_of_item k) ops
       = Pdf.page_of_item (k + Z.of_nat (length items))
    /\ y_end = Pdf.height_of_item (k + Z.of_nat (length items)).
Proof.
  induction items as [|item items IH]; intros k Hk.
  - cbn. rewrite Z.add_0_r. auto.
  - cbn [Pdf.draw_items Pdf.item_placements length].
    pose proof (next_item_position k Hk) as Hnext.
    specialize (IH (k + 1)%Z ltac:(lia)).
    replace (k + Z.of_nat (S (length items)))%Z
      with (k + 1 + Z.of_nat (length items))%Z by lia.
    destruct (Pdf.height_of_item k - 20 <? 50)%Z; destruct Hnext as [Hpage Hheight].
    + rewrite <- Hheight.
      destruct (Pdf.draw_items format_price items (Pdf.height_of_item (k + 1)))
        as [ops y_end].
      cbn [Pdf.placements Pdf.page_after]. rewrite <- Hpage.
      destruct IH as (Hp & Ha & Hy). rewrite Hp. auto.
    + rewrite <- Hheight.
      destruct (Pdf.draw_items format_price items (Pdf.height_of_item (k + 1)))
        as [ops y_end].
      cbn [Pdf.placements Pdf.page_after]. rewrite <- Hpage.
      destruct IH as (Hp & Ha & Hy). rewrite Hp. auto.
Qed.

Lemma item_placements_bounds text_of (items : list Pdf.Item) :
  forall k, (0 <= k)%Z ->
    Forall (fun p => (50 <= snd (fst p) <= 750)%Z /\ (0 <= fst (fst (fst p)))%Z
                     /\ snd (fst (fst p)) = 70%Z)
           (Pdf.item_placements text_of k items).
Proof.
  induction items as [|item items IH]; intros k Hk; cbn [Pdf.item_placements];
    constructor.
  - cbn [fst snd]. split; [now apply item_height_bounds|]. split; [|reflexivity].
    unfold Pdf.page_of_item. destruct (k <? 25)%Z eqn:Hlt; [lia|].
    apply Z.ltb_ge in Hlt. pose proof (Z.div_pos (k - 25) 36 ltac:(lia) ltac:(lia)). lia.
  - apply IH. lia.
Qed.

(** X25. On the form, the lines drawn at x = 70 are the item lines, one per
    item and in order: the first 25 go down the first page from 540 in
    steps of 20, the following ones fill pages of 36 lines from 750; every
    string of the form is drawn between the heights 50 and 750; the notes,
    when there are any, go on the page after the one the next item line
    would have gone to. *)
Theorem form_item_lines :
  forall (format_price : Q -> string) (now_number now_date : datetime)
         (order_data : Pdf.OrderData),
    let its := Pdf.get_or (Pdf.items order_data) [] in
    let drawn := Pdf.placements 0 (Pdf.fill_form format_price now_number now_date
                                                 order_data) in
    filter (fun p => (snd (fst (fst p)) =? 70)%Z) drawn
    = Pdf.item_placements (Pdf.item_text format_price) 0 its
    /\ Forall (fun p => (50 <= snd (fst p) <= 750)%Z) drawn
    /\ (forall text, Pdf.notes order_data = Some text -> text <> EmptyString ->
          In (Pdf.page_of_item (Z.of_nat (length its)) + 1, 50, 730, text)%Z drawn).
Proof.
  intros format_price now_number now_date order_data its drawn.
  pose proof (draw_items_placements format_price its 0%Z ltac:(lia)) as Hitems.
  change (Pdf.height_of_item 0) with 540%Z in Hitems.
  change (Pdf.page_of_item 0) with 0%Z in Hitems.
  unfold drawn, Pdf.fill_form. fold its.
  destruct (Pdf.draw_items format_price its 540) as [ops y_end].
  destruct Hitems as (Hp & Ha & _). cbn [fst]. rewrite Z.add_0_l in Ha.
  pose proof (item_placements_bounds (Pdf.item_text format_price) its 0%Z ltac:(lia))
    as Hbounds.
  cbn [app Pdf.placements]. rewrite !placements_app, Hp, Ha.
  set (lines := Pdf.item_placements (Pdf.item_text format_price) 0 its) in *.
  assert (Hfilter : filter (fun p => (snd (fst (fst p)) =? 70)%Z) lines = lines).
  { clear - Hbounds. induction Hbounds as [|p l (_ & _ & Hx) _ IH]; [reflexivity|].
    cbn [filter]. rewrite Hx, IH. reflexivity. }
  assert (Hys : Forall (fun p => (50 <= snd (fst p) <= 750)%Z) lines).
  { eapply Forall_impl; [|exact Hbounds]. intros p H. apply H. }
  destruct (Pdf.notes order_data) as [text|]; [destruct (truthy text) eqn:Ht|].
  - cbn [Pdf.placements Pdf.page_after app filter fst snd Z.eqb Pos.eqb].
    rewrite ?app_nil_r, ?filter_app, ?Hfilter.
    cbn [Pdf.placements filter fst snd Z.eqb Pos.eqb].
    rewrite ?app_nil_r. split; [reflexivity|]. split.
    + repeat (constructor; [cbn; lia|]).
      apply Forall_app. split; [assumption|].
      repeat (constructor; [cbn; lia|]). constructor.
    + intros text' [= <-] _. do 7 right. apply in_or_app. right. right. now left.
  - cbn [Pdf.placements Pdf.page_after app filter fst snd Z.eqb Pos.eqb].
    rewrite ?app_nil_r, ?filter_app, ?Hfilter.
    cbn [Pdf.placements filter fst snd Z.eqb Pos.eqb].
    rewrite ?app_nil_r. split; [reflexivity|]. split.
    + repeat (constructor; [cbn; lia|]).
      assumption.
    + intros text' [= <-] Hne. destruct text; [congruence | discriminate].
  - cbn [Pdf.placements Pdf.page_after app filter fst snd Z.eqb Pos.eqb].
    rewrite ?app_nil_r, ?filter_app, ?Hfilter.
    cbn [Pdf.placements filter fst snd Z.eqb Pos.eqb].
    rewrite ?app_nil_r. split; [reflexivity|]. split.
    + repeat (constructor; [cbn; lia|]).
      assumption.
    + intros text' [=].
Qed.
